(** * Bookmark resolution and page-range planning

    A shallow embedding of the bookmark core of the PDF translator:
    [get_pdf_bookmark.py] (title analysis, hierarchy inference, destination
    resolution, outline flattening) and [split_pdf.py] (page-number
    conversion and the range planner [get_page_ranges]).

    Conventions of the embedding.
    - Python [int] is [Z] (unbounded).  [bool] is a subclass of [int] and
      behaves as 0/1 under every operation used here, so it is covered by
      [PyInt].
    - Python [str] is [string].  Titles are read as sequences of ASCII
      characters (UTF-8 bytes for the fixed Chinese titles of the synthetic
      ranges); the regular-expression classes [\d] and [\s] are their ASCII
      parts.
    - A bookmark produced by the flattener is a dict with the three keys
      [title], [page], [level]; it is a record here.
    - Dict objects that are shared between a caller and a callee live in a
      store (a list of records addressed by index); a sequence of bookmarks
      handed to the planner is a list of addresses into that store. *)

From Stdlib Require Import String Ascii ZArith Lia Sorted.
From stdpp Require Import base list.

Open Scope string_scope.
Open Scope list_scope.
Open Scope Z_scope.

(** ** Strings: the fragments of [re] and [str] that the code uses *)

Module PyStr.

(** [\d] on ASCII text. *)
Definition is_digit (c : ascii) : bool :=
  let n := nat_of_ascii c in (48 <=? n)%nat && (n <=? 57)%nat.

(** [\s] on ASCII text: TAB, LF, VT, FF, CR, the four separators FS..US
    and the space. *)
Definition is_space (c : ascii) : bool :=
  let n := nat_of_ascii c in
  ((9 <=? n)%nat && (n <=? 13)%nat)
  || ((28 <=? n)%nat && (n <=? 31)%nat)
  || (n =? 32)%nat.

Definition is_dot (c : ascii) : bool := (nat_of_ascii c =? 46)%nat.

(** [len(re.findall(r'\.', s))]. *)
Fixpoint count_dots (s : string) : nat :=
  match s with
  | EmptyString => 0%nat
  | String c s' => ((if is_dot c then 1 else 0) + count_dots s')%nat
  end.

(** The greedy scan of [\d*(\.\d+)*] from inside a run of digits: the text
    consumed and the text left.  A dot is consumed only when a digit
    follows it. *)
Fixpoint scan_groups (s : string) : string * string :=
  match s with
  | EmptyString => (EmptyString, EmptyString)
  | String c s' =>
      if is_digit c then
        let '(m, r) := scan_groups s' in (String c m, r)
      else if is_dot c then
        match s' with
        | String d _ =>
            if is_digit d then
              let '(m, r) := scan_groups s' in (String c m, r)
            else (EmptyString, s)
        | EmptyString => (EmptyString, s)
        end
      else (EmptyString, s)
  end.

(** [re.match(r'^\d+(\.\d+)*', s)]: the matched text ([group(0)]) and the
    rest of [s], or [None] when [s] does not start with a digit.  The
    expression is deterministic: after a maximal run of digits only a dot
    followed by a digit can continue the match. *)
Definition match_numbering (s : string) : option (string * string) :=
  match s with
  | String c _ => if is_digit c then Some (scan_groups s) else None
  | EmptyString => None
  end.

Definition starts_with_space (s : string) : bool :=
  match s with
  | String c _ => is_space c
  | EmptyString => false
  end.

(** [re.match(r'^\d+(\.\d+)*\s', s)] as a truth value.  Giving back a
    digit or a whole group never exposes a white-space character, so the
    greedy scan decides the match. *)
Definition match_numbering_ws (s : string) : bool :=
  match match_numbering s with
  | Some (_, r) => starts_with_space r
  | None => false
  end.

(** [re.match(r'^\d+(\.\d+)+', s)]: as [match_numbering], with at least
    one dotted group. *)
Definition match_subnumbering (s : string) : option (string * string) :=
  match match_numbering s with
  | Some (m, r) => if (0 <? count_dots m)%nat then Some (m, r) else None
  | None => None
  end.

(** [re.match(r'^\d+(\.\d+)+\s', s)] as a truth value. *)
Definition match_subnumbering_ws (s : string) : bool :=
  match match_subnumbering s with
  | Some (_, r) => starts_with_space r
  | None => false
  end.

(** [s.split(' ')[0]]: the text before the first space character. *)
Fixpoint first_token (s : string) : string :=
  match s with
  | EmptyString => EmptyString
  | String c s' =>
      if (nat_of_ascii c =? 32)%nat then EmptyString
      else String c (first_token s')
  end.

(** [s.startswith(p)]. *)
Definition startswith (s p : string) : bool := String.prefix p s.

End PyStr.

(** ** Title analysis: [is_child_bookmark] *)

Definition is_child_bookmark (title parent_title : string) : bool :=
  let by_numbering :=
    if PyStr.match_numbering_ws parent_title
       && PyStr.match_subnumbering_ws title
    then
      match PyStr.match_numbering parent_title,
            PyStr.match_subnumbering title with
      | Some (parent_prefix, _), Some (child_prefix, _) =>
          PyStr.startswith child_prefix (parent_prefix ++ ".")%string
      | _, _ => false
      end
    else false in
  if by_numbering then true
  else
    let parent_parts := (PyStr.count_dots parent_title + 1)%nat in
    let child_parts := (PyStr.count_dots title + 1)%nat in
    if (parent_parts + 1 =? child_parts)%nat
       && PyStr.startswith title (PyStr.first_token parent_title)
    then true
    else false.

(** ** Exceptions *)

(** The outcome of a piece of Python code that may raise an [Exception]. *)
Inductive result (A : Type) :=
| Ok (a : A)
| Raise.
Arguments Ok {A} a.
Arguments Raise {A}.

#[global] Instance result_bind : MBind result :=
  fun A B k m =>
    match m with
    | Ok a => k a
    | Raise => Raise
    end.

(** [try: m  except Exception: h]. *)
Definition try_except {A} (m : result A) (h : result A) : result A :=
  match m with
  | Ok a => Ok a
  | Raise => h
  end.

(** ** Python values that can sit in a bookmark's [page] slot *)

(** A PyPDF2 [IndirectObject]: object number, generation and the reader it
    belongs to (compared by identity in [__eq__]). *)
Record IndirectObject := mkIndirect {
  idnum : Z;
  generation : Z;
  pdf : nat
}.

Definition indirect_eqb (a b : IndirectObject) : bool :=
  (idnum a =? idnum b) && (generation a =? generation b) && (pdf a =? pdf b)%nat.

(** What a dictionary holds under the key [/StructParents]: nothing, an
    integer, or a value that does not support [+ 1]. *)
Inductive struct_parents_entry :=
| SPAbsent
| SPInt (n : Z)
| SPOther.

(** The objects met in a [page] slot or behind a reference.
    - [PyRef r target]: an [IndirectObject] [r], with what
      [r.get_object()] gives ([Raise] when it raises).  Reference chains
      are finite.
    - [PyDict]: a dictionary, of which the code reads only the entry
      [/StructParents].
    - [PyOther]: an object of any other type, one that has none of the
      attributes probed.
    [PyDict] and [PyOther] carry what [str()] gives for them. *)
#[local] Unset Elimination Schemes.
Inductive pyobj :=
| PyNone
| PyInt (n : Z)
| PyStr (s : string)
| PyRef (r : IndirectObject) (target : result pyobj)
| PyDict (struct_parents : struct_parents_entry) (repr : string)
| PyOther (repr : string).
#[local] Set Elimination Schemes.

(** The dict [{'title': .., 'page': .., 'level': ..}]. *)
Record bookmark := mkBookmark {
  title : string;
  page : pyobj;
  level : Z
}.

#[global] Instance bookmark_inhabited : Inhabited bookmark :=
  populate (mkBookmark "" PyNone 0).

(** ** Hierarchy inference: [infer_bookmark_level] *)

(** The working dict of the inference: a bookmark plus the auxiliary key
    [original_index], which is removed before the result is returned. *)
Record infer_item := mkItem {
  it_title : string;
  it_page : pyobj;
  it_level : Z;
  it_original_index : nat
}.

#[global] Instance infer_item_inhabited : Inhabited infer_item :=
  populate (mkItem "" PyNone 0 0).

Definition set_it_level (l : Z) (x : infer_item) : infer_item :=
  mkItem (it_title x) (it_page x) l (it_original_index x).

(** First pass: copy every bookmark with level 0; [original_index] is the
    length of the result so far. *)
Fixpoint copy_bookmarks (result : list infer_item) (bookmarks : list bookmark)
  : list infer_item :=
  match bookmarks with
  | [] => result
  | b :: bs =>
      copy_bookmarks
        (result ++ [mkItem (title b) (page b) 0 (length result)]) bs
  end.

(** The inner loop [for j in range(i)], over the indices still to try: the
    first [j] whose title is a parent of the title at [i] sets the level at
    [i] and ends the loop. *)
Fixpoint scan_parents (result : list infer_item) (i : nat) (js : list nat)
  : list infer_item :=
  match js with
  | [] => result
  | j :: js' =>
      if is_child_bookmark (it_title (result !!! i)) (it_title (result !!! j))
      then <[i := set_it_level (it_level (result !!! j) + 1) (result !!! i)]> result
      else scan_parents result i js'
  end.

(** The outer loop [for i in range(1, len(result))]. *)
Definition infer_levels (result : list infer_item) : list infer_item :=
  fold_left (fun res i => scan_parents res i (seq 0 i))
            (seq 1 (length result - 1)) result.

Definition strip_item (x : infer_item) : bookmark :=
  mkBookmark (it_title x) (it_page x) (it_level x).

Definition infer_bookmark_level (bookmarks : list bookmark) : list bookmark :=
  match bookmarks with
  | [] => []
  | _ => map strip_item (infer_levels (copy_bookmarks [] bookmarks))
  end.

(** ** The document-access layer, as the resolver sees it *)

(** The outcome of [hasattr(o, name)] followed by [o.name]. *)
Inductive attr (A : Type) :=
| NoAttr
| AttrRaises
| Attr (a : A).
Arguments NoAttr {A}.
Arguments AttrRaises {A}.
Arguments Attr {A} a.

(** The value stored under the key [/D]. *)
Inductive dest_value :=
| DList (items : list pyobj)
| DOther.

(** One outline entry, by what the resolver can observe of it:
    - [oi_title]: the attribute [title], when there is one;
    - [oi_page]: the attribute [page];
    - [oi_mapping]: [None] when a membership test [key in entry] raises;
      otherwise whether [/Page] is a key, and the value under [/D] when
      [/D] is a key;
    - [oi_indirect]: the entry as an [IndirectObject], when its class is
      one. *)
Record outline_item := mkOutlineItem {
  oi_title : option string;
  oi_page : attr pyobj;
  oi_mapping : option (bool * option dest_value);
  oi_indirect : option IndirectObject
}.

(** A [PdfReader]:
    - [reader_pages]: the [indirect_reference] of every page, in order
      ([None] for a page without one); [Raise] when walking the pages
      raises;
    - [reader_destination_page]: [get_destination_page_number(entry)],
      [Raise] when it raises or gives something that is not a number. *)
Record PdfReader := mkReader {
  reader_pages : result (list (option IndirectObject));
  reader_destination_page : outline_item -> result Z
}.

(** [page.indirect_reference == q] for an [IndirectObject] [q]. *)
Definition ref_is (q : IndirectObject) (pr : option IndirectObject) : bool :=
  match pr with
  | Some r => indirect_eqb r q
  | None => false
  end.

(** [page.indirect_reference == o] for any object [o]. *)
Definition ref_equals (o : pyobj) (pr : option IndirectObject) : bool :=
  match o, pr with
  | PyRef q _, _ => ref_is q pr
  | PyNone, None => true
  | _, _ => false
  end.

(** [hasattr(page.indirect_reference, 'idnum') and
     page.indirect_reference.idnum == n]. *)
Definition ref_has_idnum (n : Z) (pr : option IndirectObject) : bool :=
  match pr with
  | Some r => idnum r =? n
  | None => false
  end.

(** [for i, page in enumerate(pages): if test(page): return i + 1]: the
    1-based number of the first page that passes the test. *)
Definition first_page (test : option IndirectObject -> bool)
    (pages : list (option IndirectObject)) : option Z :=
  match list_find (fun pr => test pr = true) pages with
  | Some (i, _) => Some (Z.of_nat i + 1)
  | None => None
  end.

(** [obj['/StructParents'] + 1], for a key that is present. *)
Definition struct_parents_succ (e : struct_parents_entry) : result pyobj :=
  match e with
  | SPInt n => Ok (PyInt (n + 1))
  | _ => Raise
  end.

(** ** Destination resolution: [get_bookmark_page] *)

(** The innermost [try] of the [/D] branch: fetch the object behind the
    page reference and read its [/StructParents].  [Ok None] is leaving the
    block without a [return]. *)
Definition resolve_struct_parents (target : result pyobj)
  : result (option pyobj) :=
  obj ← target;
  match obj with
  | PyDict SPAbsent _ => Ok None
  | PyDict e _ => v ← struct_parents_succ e; Ok (Some v)
  | _ => Ok None
  end.

(** The chain [if hasattr(bookmark, 'page') / elif '/Page' in bookmark /
    elif '/D' in bookmark].  [Ok (Some v)] is [return v]; [Ok None] is
    falling out of the chain; [Raise] is an exception that no handler inside
    the chain catches. *)
Definition resolve_by_keys (b : outline_item) (r : PdfReader)
  : result (option pyobj) :=
  match oi_page b with
  | Attr v => Ok (Some v)
  | AttrRaises => Raise
  | NoAttr =>
      match oi_mapping b with
      | None => Raise
      | Some (true, _) =>
          n ← reader_destination_page r b; Ok (Some (PyInt (n + 1)))
      | Some (false, Some (DList (page_ref :: _))) =>
          pages ← reader_pages r;
          match first_page (ref_equals page_ref) pages with
          | Some n => Ok (Some (PyInt n))
          | None =>
              match page_ref with
              | PyRef q target =>
                  match first_page (ref_has_idnum (idnum q)) pages with
                  | Some n => Ok (Some (PyInt n))
                  | None =>
                      try_except (resolve_struct_parents target) (Ok None)
                  end
              | _ => Ok None
              end
          end
      | Some (false, _) => Ok None
      end
  end.

(** The block for an entry that is itself an [IndirectObject]: identity
    match, object-number match (each in its own [try]), then the estimate
    from the object number. *)
Definition resolve_indirect (b : outline_item) (r : PdfReader)
  : result (option pyobj) :=
  match oi_indirect b with
  | None => Ok None
  | Some q =>
      by_identity ←
        try_except
          (pages ← reader_pages r;
           Ok (first_page (ref_is q) pages))
          (Ok None);
      match by_identity with
      | Some n => Ok (Some (PyInt n))
      | None =>
          by_idnum ←
            try_except
              (pages ← reader_pages r;
               Ok (first_page (ref_has_idnum (idnum q)) pages))
              (Ok None);
          match by_idnum with
          | Some n => Ok (Some (PyInt n))
          | None =>
              pages ← reader_pages r;
              Ok (Some (PyInt (Z.min (idnum q / 2) (Z.of_nat (length pages)))))
          end
      end
  end.

(** The body of the outer [try]. *)
Definition get_bookmark_page_body (b : outline_item) (r : PdfReader)
  : result pyobj :=
  found ← resolve_by_keys b r;
  match found with
  | Some v => Ok v
  | None =>
      found' ← resolve_indirect b r;
      match found' with
      | Some v => Ok v
      | None => Ok PyNone
      end
  end.

Definition get_bookmark_page (b : outline_item) (r : PdfReader) : result pyobj :=
  try_except (get_bookmark_page_body b r) (Ok PyNone).

(** ** Outline flattening: [flatten_bookmarks] *)

(** The attribute [children] of an entry, through [get_bookmark_children]:
    absent, raising, a list (given directly or returned by calling it), or
    anything else. *)
Inductive children_attr (T : Type) :=
| NoChildren
| ChildrenRaise
| ChildrenOther
| ChildrenList (l : list T).
Arguments NoChildren {T}.
Arguments ChildrenRaise {T}.
Arguments ChildrenOther {T}.
Arguments ChildrenList {T} l.

(** [reader.outline]: an entry, or a Python list of such things. *)
#[local] Unset Elimination Schemes.
Inductive outline :=
| OList (items : list outline)
| OItem (item : outline_item) (children : children_attr outline).
#[local] Set Elimination Schemes.

Definition get_bookmark_title (b : outline_item) : string :=
  match oi_title b with
  | Some t => t
  | None => "无标题"
  end.

Definition get_bookmark_children {T} (c : children_attr T) : list T :=
  match c with
  | ChildrenList l => l
  | _ => []
  end.

(** The page stored in the flattened record: what [get_bookmark_page]
    returned. *)
Definition returned_page (res : result pyobj) : pyobj :=
  match res with
  | Ok v => v
  | Raise => PyNone
  end.

Fixpoint flatten_bookmarks (bookmarks : outline) (r : PdfReader) (lvl : Z)
  : list bookmark :=
  match bookmarks with
  | OList items =>
      concat (map (fun b => flatten_bookmarks b r lvl) items)
  | OItem b children =>
      mkBookmark (get_bookmark_title b)
                 (returned_page (get_bookmark_page b r)) lvl
      :: match children with
         | ChildrenList l =>
             concat (map (fun c => flatten_bookmarks c r (lvl + 1)) l)
         | _ => []
         end
  end.

(** The part of [extract_bookmarks] between reading the outline and
    printing: flatten, then infer levels when every level is 0 and there
    is more than one bookmark. *)
Definition all_level_zero (bs : list bookmark) : bool :=
  forallb (fun bm => level bm =? 0) bs.

Definition infer_if_flat (flat_bookmarks : list bookmark) : list bookmark :=
  if all_level_zero flat_bookmarks && (1 <? length flat_bookmarks)%nat
  then infer_bookmark_level flat_bookmarks
  else flat_bookmarks.

Definition extract_bookmarks (o : outline) (r : PdfReader) : list bookmark :=
  infer_if_flat (flatten_bookmarks o r 0).

(** ** Page-number conversion: [convert_to_page_number] *)

Module PyNum.

(** The white space that [int()] skips around an ASCII numeral. *)
Definition is_c_space (c : ascii) : bool :=
  let n := nat_of_ascii c in
  ((9 <=? n)%nat && (n <=? 13)%nat) || (n =? 32)%nat.

Definition digit_value (c : ascii) : Z := Z.of_nat (nat_of_ascii c) - 48.

Fixpoint all_c_space (s : string) : bool :=
  match s with
  | EmptyString => true
  | String c s' => is_c_space c && all_c_space s'
  end.

Fixpoint lstrip (s : string) : string :=
  match s with
  | String c s' => if is_c_space c then lstrip s' else s
  | EmptyString => EmptyString
  end.

(** The digits of a decimal numeral, with single underscores allowed
    between digits and white space allowed after the last digit.
    [after_digit] tells whether the previous character was a digit. *)
Fixpoint numeral (acc : Z) (after_digit : bool) (s : string) : option Z :=
  match s with
  | EmptyString => if after_digit then Some acc else None
  | String c s' =>
      if PyStr.is_digit c then numeral (10 * acc + digit_value c) true s'
      else if (nat_of_ascii c =? 95)%nat then
        match s' with
        | String d _ =>
            if after_digit && PyStr.is_digit d then numeral acc false s'
            else None
        | EmptyString => None
        end
      else if is_c_space c then
        if after_digit && all_c_space s' then Some acc else None
      else None
  end.

(** The largest number of digits that [int()] accepts in a decimal
    numeral ([sys.int_info.default_max_str_digits], in CPython 3.11 and
    later); above it [int()] raises [ValueError].  Signs, white space and
    underscores do not count, leading zeros do. *)
Definition max_str_digits : Z := 4300.

Fixpoint count_digits (s : string) : Z :=
  match s with
  | EmptyString => 0
  | String c s' =>
      (if PyStr.is_digit c then 1 else 0) + count_digits s'
  end.

(** [int(s)]; [None] is [ValueError]: the text is not a numeral, or it has
    more digits than the limit. *)
Definition int_of_str (s : string) : option Z :=
  if max_str_digits <? count_digits s then None
  else
    match lstrip s with
    | String c s' =>
        if (nat_of_ascii c =? 43)%nat then numeral 0 false s'
        else if (nat_of_ascii c =? 45)%nat then
          option_map Z.opp (numeral 0 false s')
        else numeral 0 false (String c s')
    | EmptyString => None
    end.

(** The value of a run of digits. *)
Fixpoint digits_value (acc : Z) (s : string) : Z :=
  match s with
  | EmptyString => acc
  | String c s' => digits_value (10 * acc + digit_value c) s'
  end.

Fixpoint take_digits (s : string) : string :=
  match s with
  | String c s' =>
      if PyStr.is_digit c then String c (take_digits s') else EmptyString
  | EmptyString => EmptyString
  end.

(** [numbers = re.findall(r'\d+', s)], then [int(numbers[0])] when
    [numbers] is not empty: [Ok None] when there is no number, [Raise]
    when [int] raises because the first run of digits is longer than the
    limit. *)
Fixpoint first_number (s : string) : result (option Z) :=
  match s with
  | EmptyString => Ok None
  | String c s' =>
      if PyStr.is_digit c then
        if max_str_digits <? count_digits (take_digits s) then Raise
        else Ok (Some (digits_value 0 (take_digits s)))
      else first_number s'
  end.

End PyNum.

(** [str(o)] for the objects whose text the conversion may read. *)
Definition py_str (o : pyobj) : string :=
  match o with
  | PyNone => "None"
  | PyStr s => s
  | PyDict _ repr => repr
  | PyOther repr => repr
  | _ => ""
  end.

(** [Some n] is the integer returned, [None] is Python's [None].  The whole
    body sits in a [try] whose handler falls through to [return None]. *)
Fixpoint convert_to_page_number (page_obj : pyobj) (pdf_reader : option PdfReader)
  : option Z :=
  let by_text := PyNum.first_number (py_str page_obj) in
  let body : result (option Z) :=
    match page_obj with
    | PyInt n => Ok (Some n)
    | PyStr s =>
        match PyNum.int_of_str s with
        | Some n => Ok (Some n)
        | None =>
            numbers ← PyNum.first_number s;
            match numbers with
            | Some n => Ok (Some n)
            | None => by_text
            end
        end
    | PyRef q target =>
        in_reader ←
          match pdf_reader with
          | Some r =>
              by_identity ←
                try_except
                  (pages ← reader_pages r; Ok (first_page (ref_is q) pages))
                  (Ok None);
              match by_identity with
              | Some n => Ok (Some n)
              | None =>
                  try_except
                    (pages ← reader_pages r;
                     Ok (first_page (ref_has_idnum (idnum q)) pages))
                    (Ok None)
              end
          | None => Ok None
          end;
        match in_reader with
        | Some n => Ok (Some n)
        | None =>
            match target with
            | Ok actual_obj => Ok (convert_to_page_number actual_obj pdf_reader)
            | Raise =>
                match pdf_reader with
                | Some r =>
                    pages ← reader_pages r;
                    Ok (Some (Z.min (idnum q / 2) (Z.of_nat (length pages))))
                | None => Ok (Some (idnum q))
                end
            end
        end
    | _ => by_text
    end in
  match body with
  | Ok v => v
  | Raise => None
  end.

(** ** The range planner: [get_page_ranges] *)

(** The dict [{'title': .., 'start': .., 'end': ..}], 0-based and
    inclusive. *)
Record page_range := mkRange {
  range_title : string;
  range_start : Z;
  range_end : Z
}.

(** The lines the planner itself prints. *)
Inductive message :=
| NoBookmarkAtLevel (split_level : Z)
| PageNotConvertible (t : string) (page_obj : pyobj)
| NoPageInformation (t : string)
| NoValidPage
| InvalidRange (t : string) (first_page last_page : Z).

(** The store of bookmark dicts; a bookmark sequence is a list of
    addresses into it. *)
Abbreviation store := (list bookmark).

Definition set_page (p : pyobj) (b : bookmark) : bookmark :=
  mkBookmark (title b) p (level b).

Definition py_of_option (o : option Z) : pyobj :=
  match o with
  | Some n => PyInt n
  | None => PyNone
  end.

(** One turn of the loop that converts the page objects: the dict at
    address [a] gets its [page] key rewritten. *)
Definition convert_step (pdf_reader : option PdfReader)
    (acc : store * list message) (a : nat) : store * list message :=
  let '(st, log) := acc in
  let bm := st !!! a in
  match page bm with
  | PyNone =>
      (<[a := set_page PyNone bm]> st, log ++ [NoPageInformation (title bm)])
  | page_obj =>
      let page_num := convert_to_page_number page_obj pdf_reader in
      (<[a := set_page (py_of_option page_num) bm]> st,
       match page_num with
       | None => log ++ [PageNotConvertible (title bm) page_obj]
       | Some _ => log
       end)
  end.

(** [isinstance(b['page'], int) and b['page'] > 0]. *)
Definition has_valid_page (b : bookmark) : bool :=
  match page b with
  | PyInt n => 0 <? n
  | _ => false
  end.

(** [b['page']] for a bookmark that passed [has_valid_page]. *)
Definition page_number (b : bookmark) : Z :=
  match page b with
  | PyInt n => n
  | _ => 0
  end.

(** [list.sort(key=lambda x: x['page'])]: the stable sort by page.  An
    element goes in front of the first one whose page is not smaller, so
    that equal pages keep the order they had. *)
Fixpoint insert_by_page (x : bookmark) (l : list bookmark) : list bookmark :=
  match l with
  | [] => [x]
  | y :: l' =>
      if page_number x <=? page_number y then x :: y :: l'
      else y :: insert_by_page x l'
  end.

Definition sort_by_page (l : list bookmark) : list bookmark :=
  foldr insert_by_page [] l.

(** The loop [for i, bookmark in enumerate(level_bookmarks)], from index
    [i] on; [rest] is what is left to visit. *)
Fixpoint build_ranges (level_bookmarks : list bookmark) (total_pages : Z)
    (i : nat) (rest : list bookmark)
    (acc : list page_range * list message) : list page_range * list message :=
  match rest with
  | [] => acc
  | bm :: rest' =>
      let '(ranges, log) := acc in
      let start_page := page_number bm - 1 in
      let end_page :=
        if (i <? length level_bookmarks - 1)%nat
        then page_number (level_bookmarks !!! (i + 1)%nat) - 2
        else total_pages - 1 in
      build_ranges level_bookmarks total_pages (S i) rest'
        (if end_page >=? start_page
         then (ranges ++ [mkRange (title bm) start_page end_page], log)
         else (ranges, log ++ [InvalidRange (title bm) (start_page + 1) (end_page + 1)]))
  end.

(** The last part: add a front range and a back range around the ranges
    found, or give the whole document when none was found. *)
Definition complete_ranges (ranges : list page_range) (total_pages : Z)
  : list page_range :=
  match ranges with
  | first_range :: _ =>
      let last_range := List.last ranges first_range in
      let ranges1 :=
        if range_start first_range >? 0
        then mkRange "前言部分" 0 (range_start first_range - 1) :: ranges
        else ranges in
      if range_end last_range <? total_pages - 1
      then ranges1 ++ [mkRange "附录部分" (range_end last_range + 1) (total_pages - 1)]
      else ranges1
  | [] => [mkRange "完整文档" 0 (total_pages - 1)]
  end.

(** What a call leaves behind: the store, the lines printed, the value
    returned. *)
Record planned := mkPlanned {
  pl_store : store;
  pl_log : list message;
  pl_ranges : list page_range
}.

(** [[b for b in bookmarks if b['level'] == split_level]]: a new list of
    the same dicts. *)
Definition select_level (st : store) (bookmarks : list nat) (split_level : Z)
  : list nat :=
  List.filter (fun a => level (st !!! a) =? split_level) bookmarks.

(** The loop that converts the page objects, over the whole selection. *)
Definition convert_pages (pdf_reader : option PdfReader)
    (level_bookmarks : list nat) (st : store) : store * list message :=
  fold_left (convert_step pdf_reader) level_bookmarks (st, []).

(** The bookmarks that keep a valid page.  Nothing is written to a dict
    after the conversion, so the dicts are taken by value from here on. *)
Definition valid_bookmarks (st : store) (level_bookmarks : list nat)
  : list bookmark :=
  List.filter has_valid_page (map (fun a => st !!! a) level_bookmarks).

Definition get_page_ranges (st : store) (bookmarks : list nat)
    (total_pages split_level : Z) (pdf_reader : option PdfReader) : planned :=
  let level_bookmarks := select_level st bookmarks split_level in
  match level_bookmarks with
  | [] => mkPlanned st [NoBookmarkAtLevel split_level] []
  | _ =>
      let '(st1, log1) := convert_pages pdf_reader level_bookmarks st in
      match valid_bookmarks st1 level_bookmarks with
      | [] => mkPlanned st1 (log1 ++ [NoValidPage]) []
      | valid =>
          let sorted := sort_by_page valid in
          let '(ranges, log2) :=
            build_ranges sorted total_pages 0 sorted ([], log1) in
          mkPlanned st1 log2 (complete_ranges ranges total_pages)
      end
  end.

(** [infer_bookmark_level] on bookmarks that live in a store: the dicts of
    the result are new ones, allocated after the existing ones; the
    function returns their addresses. *)
Definition infer_in_store (st : store) (bookmarks : list nat)
  : store * list nat :=
  let result := infer_bookmark_level (map (fun a => st !!! a) bookmarks) in
  (st ++ result, seq (length st) (length result)).


(** * Splitting: [sanitize_filename] and [split_pdf]

    Conventions, besides those above.
    - [len] of a title counts the characters of the [string]; this is
      Python's [len] for ASCII titles.
    - A [set] of page numbers is a [Zset].
    - The files written are kept as a list, in the order written, each
      with its name inside the output directory and the pages put in it. *)

From Stdlib Require Import DecimalString DecimalNat.
From stdpp Require Import zmap fin_sets.

Open Scope Z_scope.

Module PyFile.

(** The character class of the pattern: backslash, slash, star, question
    mark, colon, double quote, the two angle brackets and the bar. *)
Definition is_illegal (c : ascii) : bool :=
  let n := nat_of_ascii c in
  (n =? 92)%nat || (n =? 47)%nat || (n =? 42)%nat || (n =? 63)%nat
  || (n =? 58)%nat || (n =? 34)%nat || (n =? 60)%nat || (n =? 62)%nat
  || (n =? 124)%nat.

(** [re.sub] of that class by an underscore. *)
Fixpoint replace_illegal (name : string) : string :=
  match name with
  | EmptyString => EmptyString
  | String c name' =>
      String (if is_illegal c then "_"%char else c) (replace_illegal name')
  end.

(** The format [{n:02d}] for a number that is not negative: its decimal digits,
    with a zero in front when there is only one. *)
Definition format_02d (n : nat) : string :=
  let digits := NilEmpty.string_of_uint (Nat.to_uint n) in
  if (n <? 10)%nat then ("0" ++ digits)%string else digits.

End PyFile.

Definition sanitize_filename (name : string) : string :=
  let name := PyFile.replace_illegal name in
  if (150 <? String.length name)%nat
  then (substring 0 147 name ++ "...")%string
  else name.

(** A file that [split_pdf] has written: its name inside the output
    directory and the pages of the source it holds, by 0-based index, in
    the order in which they were added. *)
Record output_file := mkOutput {
  out_name : string;
  out_pages : list Z
}.

(** The lines that [split_pdf] prints, with the values they show. *)
Inductive split_message :=
| TotalPages (total_pages : Z)
| Extracting (split_level : Z)
| Planner (m : message)
| NoRanges
| NotCovered (missing : nat) (shown : option (list Z))
| Splitting (files : nat)
| PageOutOfRange (page_number total_pages : Z)
| CannotAddPage (page_number : Z)
| NoValidPages (output_filename : string)
| Created (output_filename : string) (first_page last_page pages : Z)
| SaveFailed (output_filename : string)
| Finished.

(** What may go wrong while one output file is made; each call is
    identified by the turn of the loops it happens in.
    - [add_page_raises i p]: [pdf_writer.add_page(pdf.pages[p])] raises in
      the turn of range [i] (the page is then not in the writer);
    - [write_raises i]: opening or writing the file of range [i] raises
      (the file is then not counted as written). *)
Record split_env := mkEnv {
  add_page_raises : nat -> Z -> bool;
  write_raises : nat -> bool
}.

(** [range(range_info['start'], range_info['end'] + 1)]. *)
Definition range_pages (r : page_range) : list Z :=
  seqZ (range_start r) (range_end r + 1 - range_start r).

(** The loops that fill [covered_pages]. *)
Definition covered_pages (ranges : list page_range) : Zset :=
  fold_left
    (fun covered range_info =>
       fold_left (fun covered page => covered ∪ {[page]})
                 (range_pages range_info) covered)
    ranges ∅.

(** [set(range(total_pages)) - covered_pages]. *)
Definition missing_pages (total_pages : Z) (covered : Zset) : Zset :=
  list_to_set (seqZ 0 total_pages) ∖ covered.

(** [sorted(missing_pages)]: the numbers of [range(total_pages)] that are
    in the set, in ascending order. *)
Definition sorted_missing (total_pages : Z) (missing : Zset) : list Z :=
  List.filter (fun p => bool_decide (p ∈ missing)) (seqZ 0 total_pages).

(** The coverage check: the lines it prints. *)
Definition check_coverage (ranges : list page_range) (total_pages : Z)
  : list split_message :=
  let covered := covered_pages ranges in
  if bool_decide (Z.of_nat (size covered) <> total_pages) then
    let missing := missing_pages total_pages covered in
    [NotCovered (size missing)
       (if (size missing <? 20)%nat
        then Some (sorted_missing total_pages missing)
        else None)]
  else [].

(** One turn of the loop over the pages of a range: [acc] is the pages
    in the writer and the lines printed. *)
Definition add_page_step (env : split_env) (i : nat) (total_pages : Z)
    (acc : list Z * list split_message) (page_num : Z)
  : list Z * list split_message :=
  let '(writer, log) := acc in
  if (0 <=? page_num) && (page_num <? total_pages) then
    if add_page_raises env i page_num
    then (writer, log ++ [CannotAddPage (page_num + 1)])
    else (writer ++ [page_num], log)
  else (writer, log ++ [PageOutOfRange (page_num + 1) total_pages]).

(** One turn of the loop over the ranges: [acc] is the files written and
    the lines printed. *)
Definition split_step (env : split_env) (total_pages : Z)
    (acc : list output_file * list split_message) (ir : nat * page_range)
  : list output_file * list split_message :=
  let '(files, log) := acc in
  let '(i, range_info) := ir in
  let start_page := range_start range_info in
  let end_page := range_end range_info in
  let safe_title := sanitize_filename (range_title range_info) in
  let output_filename :=
    (PyFile.format_02d (i + 1) ++ "_" ++ safe_title ++ ".pdf")%string in
  let '(writer, log1) :=
    fold_left (add_page_step env i total_pages)
              (range_pages range_info) ([], log) in
  if (length writer =? 0)%nat
  then (files, log1 ++ [NoValidPages output_filename])
  else if write_raises env i
  then (files, log1 ++ [SaveFailed output_filename])
  else (files ++ [mkOutput output_filename writer],
        log1 ++ [Created output_filename (start_page + 1) (end_page + 1)
                         (end_page - start_page + 1)]).

(** What a run of [split_pdf] leaves behind. *)
Record split_outcome := mkOutcome {
  so_files : list output_file;
  so_log : list split_message
}.

(** [split_pdf], from the point where the input is open.
    - [pdf] is the reader that [split_pdf] opens; reading its pages may
      raise, and then so does [split_pdf].
    - [source] is what [extract_bookmarks] gets from its own reader of the
      same file: the outline and the reader, or [Raise] when that fails,
      in which case [extract_bookmarks] returns the empty list.
    The bookmarks that come back are new dicts, so they make up the store
    that the planner works on.  The lines printed by [extract_bookmarks]
    are not part of the log. *)
Definition split_pdf (pdf : PdfReader) (source : result (outline * PdfReader))
    (split_level : Z) (env : split_env) : result split_outcome :=
  pages ← reader_pages pdf;
  let total_pages := Z.of_nat (length pages) in
  let bookmarks :=
    match source with
    | Ok (o, reader) => extract_bookmarks o reader
    | Raise => []
    end in
  let plan :=
    get_page_ranges bookmarks (seq 0 (length bookmarks)) total_pages
                    split_level (Some pdf) in
  let ranges := pl_ranges plan in
  let log :=
    [TotalPages total_pages; Extracting split_level]
    ++ map Planner (pl_log plan) in
  match ranges with
  | [] => Ok (mkOutcome [] (log ++ [NoRanges]))
  | _ =>
      let log :=
        log ++ check_coverage ranges total_pages
            ++ [Splitting (length ranges)] in
      let '(files, log) :=
        fold_left (split_step env total_pages)
                  (zip (seq 0 (length ranges)) ranges) ([], log) in
      Ok (mkOutcome files (log ++ [Finished]))
  end.
(** * Vocabulary of the properties *)

(** ** Outlines: size, induction *)

Section OutlineInduction.
Variable P : outline -> Prop.
Hypothesis P_list : forall items, Forall P items -> P (OList items).
Hypothesis P_item :
  forall b c, Forall P (get_bookmark_children c) -> P (OItem b c).

Fixpoint outline_nested_ind (o : outline) : P o :=
  let fix all (l : list outline) : Forall P l :=
    match l with
    | [] => @List.Forall_nil _ P
    | x :: l' => @List.Forall_cons _ P x l' (outline_nested_ind x) (all l')
    end in
  match o with
  | OList items => P_list items (all items)
  | OItem b c =>
      P_item b c
        match c return Forall P (get_bookmark_children c) with
        | ChildrenList l => all l
        | _ => @List.Forall_nil _ P
        end
  end.
End OutlineInduction.

(** The number of entries of an outline that the flattener reaches. *)
Fixpoint outline_size (o : outline) : nat :=
  match o with
  | OList items => list_sum (map outline_size items)
  | OItem _ c =>
      S match c with
        | ChildrenList l => list_sum (map outline_size l)
        | _ => 0%nat
        end
  end.

(** An outline in which no entry has children: nesting, if any, is by
    lists inside lists. *)
Fixpoint no_children (o : outline) : bool :=
  match o with
  | OList items => forallb no_children items
  | OItem _ c =>
      match c with
      | ChildrenList (_ :: _) => false
      | _ => true
      end
  end.

#[global] Instance title_inhabited : Inhabited string := populate "".

(** The level at index [i] of a working list is settled with respect to
    the titles [ts]: one more than the level of the first earlier entry
    whose title is a parent of the title at [i], and 0 when there is no such
    entry. *)
Definition level_settled (ts : list string) (res : list infer_item) (i : nat)
  : Prop :=
  (forall j, (j < i)%nat ->
     is_child_bookmark (ts !!! i) (ts !!! j) = true ->
     (forall k, (k < j)%nat -> is_child_bookmark (ts !!! i) (ts !!! k) = false) ->
     it_level (res !!! i) = it_level (res !!! j) + 1)
  /\ ((forall j, (j < i)%nat -> is_child_bookmark (ts !!! i) (ts !!! j) = false) ->
      it_level (res !!! i) = 0).

(** The state of the outer loop of the inference before the turn for index
    [k]: titles and pages are those of the input, the levels before [k] are
    settled, the levels from [k] on are still 0. *)
Definition infer_invariant (ts : list string) (ps : list pyobj) (k : nat)
    (res : list infer_item) : Prop :=
  map it_title res = ts
  /\ map it_page res = ps
  /\ (forall i, (i < k)%nat -> (i < length ts)%nat -> level_settled ts res i)
  /\ (forall i, (k <= i)%nat -> it_level (res !!! i) = 0).

(** ** Page ranges *)

(** Page [p] (0-based) belongs to the inclusive interval of [r]. *)
Definition covers (r : page_range) (p : Z) : Prop :=
  range_start r <= p <= range_end r.

Definition sorted_by_start (rs : list page_range) : Prop :=
  forall i j r r', (i < j)%nat -> rs !! i = Some r -> rs !! j = Some r' ->
    range_start r <= range_start r'.

Definition non_overlapping (rs : list page_range) : Prop :=
  forall i j r r', i <> j -> rs !! i = Some r -> rs !! j = Some r' ->
    forall p, ~ (covers r p /\ covers r' p).

Definition within_document (rs : list page_range) (total_pages : Z) : Prop :=
  forall r, r ∈ rs -> 0 <= range_start r /\ range_end r <= total_pages - 1.

Definition covers_exactly (rs : list page_range) (total_pages : Z) : Prop :=
  forall p, 0 <= p <= total_pages - 1 <-> exists r, r ∈ rs /\ covers r p.

(** The invariant of a full planner output. *)
Definition full_coverage (rs : list page_range) (total_pages : Z) : Prop :=
  sorted_by_start rs
  /\ non_overlapping rs
  /\ within_document rs total_pages
  /\ covers_exactly rs total_pages.

(** [rs] cuts the interval [lo .. hi] into consecutive non-empty pieces,
    in order. *)
Fixpoint tiles (lo hi : Z) (rs : list page_range) : Prop :=
  match rs with
  | [] => lo = hi + 1
  | r :: rs' =>
      range_start r = lo /\ lo <= range_end r /\ tiles (range_end r + 1) hi rs'
  end.

(** The range computed for the entry at index [i] of the sorted entries,
    before it is checked. *)
Definition candidate (sorted : list bookmark) (total_pages : Z) (i : nat)
  : page_range :=
  mkRange (title (sorted !!! i))
          (page_number (sorted !!! i) - 1)
          (if (i + 1 <? length sorted)%nat
           then page_number (sorted !!! (i + 1)%nat) - 2
           else total_pages - 1).

Definition range_ok (r : page_range) : bool := range_start r <=? range_end r.

Definition range_warning (r : page_range) : message :=
  InvalidRange (range_title r) (range_start r + 1) (range_end r + 1).

(** The entries that reach the sort, seen from the call: the bookmarks of
    the target level, with their pages converted, that have a valid page. *)
Definition surviving (st : store) (bookmarks : list nat) (split_level : Z)
    (pdf_reader : option PdfReader) : list bookmark :=
  let level_bookmarks := select_level st bookmarks split_level in
  valid_bookmarks (fst (convert_pages pdf_reader level_bookmarks st))
                  level_bookmarks.

(** The page object that the planner leaves in a bookmark it converts. *)
Definition converted_page (pdf_reader : option PdfReader) (p : pyobj) : pyobj :=
  py_of_option (convert_to_page_number p pdf_reader).

Definition sorted_by_page (l : list bookmark) : Prop :=
  forall i j b b', (i < j)%nat -> l !! i = Some b -> l !! j = Some b' ->
    page_number b <= page_number b'.


(** The entries of an outline in the order in which the flattener visits
    them. *)
Fixpoint outline_items (o : outline) : list outline_item :=
  match o with
  | OList items => concat (map outline_items items)
  | OItem b c =>
      b :: match c with
           | ChildrenList l => concat (map outline_items l)
           | _ => []
           end
  end.

(** The first element of the list under [/D], for an entry that has no
    [/Page] key. *)
Definition destination_head (b : outline_item) : option pyobj :=
  match oi_mapping b with
  | Some (false, Some (DList (x :: _))) => Some x
  | _ => None
  end.

(** The page table gives the page [n] for the object [x]: [n] is the
    1-based number of the first page whose reference equals [x] or, when
    no page has it and [x] is a reference, of the first page whose
    reference has the object number of [x]. *)
Definition page_table_match (pages : list (option IndirectObject))
    (x : pyobj) (n : Z) : Prop :=
  first_page (ref_equals x) pages = Some n
  \/ (first_page (ref_equals x) pages = None
      /\ exists q target,
           x = PyRef q target
           /\ first_page (ref_has_idnum (idnum q)) pages = Some n).

Definition no_page_table_match (pages : list (option IndirectObject))
    (x : pyobj) : Prop :=
  first_page (ref_equals x) pages = None
  /\ forall q target,
       x = PyRef q target ->
       first_page (ref_has_idnum (idnum q)) pages = None.

(** The integer under [/StructParents] in the object behind [x], when [x]
    is a reference whose object can be fetched and is a dictionary with
    such an integer. *)
Definition struct_parents_of (x : pyobj) : option Z :=
  match x with
  | PyRef _ (Ok (PyDict (SPInt sp) _)) => Some sp
  | _ => None
  end.

(** The keys of the entry give no answer: the entry has no [page]
    attribute and no [/Page] key, and the first element of its [/D] list,
    if there is one, matches no page and leads to no [/StructParents]
    number. *)
Definition destination_unanswered (b : outline_item)
    (pages : list (option IndirectObject)) : Prop :=
  oi_page b = NoAttr
  /\ (exists d, oi_mapping b = Some (false, d))
  /\ forall x, destination_head b = Some x ->
       no_page_table_match pages x /\ struct_parents_of x = None.

(** The reasons for which an entry without a [page] attribute gets no
    page, in a document whose pages can be walked: reading the attribute
    raises; testing the keys raises; the destination lookup for the
    [/Page] key raises; or no step gives an answer. *)
Definition resolution_fails (b : outline_item) (r : PdfReader)
    (pages : list (option IndirectObject)) : Prop :=
  oi_page b = AttrRaises
  \/ (oi_page b = NoAttr /\ oi_mapping b = None)
  \/ (oi_page b = NoAttr /\ (exists d, oi_mapping b = Some (true, d))
      /\ reader_destination_page r b = Raise)
  \/ (destination_unanswered b pages /\ oi_indirect b = None).

(** The ways in which [get_bookmark_page] comes to the page [v] of the
    entry [b], in a document with the page table [pages]. *)
Inductive page_origin (b : outline_item) (r : PdfReader)
    (pages : list (option IndirectObject)) : pyobj -> Prop :=
| FromAttribute v :
    oi_page b = Attr v -> page_origin b r pages v
| FromDestination n d :
    oi_page b = NoAttr ->
    oi_mapping b = Some (true, d) ->
    reader_destination_page r b = Ok n ->
    page_origin b r pages (PyInt (n + 1))
| FromPageTable x n :
    oi_page b = NoAttr ->
    destination_head b = Some x ->
    page_table_match pages x n ->
    page_origin b r pages (PyInt n)
| FromStructParents x sp :
    oi_page b = NoAttr ->
    destination_head b = Some x ->
    no_page_table_match pages x ->
    struct_parents_of x = Some sp ->
    page_origin b r pages (PyInt (sp + 1))
| FromOwnReference q n :
    destination_unanswered b pages ->
    oi_indirect b = Some q ->
    page_table_match pages (PyRef q Raise) n ->
    page_origin b r pages (PyInt n)
| FromObjectNumber q :
    destination_unanswered b pages ->
    oi_indirect b = Some q ->
    no_page_table_match pages (PyRef q Raise) ->
    page_origin b r pages
      (PyInt (Z.min (idnum q / 2) (Z.of_nat (length pages))))
| Unresolved :
    resolution_fails b r pages -> page_origin b r pages PyNone.

(** The steps of [get_bookmark_page] whose exception no handler of their
    own catches, so that it reaches the outer handler: reading the [page]
    attribute, testing the keys, the destination lookup for the [/Page]
    key, and walking the pages for the [/D] list or for the estimate. *)
Definition resolution_aborts (b : outline_item) (r : PdfReader) : Prop :=
  oi_page b = AttrRaises
  \/ (oi_page b = NoAttr /\ oi_mapping b = None)
  \/ (oi_page b = NoAttr /\ (exists d, oi_mapping b = Some (true, d))
      /\ reader_destination_page r b = Raise)
  \/ (oi_page b = NoAttr /\ (exists d, oi_mapping b = Some (false, d))
      /\ reader_pages r = Raise
      /\ (destination_head b <> None \/ oi_indirect b <> None)).

(** The entry [b] without its [/D] list. *)
Definition without_destination (b : outline_item) : outline_item :=
  mkOutlineItem (oi_title b) (oi_page b) (Some (false, None)) (oi_indirect b).

(** ** Dotted numberings *)

(** A non-empty run of decimal digits. *)
Definition digit_string (s : string) : Prop :=
  s <> EmptyString /\ PyNum.take_digits s = s.

(** The numbering made of the segments [segs] joined by dots: ["2.1.3"]
    for [["2"; "1"; "3"]]. *)
Fixpoint dotted (segs : list string) : string :=
  match segs with
  | [] => EmptyString
  | [d] => d
  | d :: segs' => (d ++ "." ++ dotted segs')%string
  end.

(** ** More vocabulary: the planner *)

(** The ranges that the loop over the sorted entries keeps, before the
    plan is completed. *)
Definition kept_ranges (st : store) (bookmarks : list nat)
    (total_pages split_level : Z) (pdf_reader : option PdfReader)
  : list page_range :=
  let sorted := sort_by_page (surviving st bookmarks split_level pdf_reader) in
  List.filter range_ok
    (map (candidate sorted total_pages) (seq 0 (length sorted))).

(** Each range starts right after the one before it. *)
Definition contiguous (rs : list page_range) : Prop :=
  forall i r r', rs !! i = Some r -> rs !! S i = Some r' ->
    range_start r' = range_end r + 1.

(** ** More vocabulary: the flattened outline *)

(** A sequence of bookmarks in pre-order below depth [d]: no level is
    under [d], the first level is [d], and from one bookmark to the next
    the level goes up by one at most. *)
Definition steps_by_one (d : Z) (l : list bookmark) : Prop :=
  Forall (fun b => d <= level b) l
  /\ (forall b, head l = Some b -> level b = d)
  /\ (forall i b b', l !! i = Some b -> l !! S i = Some b' ->
        level b' <= level b + 1).

(** ** More vocabulary: output files *)

(** A name without any of the characters that [sanitize_filename]
    replaces. *)
Definition legal_name (s : string) : Prop :=
  Forall (fun c => PyFile.is_illegal c = false) (list_ascii_of_string s).

(** Page [p] exists in a document of [total_pages] pages. *)
Definition in_document (total_pages : Z) (p : Z) : bool :=
  (0 <=? p) && (p <? total_pages).

(** Nothing raises while the output files are made. *)
Definition no_failure (env : split_env) : Prop :=
  (forall i p, add_page_raises env i p = false)
  /\ (forall i, write_raises env i = false).

(** The name of the file made for the range at index [i]. *)
Definition output_name (i : nat) (r : page_range) : string :=
  (PyFile.format_02d (i + 1) ++ "_" ++ sanitize_filename (range_title r)
   ++ ".pdf")%string.

(** The pages of range [r] that get into the writer of file [i]: those
    inside the document whose [add_page] does not raise. *)
Definition added_pages (env : split_env) (total_pages : Z) (i : nat)
    (r : page_range) : list Z :=
  List.filter
    (fun p => in_document total_pages p && negb (add_page_raises env i p))
    (range_pages r).

(** The file written for the range at index [i], if one is written. *)
Definition range_output (env : split_env) (total_pages : Z)
    (ir : nat * page_range) : list output_file :=
  let added := added_pages env total_pages ir.1 ir.2 in
  if (length added =? 0)%nat || write_raises env ir.1 then []
  else [mkOutput (output_name ir.1 ir.2) added].

(** The lines that only the coverage check prints. *)
Definition is_not_covered (m : split_message) : bool :=
  match m with
  | NotCovered _ _ => true
  | _ => false
  end.

(** The bookmarks that [split_pdf] gets from [extract_bookmarks], and the
    plan it gets from [get_page_ranges] for them. *)
Definition split_bookmarks (source : result (outline * PdfReader))
  : list bookmark :=
  match source with
  | Ok (o, reader) => extract_bookmarks o reader
  | Raise => []
  end.

Definition split_plan (pdf : PdfReader) (source : result (outline * PdfReader))
    (split_level total_pages : Z) : list page_range :=
  let bookmarks := split_bookmarks source in
  pl_ranges (get_page_ranges bookmarks (seq 0 (length bookmarks)) total_pages
                             split_level (Some pdf)).

(** A document of twenty pages with two chapters, the second of which
    points beyond the last page, and a title that needs sanitising. *)
Definition twenty_pages : PdfReader :=
  mkReader (Ok (replicate 20 None)) (fun _ => Raise).

Definition two_chapters : outline :=
  OList [OItem (mkOutlineItem (Some "A/b") (Attr (PyInt 5)) None None) NoChildren;
         OItem (mkOutlineItem (Some "B") (Attr (PyInt 30)) None None) NoChildren].

Definition nothing_raises : split_env :=
  mkEnv (fun _ _ => false) (fun _ => false).

(** ** More vocabulary: pages given as text *)

(** The first run of decimal digits of a text, empty when the text has no
    digit: what [re.findall(r'\d+', s)[0]] is. *)
Fixpoint first_digit_run (s : string) : string :=
  match s with
  | EmptyString => EmptyString
  | String c s' =>
      if PyStr.is_digit c then PyNum.take_digits s else first_digit_run s'
  end.
(** * Properties *)

(** ** Worked examples *)

Example match_numbering_ex :
  map PyStr.match_numbering ["2.10 Scope"; "1.2. x"; "12"; "v1.2"; "3.x"]
  = [Some ("2.10", " Scope"); Some ("1.2", ". x"); Some ("12", "");
     None; Some ("3", ".x")].
Proof. reflexivity. Qed.

Example is_child_fallback_ex :
  map (fun t => is_child_bookmark t "A Overview") ["A.1 Scope"; "A.1.1 Detail"; "B.1 Scope"]
  = [true; false; false].
Proof. reflexivity. Qed.

Example infer_ex :
  map level (infer_bookmark_level
    [mkBookmark "1 Intro" (PyInt 1) 0; mkBookmark "1.1 Scope" (PyInt 2) 0;
     mkBookmark "1.1.1 Detail" (PyInt 3) 0; mkBookmark "2 Body" (PyInt 4) 0;
     mkBookmark "2.1 Part" (PyInt 5) 0])
  = [0; 1; 1; 0; 1].
Proof. reflexivity. Qed.

Example int_of_str_ex :
  map PyNum.int_of_str [" 12 "; "+12"; "-12"; "1_000"; "007"; "12a"; "1__0"; "_1"; "1_"; "- 12"; ""]
  = [Some 12; Some 12; Some (-12); Some 1000; Some 7; None; None; None; None; None; None].
Proof. reflexivity. Qed.

Example convert_ex :
  map (fun o => convert_to_page_number o None)
      [PyInt 7; PyStr "12"; PyStr "p. 34-35"; PyStr "none"; PyNone; PyOther "3.5"]
  = [Some 7; Some 12; Some 34; None; None; Some 3].
Proof. reflexivity. Qed.

(** A destination whose page reference is a regenerated copy of the
    reference of the second page (same object number, other generation) is
    found by the object-number scan. *)
Example get_bookmark_page_ex :
  get_bookmark_page
    (mkOutlineItem (Some "A") NoAttr
       (Some (false, Some (DList [PyRef (mkIndirect 7 1 0) Raise]))) None)
    (mkReader (Ok [Some (mkIndirect 5 0 0); Some (mkIndirect 7 0 0)])
              (fun _ => Raise))
  = Ok (PyInt 2).
Proof. reflexivity. Qed.

(** Pages out of order and a repeated page: the entries are sorted, the
    first of the two entries of page 5 gets an empty range and is dropped
    with a warning. *)
Example get_page_ranges_ex :
  let planned :=
    get_page_ranges
      [mkBookmark "B" (PyInt 12) 0; mkBookmark "A" (PyInt 5) 0;
       mkBookmark "A2" (PyInt 5) 0; mkBookmark "C" PyNone 0]
      [0; 1; 2; 3]%nat 20 0 None in
  pl_ranges planned
  = [mkRange "前言部分" 0 3; mkRange "A2" 4 10; mkRange "B" 11 19]
  /\ pl_log planned = [NoPageInformation "C"; InvalidRange "A" 5 4].
Proof. split; reflexivity. Qed.
(** ** Destination resolution never raises *)

Lemma get_bookmark_page_returns b r :
  exists v, get_bookmark_page b r = Ok v.
Proof.
  unfold get_bookmark_page.
  destruct (get_bookmark_page_body b r) as [v|]; simpl; eauto.
Qed.

Lemma flatten_length o r : forall lvl,
  length (flatten_bookmarks o r lvl) = outline_size o.
Proof.
  induction o as [items IH | b c IH] using outline_nested_ind; intros lvl; simpl.
  - induction IH as [| x l Hx _ IHl]; simpl; [done |].
    rewrite length_app, Hx, IHl. done.
  - f_equal. destruct c as [| | | l]; simpl in *; try done.
    revert IH. generalize (lvl + 1). intros d IH.
    induction IH as [| x l Hx _ IHl]; simpl; [done |].
    rewrite length_app, Hx, IHl. done.
Qed.


(** ** Depth in the flattened outline *)

Lemma flatten_no_children_level o r : forall lvl,
  no_children o = true ->
  Forall (fun b => level b = lvl) (flatten_bookmarks o r lvl).
Proof.
  induction o as [items IH | b c IH] using outline_nested_ind; intros lvl Hn.
  - simpl in *. induction IH as [| x l Hx _ IHl]; simpl in *; [constructor |].
    apply andb_true_iff in Hn as [Hx' Hl'].
    apply Forall_app. split; [by apply Hx | by apply IHl].
  - simpl in *. constructor; [done |].
    destruct c as [| | | [| x l]]; simpl; try constructor. discriminate.
Qed.

Lemma all_level_zero_Forall bs :
  all_level_zero bs = true <-> Forall (fun b => level b = 0) bs.
Proof.
  unfold all_level_zero. rewrite forallb_forall, Forall_forall.
  split; intros H x Hx.
  - apply Z.eqb_eq, H. by apply list_elem_of_In.
  - apply Z.eqb_eq, H. by apply list_elem_of_In.
Qed.

(** C10.  A list met among the outline entries is flattened at the depth
    of the list itself, and only the children of an entry are flattened one
    level deeper.  So an outline without children has every bookmark at the
    level the flattening started from; started from 0 this is the condition
    under which [extract_bookmarks] goes on to infer the levels (it does so
    when there is more than one bookmark). *)
Theorem flatten_nested_lists_stay_flat :
  forall (o : outline) (r : PdfReader),
    no_children o = true ->
    (forall items lvl,
        flatten_bookmarks (OList items) r lvl
        = concat (map (fun b => flatten_bookmarks b r lvl) items))
    /\ (forall b c lvl,
        flatten_bookmarks (OItem b c) r lvl
        = mkBookmark (get_bookmark_title b)
                     (returned_page (get_bookmark_page b r)) lvl
          :: concat (map (fun ch => flatten_bookmarks ch r (lvl + 1))
                         (get_bookmark_children c)))
    /\ (forall lvl, Forall (fun b => level b = lvl) (flatten_bookmarks o r lvl))
    /\ all_level_zero (flatten_bookmarks o r 0) = true
    /\ ((1 < length (flatten_bookmarks o r 0))%nat ->
        extract_bookmarks o r = infer_bookmark_level (flatten_bookmarks o r 0)).
Proof.
  intros o r Hn. split; [done |]. split.
  { intros b c lvl. destruct c; done. }
  split; [intros lvl; by apply flatten_no_children_level |].
  assert (Hz : all_level_zero (flatten_bookmarks o r 0) = true).
  { apply all_level_zero_Forall. by apply flatten_no_children_level. }
  split; [done |].
  intros Hlen. unfold extract_bookmarks, infer_if_flat. rewrite Hz. simpl.
  apply Nat.ltb_lt in Hlen. by rewrite Hlen.
Qed.

Lemma flatten_nested_lists_stay_flat_witness :
  let o := OList [OItem (mkOutlineItem (Some "1 Intro") NoAttr None None) NoChildren;
                  OList [OItem (mkOutlineItem (Some "1.1 Scope") NoAttr None None) NoChildren]] in
  let r := mkReader Raise (fun _ => Raise) in
  map level (flatten_bookmarks o r 0) = [0; 0]
  /\ map level (extract_bookmarks o r) = [0; 1].
Proof.
  intros o r.
  destruct (flatten_nested_lists_stay_flat o r eq_refl) as (_ & _ & _ & _ & H).
  split; [reflexivity |]. rewrite H; [reflexivity | simpl; lia].
Defined.

(** ** What the flattener records for an entry *)

Lemma flatten_pages o r : forall lvl,
  map page (flatten_bookmarks o r lvl)
  = map (fun b => returned_page (get_bookmark_page b r)) (outline_items o).
Proof.
  induction o as [items IH | b c IH] using outline_nested_ind; intros lvl; simpl.
  - induction IH as [| x l Hx _ IHl]; simpl; [done |].
    rewrite !map_app, Hx, IHl. done.
  - f_equal. destruct c as [| | | l]; simpl in *; try done.
    revert IH. generalize (lvl + 1). intros d IH.
    induction IH as [| x l Hx _ IHl]; simpl; [done |].
    rewrite !map_app, Hx, IHl. done.
Qed.

Lemma flatten_titles o r : forall lvl,
  map title (flatten_bookmarks o r lvl)
  = map get_bookmark_title (outline_items o).
Proof.
  induction o as [items IH | b c IH] using outline_nested_ind; intros lvl; simpl.
  - induction IH as [| x l Hx _ IHl]; simpl; [done |].
    rewrite !map_app, Hx, IHl. done.
  - f_equal. destruct c as [| | | l]; simpl in *; try done.
    revert IH. generalize (lvl + 1). intros d IH.
    induction IH as [| x l Hx _ IHl]; simpl; [done |].
    rewrite !map_app, Hx, IHl. done.
Qed.

(** Goals made of equations between constructors, under connectives. *)
Ltac cases_solver :=
  solve [ intuition (try congruence; eauto 10);
          repeat match goal with
                 | H : exists _, _ |- _ => destruct H
                 | H : _ /\ _ |- _ => destruct H
                 end;
          try congruence; eauto 10 ].

Lemma try_except_ok {A} (m : result A) (v : A) :
  exists w, try_except m (Ok v) = Ok w.
Proof. destruct m; simpl; eauto. Qed.

Lemma resolve_by_keys_raise b r :
  resolve_by_keys b r = Raise
  <-> oi_page b = AttrRaises
      \/ (oi_page b = NoAttr /\ oi_mapping b = None)
      \/ (oi_page b = NoAttr /\ (exists d, oi_mapping b = Some (true, d))
          /\ reader_destination_page r b = Raise)
      \/ (oi_page b = NoAttr /\ (exists d, oi_mapping b = Some (false, d))
          /\ reader_pages r = Raise /\ destination_head b <> None).
Proof.
  unfold resolve_by_keys, destination_head.
  destruct (oi_page b) as [| | v]; [| cases_solver | cases_solver].
  destruct (oi_mapping b) as [[[|] d] |]; [| | cases_solver].
  - destruct (reader_destination_page r b); simpl; cases_solver.
  - destruct d as [[[| x items] |] |]; [cases_solver | | cases_solver | cases_solver].
    destruct (reader_pages r) as [pages |]; simpl; [| cases_solver].
    split; [| cases_solver]. intros H. exfalso.
    destruct (first_page (ref_equals x) pages); [done |].
    destruct x as [| | | q target | |]; try done.
    destruct (first_page (ref_has_idnum (idnum q)) pages); [done |].
    by destruct (try_except_ok (resolve_struct_parents target) None) as [w Hw];
      rewrite Hw in H.
Qed.

Lemma resolve_by_keys_open b r :
  reader_pages r = Raise ->
  resolve_by_keys b r = Ok None
  <-> oi_page b = NoAttr /\ (exists d, oi_mapping b = Some (false, d))
      /\ destination_head b = None.
Proof.
  intros Hpages. unfold resolve_by_keys, destination_head. rewrite Hpages.
  destruct (oi_page b) as [| | v]; [| cases_solver | cases_solver].
  destruct (oi_mapping b) as [[[|] d] |]; [| | cases_solver].
  - destruct (reader_destination_page r b); simpl; cases_solver.
  - destruct d as [[[| x items] |] |]; simpl; cases_solver.
Qed.

Lemma resolve_indirect_raise b r :
  resolve_indirect b r = Raise
  <-> reader_pages r = Raise /\ oi_indirect b <> None.
Proof.
  unfold resolve_indirect.
  destruct (oi_indirect b) as [q |]; [| cases_solver].
  destruct (reader_pages r) as [pages |]; simpl; [| cases_solver].
  split; [| cases_solver]. intros H. exfalso.
  destruct (first_page (ref_is q) pages); [done |]. simpl in H.
  by destruct (first_page (ref_has_idnum (idnum q)) pages).
Qed.

Lemma get_bookmark_page_body_raise b r :
  get_bookmark_page_body b r = Raise <-> resolution_aborts b r.
Proof.
  unfold get_bookmark_page_body, resolution_aborts.
  destruct (resolve_by_keys b r) as [[v |] |] eqn:Hk; simpl.
  - split; [done |]. intros H.
    assert (resolve_by_keys b r = Raise); [| congruence].
    apply resolve_by_keys_raise.
    destruct H as [? | [? | [? | (Hp & Hm & Hpages & [Hd | Hi])]]]; eauto 10.
    exfalso. pose proof (proj2 (resolve_by_keys_open b r Hpages)) as Hopen.
    destruct (destination_head b) eqn:Hh.
    + assert (resolve_by_keys b r = Raise); [| congruence].
      apply resolve_by_keys_raise. do 3 right. by rewrite Hh.
    + rewrite Hopen in Hk; done.
  - destruct (resolve_indirect b r) as [[v |] |] eqn:Hi; simpl.
    + split; [done |]. intros H.
      assert (Hr : reader_pages r = Raise /\ oi_indirect b <> None);
        [| apply resolve_indirect_raise in Hr; congruence].
      destruct H as [Hp | [[Hp Hm] | [(Hp & Hm & Hd) | (Hp & Hm & Hpages & Hor)]]].
      * assert (resolve_by_keys b r = Raise); [| congruence].
        apply resolve_by_keys_raise. by left.
      * assert (resolve_by_keys b r = Raise); [| congruence].
        apply resolve_by_keys_raise. right. by left.
      * assert (resolve_by_keys b r = Raise); [| congruence].
        apply resolve_by_keys_raise. do 2 right. by left.
      * split; [done |]. destruct Hor as [Hd | Hi']; [| done].
        assert (resolve_by_keys b r = Raise); [| congruence].
        apply resolve_by_keys_raise. by do 3 right.
    + split; [done |]. intros H. exfalso.
      destruct H as [Hp | [[Hp Hm] | [(Hp & Hm & Hd) | (Hp & Hm & Hpages & Hor)]]].
      * assert (resolve_by_keys b r = Raise); [| congruence].
        apply resolve_by_keys_raise. by left.
      * assert (resolve_by_keys b r = Raise); [| congruence].
        apply resolve_by_keys_raise. right. by left.
      * assert (resolve_by_keys b r = Raise); [| congruence].
        apply resolve_by_keys_raise. do 2 right. by left.
      * destruct Hor as [Hd | Hi'].
        -- assert (resolve_by_keys b r = Raise); [| congruence].
           apply resolve_by_keys_raise. by do 3 right.
        -- assert (resolve_indirect b r = Raise); [| congruence].
           by apply resolve_indirect_raise.
    + split; [intros _ | done].
      apply resolve_indirect_raise in Hi as [Hpages Hi].
      apply (resolve_by_keys_open b r Hpages) in Hk as (Hp & Hm & Hd).
      do 3 right. eauto.
  - split; [intros _ | done].
    apply resolve_by_keys_raise in Hk.
    destruct Hk as [? | [? | [? | (Hp & Hm & Hpages & Hd)]]]; eauto 10.
Qed.

Lemma resolve_by_keys_value b r v :
  resolve_by_keys b r = Ok (Some v) ->
  oi_page b = Attr v \/ exists n, v = PyInt n.
Proof.
  unfold resolve_by_keys.
  destruct (oi_page b) as [| | v0]; [| done | intros [= <-]; by left].
  destruct (oi_mapping b) as [[[|] d] |]; [| | done].
  { destruct (reader_destination_page r b); simpl; [| done].
    intros [= <-]. right. eauto. }
  destruct d as [[[| x items] |] |]; try done.
  destruct (reader_pages r) as [pages |]; simpl; [| done].
  destruct (first_page (ref_equals x) pages); [intros [= <-]; right; eauto |].
  destruct x as [| | | q target | |]; try done.
  destruct (first_page (ref_has_idnum (idnum q)) pages);
    [intros [= <-]; right; eauto |].
  destruct target as [[| | | | [| sp |] repr |] |]; simpl; try done.
  intros [= <-]. right. eauto.
Qed.

Lemma resolve_indirect_value b r v :
  resolve_indirect b r = Ok (Some v) -> exists n, v = PyInt n.
Proof.
  unfold resolve_indirect.
  destruct (oi_indirect b) as [q |]; [| done].
  destruct (reader_pages r) as [pages |]; simpl; [| done].
  destruct (first_page (ref_is q) pages); simpl; [intros [= <-]; eauto |].
  destruct (first_page (ref_has_idnum (idnum q)) pages); simpl;
    intros [= <-]; eauto.
Qed.

Lemma get_bookmark_page_value b r :
  exists v, get_bookmark_page b r = Ok v
            /\ (oi_page b = Attr v \/ v = PyNone \/ exists n, v = PyInt n).
Proof.
  unfold get_bookmark_page, get_bookmark_page_body.
  destruct (resolve_by_keys b r) as [[v |] |] eqn:Hk; simpl.
  - exists v. split; [done |].
    destruct (resolve_by_keys_value b r v Hk); eauto.
  - destruct (resolve_indirect b r) as [[v |] |] eqn:Hi; simpl; eauto.
    exists v. split; [done |]. right. right.
    by apply (resolve_indirect_value b r).
  - eauto.
Qed.

Lemma struct_parents_unanswered q target :
  struct_parents_of (PyRef q target) = None ->
  try_except (resolve_struct_parents target) (Ok None) = Ok None.
Proof.
  by destruct target as [[| | | | [| sp |] repr |] |].
Qed.

(** An entry whose [/D] list gives no answer is resolved as the entry
    without the list. *)
Lemma destination_skipped b r pages x :
  oi_page b = NoAttr ->
  destination_head b = Some x ->
  reader_pages r = Ok pages ->
  no_page_table_match pages x ->
  struct_parents_of x = None ->
  get_bookmark_page b r = get_bookmark_page (without_destination b) r.
Proof.
  intros Hp Hd Hpages [H1 H2] Hsp.
  assert (Hk : resolve_by_keys b r = Ok None).
  { unfold resolve_by_keys, destination_head in *. rewrite Hp.
    destruct (oi_mapping b) as [[[|] [[[| y items] |] |]] |]; try done.
    injection Hd as ->. rewrite Hpages. simpl. rewrite H1.
    destruct x as [| | | q target | |]; try done.
    rewrite (H2 q target eq_refl). by apply (struct_parents_unanswered q). }
  assert (Hk' : resolve_by_keys (without_destination b) r = Ok None).
  { unfold resolve_by_keys, without_destination. simpl. by rewrite Hp. }
  unfold get_bookmark_page, get_bookmark_page_body. by rewrite Hk, Hk'.
Qed.

(** C6 (as the code ensures it).  [get_bookmark_page] lets no exception
    out: for every entry and every reader it returns a value.  The value
    is the [page] attribute of the entry as it is found, whatever its type,
    when the entry has one; otherwise it is an integer or [None].  An
    exception is not always taken as a step without answer: when it comes
    from reading the [page] attribute, from testing the keys, from the
    destination lookup for [/Page], or from walking the pages for the [/D]
    list or for the estimate, it ends the resolution with [None], and in no
    other case does the outer handler run.  A [/D] list without answer,
    also one whose reference cannot be fetched or has a [/StructParents]
    that is not a number, is passed over, and the entry is resolved as if
    it had no such list.  The flattener gives every entry its own title
    and its own resolved page, whatever happens for the other entries. *)
Theorem get_bookmark_page_total :
  forall (b : outline_item) (r : PdfReader),
    (exists v, get_bookmark_page b r = Ok v
               /\ (oi_page b = Attr v \/ v = PyNone \/ exists n, v = PyInt n))
    /\ (forall v, oi_page b = Attr v -> get_bookmark_page b r = Ok v)
    /\ (get_bookmark_page_body b r = Raise <-> resolution_aborts b r)
    /\ (resolution_aborts b r -> get_bookmark_page b r = Ok PyNone)
    /\ (forall pages x,
          oi_page b = NoAttr ->
          destination_head b = Some x ->
          reader_pages r = Ok pages ->
          no_page_table_match pages x ->
          struct_parents_of x = None ->
          get_bookmark_page b r = get_bookmark_page (without_destination b) r)
    /\ (forall o lvl,
          map title (flatten_bookmarks o r lvl)
          = map get_bookmark_title (outline_items o)
          /\ map page (flatten_bookmarks o r lvl)
             = map (fun e => returned_page (get_bookmark_page e r))
                   (outline_items o)).
Proof.
  intros b r. split; [apply get_bookmark_page_value |]. split.
  { intros v Hv. unfold get_bookmark_page, get_bookmark_page_body,
      resolve_by_keys. by rewrite Hv. }
  split; [apply get_bookmark_page_body_raise |]. split.
  { intros H. apply get_bookmark_page_body_raise in H.
    unfold get_bookmark_page. by rewrite H. }
  split; [intros pages x; apply destination_skipped |].
  intros o lvl. split; [apply flatten_titles | apply flatten_pages].
Qed.

Lemma get_bookmark_page_total_witness :
  let q := mkIndirect 7 0 0 in
  let r := mkReader (Ok [Some (mkIndirect 5 0 0); Some q]) (fun _ => Raise) in
  let b :=
    mkOutlineItem (Some "A") NoAttr
      (Some (false, Some (DList [PyRef (mkIndirect 9 0 0) Raise]))) (Some q) in
  get_bookmark_page b r = Ok (PyInt 2).
Proof.
  intros q r b.
  destruct (get_bookmark_page_total b r) as (_ & _ & _ & _ & Hskip & _).
  rewrite (Hskip [Some (mkIndirect 5 0 0); Some q]
                 (PyRef (mkIndirect 9 0 0) Raise)); try reflexivity.
  split; [reflexivity |]. intros q' target [= <- _]. reflexivity.
Defined.

(** C6 as stated fails.  An entry whose [page] attribute is a text gets
    that text, which is neither a page number nor [None].  And a step that
    raises is not always passed over: with a [/Page] key whose destination
    lookup raises, the entry gets [None] although its [/D] list starts with
    the reference of page 1, which resolves it once the key is gone; and
    when the pages cannot be walked, the entry gets [None] although the
    object behind its reference has a [/StructParents] that the next step
    would turn into 5. *)
Lemma get_bookmark_page_not_as_stated :
  let r := mkReader (Ok [Some (mkIndirect 5 0 0)]) (fun _ => Raise) in
  let unreadable := mkReader Raise (fun _ => Raise) in
  let text := mkOutlineItem (Some "A") (Attr (PyStr "xyz")) None None in
  let d := Some (DList [PyRef (mkIndirect 5 0 0) Raise]) in
  let target := Ok (PyDict (SPInt 4) "{...}") in
  let structural :=
    mkOutlineItem (Some "C") NoAttr
      (Some (false, Some (DList [PyRef (mkIndirect 9 0 0) target]))) None in
  get_bookmark_page text r = Ok (PyStr "xyz")
  /\ ~ (forall b, exists v,
          get_bookmark_page b r = Ok v
          /\ (v = PyNone \/ exists n, v = PyInt n))
  /\ get_bookmark_page (mkOutlineItem (Some "B") NoAttr (Some (true, d)) None) r
     = Ok PyNone
  /\ get_bookmark_page (mkOutlineItem (Some "B") NoAttr (Some (false, d)) None) r
     = Ok (PyInt 1)
  /\ get_bookmark_page structural unreadable = Ok PyNone
  /\ resolve_struct_parents target = Ok (Some (PyInt 5)).
Proof.
  intros r unreadable text d target structural.
  split; [reflexivity |]. split.
  { intros H. destruct (H text) as (v & Hv & [-> | [n ->]]); discriminate. }
  repeat split; reflexivity.
Qed.

(** ** Where a resolved page comes from *)

Lemma first_page_range test pages n :
  first_page test pages = Some n -> 1 <= n <= Z.of_nat (length pages).
Proof.
  unfold first_page.
  destruct (list_find _ pages) as [[i x] |] eqn:Hf; [| done].
  intros [= <-]. apply list_find_Some in Hf as (Hi & _).
  apply lookup_lt_Some in Hi. lia.
Qed.


Lemma page_table_match_range pages x n :
  page_table_match pages x n -> 1 <= n <= Z.of_nat (length pages).
Proof.
  intros [H | (_ & q & target & _ & H)]; by eapply first_page_range.
Qed.

(** The chain of the keys, in a document whose pages can be walked. *)
Lemma resolve_by_keys_origin b r pages :
  reader_pages r = Ok pages ->
  match resolve_by_keys b r with
  | Ok (Some v) => page_origin b r pages v
  | Ok None => destination_unanswered b pages
  | Raise => resolution_fails b r pages
  end.
Proof.
  intros Hpages. unfold resolve_by_keys.
  destruct (oi_page b) as [| | v] eqn:Hp;
    [| by left | by apply FromAttribute].
  destruct (oi_mapping b) as [[[|] d] |] eqn:Hm;
    [| | right; by left].
  { destruct (reader_destination_page r b) as [n |] eqn:Hd; simpl.
    - by eapply FromDestination.
    - do 2 right. left. eauto. }
  assert (Hnohead : destination_head b = None -> destination_unanswered b pages).
  { intros Hh. split; [done |]. split; [eauto |]. intros x Hx. congruence. }
  destruct d as [[[| x items] |] |];
    try solve [apply Hnohead; unfold destination_head; by rewrite Hm].
  assert (Hh : destination_head b = Some x)
    by (unfold destination_head; by rewrite Hm).
  rewrite Hpages. simpl.
  destruct (first_page (ref_equals x) pages) as [n |] eqn:Hident.
  { eapply FromPageTable; [done | done | by left]. }
  assert (Hopen : no_page_table_match pages x -> struct_parents_of x = None ->
                  destination_unanswered b pages).
  { intros Hno Hsp. split; [done |]. split; [eauto |].
    intros y Hy. rewrite Hh in Hy. by injection Hy as <-. }
  destruct x as [| | | q target | |];
    try solve [apply Hopen; [split; [done | intros ? ? [=]] | done]].
  destruct (first_page (ref_has_idnum (idnum q)) pages) as [n |] eqn:Hnum.
  { eapply FromPageTable; [done | done |]. right. split; [done |]. eauto. }
  assert (Hno : no_page_table_match pages (PyRef q target)).
  { split; [done |]. by intros q' target' [= <- _]. }
  destruct target as [[| | | | [| sp |] repr |] |]; simpl;
    try solve [by apply Hopen].
  by eapply FromStructParents.
Qed.

(** The block for an entry that is a reference, once the keys have given
    no answer. *)
Lemma resolve_indirect_origin b r pages :
  reader_pages r = Ok pages ->
  destination_unanswered b pages ->
  match resolve_indirect b r with
  | Ok (Some v) => page_origin b r pages v
  | Ok None => oi_indirect b = None
  | Raise => False
  end.
Proof.
  intros Hpages Hopen. unfold resolve_indirect.
  destruct (oi_indirect b) as [q |] eqn:Hq; [| done].
  rewrite Hpages. simpl.
  destruct (first_page (ref_is q) pages) as [n |] eqn:H1; simpl.
  { eapply FromOwnReference; [done | done | by left]. }
  destruct (first_page (ref_has_idnum (idnum q)) pages) as [n |] eqn:H2; simpl.
  { eapply FromOwnReference; [done | done |]. right. split; [done |]. eauto. }
  eapply FromObjectNumber; [done | done |].
  split; [done |]. by intros q' target' [= <- _].
Qed.

Lemma get_bookmark_page_origin b r pages :
  reader_pages r = Ok pages ->
  page_origin b r pages (returned_page (get_bookmark_page b r)).
Proof.
  intros Hpages.
  pose proof (resolve_by_keys_origin b r pages Hpages) as Hk.
  unfold get_bookmark_page, get_bookmark_page_body.
  destruct (resolve_by_keys b r) as [[v |] |]; simpl; [done | |].
  - pose proof (resolve_indirect_origin b r pages Hpages Hk) as Hi.
    destruct (resolve_indirect b r) as [[v |] |]; simpl; [done | | done].
    apply Unresolved. do 3 right. by split.
  - by apply Unresolved.
Qed.

(** Each reason for which the resolution fails does give [None]. *)
Lemma resolution_fails_none b r pages :
  reader_pages r = Ok pages ->
  resolution_fails b r pages ->
  get_bookmark_page b r = Ok PyNone.
Proof.
  intros Hpages Hfail.
  unfold get_bookmark_page, get_bookmark_page_body.
  destruct Hfail as [Hp | [[Hp Hm] | [(Hp & [d Hm] & Hd) | [Hopen Hi]]]].
  - unfold resolve_by_keys. by rewrite Hp.
  - unfold resolve_by_keys. by rewrite Hp, Hm.
  - unfold resolve_by_keys. by rewrite Hp, Hm, Hd.
  - destruct Hopen as (Hp & [d Hm] & Hhead).
    assert (Hk : resolve_by_keys b r = Ok None).
    { unfold resolve_by_keys. rewrite Hp, Hm.
      destruct d as [[[| x items] |] |]; try done.
      destruct (Hhead x) as [[H1 H2] Hsp].
      { unfold destination_head. by rewrite Hm. }
      rewrite Hpages. simpl. rewrite H1.
      destruct x as [| | | q target | |]; try done.
      rewrite (H2 q target eq_refl). by apply (struct_parents_unanswered q). }
    rewrite Hk. simpl. unfold resolve_indirect. by rewrite Hi.
Qed.

Lemma get_bookmark_page_none b r pages :
  reader_pages r = Ok pages ->
  returned_page (get_bookmark_page b r) = PyNone
  <-> oi_page b = Attr PyNone \/ resolution_fails b r pages.
Proof.
  intros Hpages. split.
  - intros Hnone.
    pose proof (get_bookmark_page_origin b r pages Hpages) as Ho.
    rewrite Hnone in Ho. inversion Ho; eauto.
  - intros [Hp | Hfail].
    + unfold get_bookmark_page, get_bookmark_page_body, resolve_by_keys.
      by rewrite Hp.
    + by rewrite (resolution_fails_none b r pages).
Qed.

(** C5 (as the code ensures it).  In a document whose pages can be walked,
    the pages of the flattened bookmarks are the values returned by
    [get_bookmark_page] for the entries of the outline, and each of them
    has one of these origins:
    - the [page] attribute of the entry, as it is found, [None] included;
    - for an entry with a [/Page] key, the destination page number of the
      reader plus one;
    - for an entry whose [/D] list starts with [x], the number of the
      first page whose reference is [x] or, without one, of the first page
      whose reference has the object number of [x]: an integer of
      [1 .. total_pages];
    - when [x] matches no page, the [/StructParents] number of the object
      behind [x] plus one, with no bound;
    - when the keys give no answer and the entry is itself a reference,
      the page matched in the same way, or else the estimate
      [min(id // 2, total_pages)];
    - [None], for one of the reasons of [resolution_fails].
    The page is [None] exactly when the [page] attribute is [None] or one
    of these reasons holds; among them are exceptions that end the
    resolution before a later step is tried.  The estimate is at most
    [total_pages], and, in a document of at least one page, it is at least
    1 exactly when [id >= 2]. *)
Theorem resolved_page_origins :
  forall (o : outline) (r : PdfReader) (pages : list (option IndirectObject))
         (lvl : Z),
    reader_pages r = Ok pages ->
    let total_pages := Z.of_nat (length pages) in
    map page (flatten_bookmarks o r lvl)
    = map (fun b => returned_page (get_bookmark_page b r)) (outline_items o)
    /\ (forall b, page_origin b r pages (returned_page (get_bookmark_page b r)))
    /\ (forall b,
          returned_page (get_bookmark_page b r) = PyNone
          <-> oi_page b = Attr PyNone \/ resolution_fails b r pages)
    /\ (forall x n, page_table_match pages x n -> 1 <= n <= total_pages)
    /\ (forall id,
          Z.min (id / 2) total_pages <= total_pages
          /\ (1 <= total_pages ->
              (1 <= Z.min (id / 2) total_pages <-> 2 <= id))).
Proof.
  intros o r pages lvl Hpages total. split; [apply flatten_pages |]. split.
  { intros b. by apply get_bookmark_page_origin. }
  split; [intros b; by apply get_bookmark_page_none |].
  split; [intros x n; apply page_table_match_range |].
  intros id. subst total.
  pose proof (Z.div_mod id 2 ltac:(lia)) as Hdiv.
  pose proof (Z.mod_pos_bound id 2 ltac:(lia)) as Hmod.
  split; [lia |]. intros Ht. split; intros H; lia.
Qed.

Lemma resolved_page_origins_witness :
  let ref := mkIndirect 7 0 0 in
  let pages := [Some (mkIndirect 5 0 0); Some ref] in
  let r := mkReader (Ok pages) (fun _ => Raise) in
  let b := mkOutlineItem (Some "A") NoAttr (Some (false, Some (DList [PyRef ref Raise]))) None in
  map page (flatten_bookmarks (OList [OItem b NoChildren]) r 0) = [PyInt 2]
  /\ page_origin b r pages (PyInt 2).
Proof.
  intros ref pages r b.
  destruct (resolved_page_origins (OList [OItem b NoChildren]) r _ 0 eq_refl)
    as (Hf & Ho & _).
  split; [by rewrite Hf |]. exact (Ho b).
Defined.

(** C5 as stated fails.  In a document of two pages, an entry that is the
    indirect object number 1 gets the estimated page 0, and an entry whose
    destination points to an object with [/StructParents] 100 gets the page
    101: neither is [None] or inside [1 .. 2].  And [None] does not mean
    that the resolution failed: an entry whose [page] attribute is [None]
    gets [None] although its [/D] list starts with the reference of page 2,
    which resolves the same entry when it has no such attribute. *)
Lemma resolved_page_out_of_bounds :
  let r := mkReader (Ok [Some (mkIndirect 10 0 0); Some (mkIndirect 12 0 0)])
                    (fun _ => Raise) in
  let estimated :=
    mkOutlineItem (Some "A") NoAttr (Some (false, None)) (Some (mkIndirect 1 0 0)) in
  let structural :=
    mkOutlineItem (Some "B") NoAttr
      (Some (false, Some (DList [PyRef (mkIndirect 50 0 0)
                                       (Ok (PyDict (SPInt 100) "{...}"))])))
      None in
  let d := Some (false, Some (DList [PyRef (mkIndirect 12 0 0) Raise])) in
  (map page (flatten_bookmarks
               (OList [OItem estimated NoChildren; OItem structural NoChildren]) r 0)
   = [PyInt 0; PyInt 101]
   /\ ~ (forall bm,
           bm ∈ flatten_bookmarks
                  (OList [OItem estimated NoChildren; OItem structural NoChildren]) r 0 ->
           page bm = PyNone \/ exists n, page bm = PyInt n /\ 1 <= n <= 2))
  /\ map page (flatten_bookmarks
                 (OList [OItem (mkOutlineItem (Some "C") (Attr PyNone) d None)
                               NoChildren]) r 0)
     = [PyNone]
  /\ map page (flatten_bookmarks
                 (OList [OItem (mkOutlineItem (Some "C") NoAttr d None)
                               NoChildren]) r 0)
     = [PyInt 2].
Proof.
  intros r estimated structural d.
  split; [| split; reflexivity].
  split; [reflexivity |].
  intros H.
  destruct (H (mkBookmark "A" (PyInt 0) 0)) as [Hn | (n & Hn & Hb)].
  - left.
  - discriminate.
  - injection Hn as <-. lia.
Qed.

(** ** Titles with dotted numberings *)

Lemma str_app_assoc (a b c : string) : ((a ++ b) ++ c = a ++ (b ++ c))%string.
Proof. induction a as [| x a IH]; simpl; [done | by rewrite IH]. Qed.

Lemma str_app_empty (a : string) : (a ++ "")%string = a.
Proof. induction a as [| x a IH]; simpl; [done | by rewrite IH]. Qed.

Lemma prefix_app (a b : string) : String.prefix a (a ++ b) = true.
Proof.
  induction a as [| x a IH]; simpl; [by destruct b |].
  destruct (ascii_dec x x); [done | congruence].
Qed.

Lemma count_dots_app (a b : string) :
  PyStr.count_dots (a ++ b) = (PyStr.count_dots a + PyStr.count_dots b)%nat.
Proof. induction a as [| x a IH]; simpl; [done | rewrite IH; lia]. Qed.

Lemma space_not_digit c : PyStr.is_space c = true -> PyStr.is_digit c = false.
Proof.
  unfold PyStr.is_space, PyStr.is_digit. cbv zeta.
  generalize (nat_of_ascii c). intros n H.
  apply andb_false_iff.
  destruct (Nat.leb_spec 48 n); [| by left]. right.
  apply orb_true_iff in H as [H | H].
  - apply orb_true_iff in H as [H | H];
      apply andb_true_iff in H as [_ H]; apply Nat.leb_le in H; lia.
  - apply Nat.eqb_eq in H. lia.
Qed.

Lemma space_not_dot c : PyStr.is_space c = true -> PyStr.is_dot c = false.
Proof.
  unfold PyStr.is_space, PyStr.is_dot. cbv zeta.
  generalize (nat_of_ascii c). intros n H.
  apply Nat.eqb_neq.
  apply orb_true_iff in H as [H | H].
  - apply orb_true_iff in H as [H | H];
      apply andb_true_iff in H as [H1 H2];
      apply Nat.leb_le in H1; apply Nat.leb_le in H2; lia.
  - apply Nat.eqb_eq in H. lia.
Qed.

Lemma digit_not_dot c : PyStr.is_digit c = true -> PyStr.is_dot c = false.
Proof.
  unfold PyStr.is_digit, PyStr.is_dot. cbv zeta.
  generalize (nat_of_ascii c). intros n H.
  apply andb_true_iff in H as [H1 H2].
  apply Nat.leb_le in H1. apply Nat.leb_le in H2. apply Nat.eqb_neq. lia.
Qed.

(** A run of digits read character by character. *)
Lemma take_digits_all d :
  PyNum.take_digits d = d ->
  forall c d', d = String c d' ->
    PyStr.is_digit c = true /\ PyNum.take_digits d' = d'.
Proof.
  intros H c d' ->. simpl in H.
  destruct (PyStr.is_digit c); [| done]. by injection H as H.
Qed.

Lemma scan_groups_digits d : forall rest,
  PyNum.take_digits d = d ->
  PyStr.scan_groups (d ++ rest)
  = ((d ++ fst (PyStr.scan_groups rest))%string, snd (PyStr.scan_groups rest)).
Proof.
  induction d as [| c d IH]; intros rest H.
  - simpl. by destruct (PyStr.scan_groups rest).
  - destruct (take_digits_all _ H c d eq_refl) as [Hc Hd].
    simpl. rewrite Hc, (IH rest Hd). done.
Qed.

Lemma count_dots_digits d :
  PyNum.take_digits d = d -> PyStr.count_dots d = 0%nat.
Proof.
  induction d as [| c d IH]; intros H; [done |].
  destruct (take_digits_all _ H c d eq_refl) as [Hc Hd].
  simpl. rewrite (digit_not_dot c Hc), (IH Hd). done.
Qed.

Lemma dotted_cons d segs :
  segs <> [] -> dotted (d :: segs) = (d ++ "." ++ dotted segs)%string.
Proof. by destruct segs. Qed.

Lemma dotted_app ps es :
  ps <> [] -> es <> [] ->
  dotted (ps ++ es) = (dotted ps ++ "." ++ dotted es)%string.
Proof.
  induction ps as [| d ps IH]; intros Hp He; [done |].
  destruct ps as [| d' ps].
  - simpl app. by rewrite dotted_cons.
  - change ((d :: d' :: ps) ++ es) with (d :: ((d' :: ps) ++ es)).
    rewrite dotted_cons by done. rewrite IH by done.
    rewrite (dotted_cons d (d' :: ps)) by done.
    by rewrite !str_app_assoc.
Qed.

Lemma dotted_head segs :
  segs <> [] -> Forall digit_string segs ->
  exists c s, dotted segs = String c s /\ PyStr.is_digit c = true.
Proof.
  intros Hne Hall. destruct segs as [| d segs]; [done |].
  apply Forall_cons in Hall as [[Hd Hdig] _].
  destruct d as [| c d]; [done |].
  destruct (take_digits_all _ Hdig c d eq_refl) as [Hc _].
  destruct segs as [| d' segs]; simpl; eauto.
Qed.

(** The greedy scan reads a whole numbering that is followed by white
    space. *)
Lemma scan_groups_dotted segs w t :
  segs <> [] -> Forall digit_string segs -> PyStr.is_space w = true ->
  PyStr.scan_groups (dotted segs ++ String w t) = (dotted segs, String w t).
Proof.
  intros Hne Hall Hw. induction segs as [| d segs IH]; [done |].
  apply Forall_cons in Hall as [[Hd Hdig] Hall].
  destruct segs as [| d' segs].
  - simpl dotted. rewrite scan_groups_digits by done.
    simpl. rewrite (space_not_digit w Hw), (space_not_dot w Hw). simpl.
    by rewrite str_app_empty.
  - rewrite dotted_cons by done. rewrite !str_app_assoc.
    rewrite scan_groups_digits by done.
    destruct (dotted_head (d' :: segs)) as (c & s & Hs & Hc); [done | done |].
    specialize (IH ltac:(done) Hall).
    assert (Hdot : PyStr.scan_groups ("." ++ (dotted (d' :: segs) ++ String w t))
                   = (("." ++ dotted (d' :: segs))%string, String w t)).
    { rewrite Hs in IH |- *. simpl in IH |- *. rewrite Hc in IH |- *.
      simpl. destruct (PyStr.scan_groups (s ++ String w t)) as [m r].
      injection IH as -> ->. done. }
    rewrite Hdot. done.
Qed.

Lemma match_numbering_dotted segs w t :
  segs <> [] -> Forall digit_string segs -> PyStr.is_space w = true ->
  PyStr.match_numbering (dotted segs ++ String w t)
  = Some (dotted segs, String w t).
Proof.
  intros Hne Hall Hw.
  pose proof (scan_groups_dotted segs w t Hne Hall Hw) as Hscan.
  destruct (dotted_head segs Hne Hall) as (c & s & Hs & Hc).
  unfold PyStr.match_numbering. rewrite Hs in Hscan |- *.
  simpl append in *. cbv iota. by rewrite Hc, Hscan.
Qed.

(** The fallback rule of [is_child_bookmark] alone is enough. *)
Lemma is_child_fallback t p :
  PyStr.count_dots t = S (PyStr.count_dots p) ->
  PyStr.startswith t (PyStr.first_token p) = true ->
  is_child_bookmark t p = true.
Proof.
  intros Hdots Hstart. unfold is_child_bookmark.
  match goal with |- (if ?c then true else _) = true => destruct c end; [done |].
  rewrite Hstart.
  assert ((PyStr.count_dots p + 1 + 1 =? PyStr.count_dots t + 1)%nat = true) as ->
    by (apply Nat.eqb_eq; lia).
  done.
Qed.

(** The numbering rule of [is_child_bookmark], in general: it holds
    whenever the child's title starts with a dotted numbering that extends
    the dotted numbering at the start of the parent's title by one or more
    segments, each numbering being followed by white space.  The number of
    added segments is not looked at. *)
Lemma is_child_numbering_extension :
  forall (parent_segs extra : list string) (w1 w2 : ascii) (t1 t2 : string),
    parent_segs <> [] -> extra <> [] ->
    Forall digit_string parent_segs -> Forall digit_string extra ->
    PyStr.is_space w1 = true -> PyStr.is_space w2 = true ->
    is_child_bookmark (dotted (parent_segs ++ extra) ++ String w1 t1)
                      (dotted parent_segs ++ String w2 t2) = true.
Proof.
  intros ps es w1 w2 t1 t2 Hps Hes Hpd Hed Hw1 Hw2.
  assert (Hall : Forall digit_string (ps ++ es)) by (by apply Forall_app).
  assert (Hne : ps ++ es <> []) by (by destruct ps).
  unfold is_child_bookmark, PyStr.match_numbering_ws,
    PyStr.match_subnumbering_ws, PyStr.match_subnumbering.
  rewrite !match_numbering_dotted by done.
  assert (Hdots : (0 <? PyStr.count_dots (dotted (ps ++ es)))%nat = true).
  { apply Nat.ltb_lt. rewrite dotted_app by done.
    rewrite !count_dots_app. simpl. lia. }
  rewrite Hdots. simpl PyStr.starts_with_space. rewrite Hw1, Hw2.
  simpl andb. cbv iota.
  assert (Hpre : PyStr.startswith (dotted (ps ++ es)) (dotted ps ++ ".")%string = true).
  { unfold PyStr.startswith. rewrite dotted_app by done.
    rewrite <- str_app_assoc. apply prefix_app. }
  by rewrite Hpre.
Qed.

Lemma is_child_numbering_extension_example :
  is_child_bookmark "2.10.3 Details" "2 Overview" = true.
Proof.
  apply (is_child_numbering_extension ["2"] ["10"; "3"] " " " " "Details" "Overview").
  - discriminate.
  - discriminate.
  - repeat constructor; discriminate.
  - repeat constructor; discriminate.
  - reflexivity.
  - reflexivity.
Defined.

(** C2 (what the code does on the three examples).  "1.1 Background" is
    a child of "1 Overview" and "2 Overview" is not, as specified; but
    "1.1.1 X" is accepted as a child of "1 Overview",
    although its numbering is two segments longer, and so the inference
    puts "1.1.1 X" on level 1, beside "1.1 Background", not below it. *)
Theorem is_child_accepts_skipped_level :
  is_child_bookmark "1.1 Background" "1 Overview" = true
  /\ is_child_bookmark "2 Overview" "1 Overview" = false
  /\ is_child_bookmark "1.1.1 X" "1 Overview" = true
  /\ map level
       (infer_bookmark_level
          [mkBookmark "1 Overview" (PyInt 1) 0;
           mkBookmark "1.1 Background" (PyInt 2) 0;
           mkBookmark "1.1.1 X" (PyInt 3) 0])
     = [0; 1; 1].
Proof. repeat split. Qed.

(** ** Hierarchy inference *)

Lemma copy_bookmarks_titles bs : forall acc,
  map it_title (copy_bookmarks acc bs) = map it_title acc ++ map title bs.
Proof.
  induction bs as [| b bs IH]; intros acc; simpl.
  - by rewrite app_nil_r.
  - rewrite IH, map_app. simpl. by rewrite <- app_assoc.
Qed.

Lemma copy_bookmarks_pages bs : forall acc,
  map it_page (copy_bookmarks acc bs) = map it_page acc ++ map page bs.
Proof.
  induction bs as [| b bs IH]; intros acc; simpl.
  - by rewrite app_nil_r.
  - rewrite IH, map_app. simpl. by rewrite <- app_assoc.
Qed.

Lemma copy_bookmarks_levels bs : forall acc,
  Forall (fun x => it_level x = 0) acc ->
  Forall (fun x => it_level x = 0) (copy_bookmarks acc bs).
Proof.
  induction bs as [| b bs IH]; intros acc H; simpl; [done |].
  apply IH. apply Forall_app. split; [done |]. by constructor.
Qed.

(** The inner loop over [j = a, .., a + m - 1]: it changes nothing but the
    level at [i], which it sets from the first parent found. *)
Lemma scan_parents_seq res i m : forall a,
  (a + m <= i)%nat -> (i < length res)%nat ->
  let res' := scan_parents res i (seq a m) in
  length res' = length res
  /\ (forall k, k <> i -> res' !!! k = res !!! k)
  /\ it_title (res' !!! i) = it_title (res !!! i)
  /\ it_page (res' !!! i) = it_page (res !!! i)
  /\ ((exists j, (a <= j < a + m)%nat
         /\ is_child_bookmark (it_title (res !!! i)) (it_title (res !!! j)) = true
         /\ (forall k, (a <= k < j)%nat ->
              is_child_bookmark (it_title (res !!! i)) (it_title (res !!! k)) = false)
         /\ it_level (res' !!! i) = it_level (res !!! j) + 1)
      \/ ((forall j, (a <= j < a + m)%nat ->
            is_child_bookmark (it_title (res !!! i)) (it_title (res !!! j)) = false)
          /\ res' = res)).
Proof.
  induction m as [| m IH]; intros a Ha Hi; simpl.
  - repeat split; try done. right. split; [intros j Hj; lia | done].
  - destruct (is_child_bookmark _ _) eqn:Hc.
    + rewrite length_insert. split; [done |]. split.
      { intros k Hk. by rewrite list_lookup_total_insert_ne. }
      rewrite list_lookup_total_insert_eq by done. simpl.
      repeat split. left. exists a. repeat split; try lia; try done.
    + destruct (IH (S a)) as (Hl & Ho & Ht & Hp & Hcase); [lia | done |].
      repeat split; try done.
      destruct Hcase as [(j & Hj & Hjc & Hfirst & Hlev) | [Hnone Heq]].
      * left. exists j. repeat split; try lia; try done.
        intros k Hk. destruct (decide (k = a)) as [-> | Hne]; [done |].
        apply Hfirst. lia.
      * right. split; [| done]. intros j Hj.
        destruct (decide (j = a)) as [-> | Hne]; [done |]. apply Hnone. lia.
Qed.
Lemma map_agree_lookup_total {A B} `{!Inhabited A} (f : A -> B) (l l' : list A) :
  length l' = length l ->
  (forall i, (i < length l)%nat -> f (l' !!! i) = f (l !!! i)) ->
  map f l' = map f l.
Proof.
  intros Hlen H. apply list_eq. intros i.
  change (map f l') with (f <$> l'). change (map f l) with (f <$> l).
  rewrite !list_lookup_fmap.
  destruct (decide (i < length l)%nat) as [Hi | Hi].
  - rewrite (list_lookup_lookup_total_lt l i) by done.
    rewrite (list_lookup_lookup_total_lt l' i) by lia.
    simpl. f_equal. by apply H.
  - rewrite !lookup_ge_None_2 by lia. done.
Qed.

Lemma infer_invariant_length ts ps k res :
  infer_invariant ts ps k res -> length res = length ts.
Proof. intros (Ht & _). rewrite <- Ht. by rewrite length_map. Qed.

Lemma infer_invariant_title ts ps k res i :
  infer_invariant ts ps k res -> (i < length ts)%nat ->
  it_title (res !!! i) = ts !!! i.
Proof.
  intros Hinv Hi. pose proof (infer_invariant_length _ _ _ _ Hinv) as Hl.
  destruct Hinv as (Ht & _). rewrite <- Ht.
  change (map it_title res) with (it_title <$> res).
  rewrite (list_lookup_total_fmap it_title) by lia. done.
Qed.

(** One turn of the outer loop keeps the invariant. *)
Lemma infer_invariant_step ts ps k res :
  infer_invariant ts ps k res -> (k < length ts)%nat ->
  infer_invariant ts ps (S k) (scan_parents res k (seq 0 k)).
Proof.
  intros Hinv Hk.
  pose proof (infer_invariant_length _ _ _ _ Hinv) as Hlen.
  pose proof (fun i => infer_invariant_title ts ps k res i Hinv) as Htitle.
  destruct Hinv as (Ht & Hp & Hdone & Htodo).
  destruct (scan_parents_seq res k k 0) as (Hl & Ho & Hti & Hpa & Hcase);
    [lia | lia |].
  set (res' := scan_parents res k (seq 0 k)) in *.
  assert (Hsame : forall i, i <> k -> res' !!! i = res !!! i) by done.
  split; [| split; [| split]].
  - rewrite <- Ht. apply map_agree_lookup_total; [done |].
    intros i Hi. destruct (decide (i = k)) as [-> | Hne]; [done |].
    by rewrite Hsame.
  - rewrite <- Hp. apply map_agree_lookup_total; [done |].
    intros i Hi. destruct (decide (i = k)) as [-> | Hne]; [done |].
    by rewrite Hsame.
  - intros i Hi Hin. destruct (decide (i = k)) as [-> | Hne].
    + rewrite !Htitle in Hcase by lia.
      destruct Hcase as [(j & Hj & Hjc & Hfirst & Hlev) | [Hnone Heq]].
      * rewrite Htitle in Hjc by lia. split.
        -- intros j0 Hj0 Hc0 Hf0.
           assert (j0 = j) as ->.
           { destruct (Nat.lt_trichotomy j0 j) as [Hlt | [-> | Hgt]]; [| done |].
             - specialize (Hfirst j0). rewrite Htitle in Hfirst by lia.
               rewrite Hfirst in Hc0 by lia. discriminate.
             - rewrite Hf0 in Hjc by lia. discriminate. }
           rewrite Hlev. rewrite (Hsame j) by lia. done.
        -- intros Hall. rewrite Hall in Hjc by lia. discriminate.
      * split.
        -- intros j0 Hj0 Hc0 _. specialize (Hnone j0).
           rewrite Htitle in Hnone by lia. rewrite Hnone in Hc0 by lia.
           discriminate.
        -- intros _. rewrite Heq. apply Htodo. lia.
    + destruct (Hdone i) as [H1 H2]; [lia | done |].
      split.
      * intros j Hj Hc Hf. rewrite !Hsame by lia. by apply H1.
      * intros Hall. rewrite Hsame by lia. by apply H2.
  - intros i Hi. rewrite Hsame by lia. apply Htodo. lia.
Qed.

Lemma infer_invariant_fold ts ps m : forall k res,
  infer_invariant ts ps k res -> (k + m <= length ts)%nat ->
  infer_invariant ts ps (k + m)
    (fold_left (fun res i => scan_parents res i (seq 0 i)) (seq k m) res).
Proof.
  induction m as [| m IH]; intros k res Hinv Hk; simpl.
  - by rewrite Nat.add_0_r.
  - replace (k + S m)%nat with (S k + m)%nat by lia.
    apply IH; [| lia]. apply infer_invariant_step; [done | lia].
Qed.

Lemma infer_invariant_init bs :
  infer_invariant (map title bs) (map page bs) 1 (copy_bookmarks [] bs).
Proof.
  split; [| split; [| split]].
  - by rewrite copy_bookmarks_titles.
  - by rewrite copy_bookmarks_pages.
  - intros i Hi _. assert (i = 0%nat) as -> by lia. split.
    + intros j Hj. lia.
    + intros _.
      pose proof (copy_bookmarks_levels bs [] (Forall_nil_2 _)) as Hz.
      rewrite list_lookup_total_alt.
      destruct (copy_bookmarks [] bs !! 0%nat) as [x |] eqn:Hx; simpl; [| done].
      by eapply (Forall_lookup_1 _ _ _ _ Hz).
  - intros i _.
    pose proof (copy_bookmarks_levels bs [] (Forall_nil_2 _)) as Hz.
    rewrite list_lookup_total_alt.
    destruct (copy_bookmarks [] bs !! i) as [x |] eqn:Hx; simpl; [| done].
    by eapply (Forall_lookup_1 _ _ _ _ Hz).
Qed.

Lemma infer_levels_invariant bs :
  bs <> [] ->
  infer_invariant (map title bs) (map page bs) (length bs)
    (infer_levels (copy_bookmarks [] bs)).
Proof.
  intros Hne. unfold infer_levels.
  pose proof (infer_invariant_init bs) as Hinit.
  pose proof (infer_invariant_length _ _ _ _ Hinit) as Hl.
  rewrite length_map in Hl. rewrite Hl.
  assert (0 < length bs)%nat by (destruct bs; simpl; [done | lia]).
  pose proof (infer_invariant_fold _ _ (length bs - 1) 1 _ Hinit) as Hfold.
  replace (1 + (length bs - 1))%nat with (length bs) in Hfold by lia.
  apply Hfold. rewrite length_map. lia.
Qed.
Lemma infer_bookmark_level_titles bs :
  map title (infer_bookmark_level bs) = map title bs.
Proof.
  destruct bs as [| b bs]; [done |].
  unfold infer_bookmark_level.
  destruct (infer_levels_invariant (b :: bs)) as (Ht & _); [done |].
  rewrite map_map. exact Ht.
Qed.

Lemma infer_bookmark_level_pages bs :
  map page (infer_bookmark_level bs) = map page bs.
Proof.
  destruct bs as [| b bs]; [done |].
  unfold infer_bookmark_level.
  destruct (infer_levels_invariant (b :: bs)) as (_ & Hp & _); [done |].
  rewrite map_map. exact Hp.
Qed.

Lemma infer_bookmark_level_length bs :
  length (infer_bookmark_level bs) = length bs.
Proof.
  rewrite <- (length_map title), infer_bookmark_level_titles.
  by rewrite length_map.
Qed.

(** C7.  In the result of the inference, taken in document order, the
    entry at [i] has the title it had; its level is one more than the level
    (in the result) of the first earlier entry [j < i] whose title is a
    parent of its title -- no later candidate is looked at -- and it is 0
    when no earlier entry is a parent. *)
Theorem infer_levels_first_parent :
  forall (bs : list bookmark) (i : nat),
    (i < length bs)%nat ->
    let out := infer_bookmark_level bs in
    length out = length bs
    /\ title (out !!! i) = title (bs !!! i)
    /\ (forall j, (j < i)%nat ->
          is_child_bookmark (title (bs !!! i)) (title (bs !!! j)) = true ->
          (forall k, (k < j)%nat ->
             is_child_bookmark (title (bs !!! i)) (title (bs !!! k)) = false) ->
          level (out !!! i) = level (out !!! j) + 1)
    /\ ((forall j, (j < i)%nat ->
           is_child_bookmark (title (bs !!! i)) (title (bs !!! j)) = false) ->
        level (out !!! i) = 0).
Proof.
  intros bs i Hi out.
  assert (Hne : bs <> []) by (destruct bs; simpl in *; [lia | done]).
  pose proof (infer_levels_invariant bs Hne) as Hinv.
  pose proof (infer_invariant_length _ _ _ _ Hinv) as Hlen.
  rewrite length_map in Hlen.
  set (res := infer_levels (copy_bookmarks [] bs)) in *.
  assert (Hout : out = strip_item <$> res).
  { subst out. unfold infer_bookmark_level. destruct bs; [done | reflexivity]. }
  assert (Hlvl : forall n, (n < length bs)%nat ->
                           level (out !!! n) = it_level (res !!! n)).
  { intros n Hn. rewrite Hout.
    rewrite (list_lookup_total_fmap strip_item) by lia. done. }
  assert (Hts : forall n, (n < length bs)%nat ->
                          map title bs !!! n = title (bs !!! n)).
  { intros n Hn. change (map title bs) with (title <$> bs).
    by rewrite (list_lookup_total_fmap title). }
  destruct Hinv as (Ht & Hp & Hdone & _).
  destruct (Hdone i) as [H1 H2]; [lia | by rewrite length_map |].
  split; [apply infer_bookmark_level_length |]. split.
  { rewrite <- Hts by done. rewrite <- infer_bookmark_level_titles.
    change (map title (infer_bookmark_level bs)) with (title <$> out).
    rewrite (list_lookup_total_fmap title); [done |].
    subst out. rewrite infer_bookmark_level_length. done. }
  split.
  - intros j Hj Hc Hfirst. rewrite !Hlvl by lia. apply H1; [done | |].
    + rewrite !Hts by lia. done.
    + intros k Hk. rewrite !Hts by lia. by apply Hfirst.
  - intros Hall. rewrite Hlvl by lia. apply H2.
    intros j Hj. rewrite !Hts by lia. by apply Hall.
Qed.

Lemma infer_levels_first_parent_witness :
  let bs := [mkBookmark "1 Intro" (PyInt 1) 0; mkBookmark "1.1 Scope" (PyInt 2) 0;
             mkBookmark "1.1.1 Detail" (PyInt 3) 0] in
  level (infer_bookmark_level bs !!! 2%nat)
  = level (infer_bookmark_level bs !!! 0%nat) + 1.
Proof.
  intros bs.
  apply (infer_levels_first_parent bs 2 ltac:(simpl; lia)).
  - lia.
  - reflexivity.
  - intros k Hk. lia.
Defined.

(** C8.  [extract_bookmarks] runs the inference exactly when every
    flattened bookmark has level 0 and there is more than one of them; with
    a bookmark of level above 0 the flattened sequence is kept as it is.
    The inference itself, on any input, gives back the same titles and
    pages in the same order: only the level field differs. *)
Theorem infer_only_when_flat :
  forall bs : list bookmark,
    infer_if_flat bs
    = (if decide (Forall (fun b => level b = 0) bs /\ (1 < length bs)%nat)
       then infer_bookmark_level bs else bs)
    /\ (Exists (fun b => 0 < level b) bs -> infer_if_flat bs = bs)
    /\ length (infer_bookmark_level bs) = length bs
    /\ map title (infer_bookmark_level bs) = map title bs
    /\ map page (infer_bookmark_level bs) = map page bs.
Proof.
  intros bs.
  assert (Hguard : infer_if_flat bs
    = (if decide (Forall (fun b => level b = 0) bs /\ (1 < length bs)%nat)
       then infer_bookmark_level bs else bs)).
  { unfold infer_if_flat.
    destruct (all_level_zero bs) eqn:Hz; simpl.
    - apply all_level_zero_Forall in Hz.
      destruct (1 <? length bs)%nat eqn:Hl.
      + apply Nat.ltb_lt in Hl. by rewrite decide_True.
      + apply Nat.ltb_ge in Hl. rewrite decide_False; [done | lia].
    - rewrite decide_False; [done |]. intros [Hz' _].
      apply all_level_zero_Forall in Hz'. congruence. }
  split; [done |]. split.
  - intros Hex. rewrite Hguard. rewrite decide_False; [done |].
    intros [Hz _]. apply Exists_exists in Hex as (b & Hb & Hpos).
    rewrite Forall_forall in Hz. specialize (Hz b Hb). lia.
  - split; [apply infer_bookmark_level_length |].
    split; [apply infer_bookmark_level_titles | apply infer_bookmark_level_pages].
Qed.

Lemma infer_only_when_flat_witness :
  let bs := [mkBookmark "1 Intro" (PyInt 1) 0; mkBookmark "1.1 Scope" (PyInt 2) 1] in
  infer_if_flat bs = bs.
Proof.
  intros bs.
  apply (proj1 (proj2 (infer_only_when_flat bs))).
  apply Exists_cons_tl, Exists_cons_hd. simpl. lia.
Defined.

(** ** The stable sort by page *)

Lemma insert_by_page_perm x l : insert_by_page x l ≡ₚ x :: l.
Proof.
  induction l as [| y l IH]; simpl; [done |].
  destruct (page_number x <=? page_number y); [done |].
  rewrite IH. apply Permutation_swap.
Qed.

Lemma sort_by_page_perm l : sort_by_page l ≡ₚ l.
Proof.
  induction l as [| x l IH]; simpl; [done |].
  rewrite insert_by_page_perm. by rewrite IH.
Qed.

Lemma insert_by_page_sorted x l :
  StronglySorted (fun a b => page_number a <= page_number b) l ->
  StronglySorted (fun a b => page_number a <= page_number b) (insert_by_page x l).
Proof.
  induction 1 as [| y l Hs IH Hy]; simpl.
  - repeat constructor.
  - destruct (page_number x <=? page_number y) eqn:Hc.
    + apply Z.leb_le in Hc. constructor; [by constructor |].
      constructor; [done |].
      eapply Forall_impl; [exact Hy |]. simpl. intros; lia.
    + apply Z.leb_gt in Hc. constructor; [done |].
      rewrite insert_by_page_perm. constructor; [lia | done].
Qed.

Lemma sort_by_page_strongly_sorted l :
  StronglySorted (fun a b => page_number a <= page_number b) (sort_by_page l).
Proof.
  induction l as [| x l IH]; simpl; [constructor |].
  by apply insert_by_page_sorted.
Qed.

Lemma strongly_sorted_lookup l :
  StronglySorted (fun a b => page_number a <= page_number b) l ->
  sorted_by_page l.
Proof.
  induction 1 as [| y l Hs IH Hy]; intros i j b b' Hij Hi Hj.
  - by rewrite lookup_nil in Hi.
  - destruct j as [| j]; [lia |]. simpl in Hj.
    destruct i as [| i]; simpl in Hi.
    + injection Hi as <-. rewrite Forall_forall in Hy. apply Hy.
      by eapply list_elem_of_lookup_2.
    + eapply IH; [| done | done]. lia.
Qed.

Lemma sort_by_page_sorted l : sorted_by_page (sort_by_page l).
Proof. apply strongly_sorted_lookup, sort_by_page_strongly_sorted. Qed.


(** ** The loop that builds the ranges *)

Lemma build_ranges_spec lb total rest : forall i acc,
  rest = drop i lb ->
  build_ranges lb total i rest acc
  = (fst acc ++ List.filter range_ok
                  (map (candidate lb total) (seq i (length rest))),
     snd acc ++ map range_warning
                  (List.filter (fun r => negb (range_ok r))
                     (map (candidate lb total) (seq i (length rest))))).
Proof.
  induction rest as [| b rest IH]; intros i [ranges log] Hrest; simpl.
  - by rewrite !app_nil_r.
  - assert (Hi : lb !! i = Some b).
    { rewrite <- (Nat.add_0_r i), <- lookup_drop, <- Hrest. done. }
    assert (Hlen : (i < length lb)%nat) by (by eapply lookup_lt_Some).
    assert (Hb : lb !!! i = b) by (by apply list_lookup_total_correct).
    assert (Hrest' : rest = drop (S i) lb).
    { replace (S i) with (i + 1)%nat by lia.
      rewrite <- drop_drop, <- Hrest. done. }
    assert (Hcond : (i <? length lb - 1)%nat = (i + 1 <? length lb)%nat).
    { destruct (i + 1 <? length lb)%nat eqn:Hc.
      - apply Nat.ltb_lt in Hc. apply Nat.ltb_lt. lia.
      - apply Nat.ltb_ge in Hc. apply Nat.ltb_ge. lia. }
    rewrite Hcond.
    assert (Hcand :
      candidate lb total i
      = mkRange (title b) (page_number b - 1)
          (if (i + 1 <? length lb)%nat
           then page_number (lb !!! (i + 1)%nat) - 2 else total - 1)).
    { unfold candidate. by rewrite Hb. }
    rewrite Hcand. unfold range_ok at 1 3. simpl.
    change (range_ok (mkRange (title b) (page_number b - 1)
               (if (i + 1 <? length lb)%nat
                then page_number (lb !!! (i + 1)%nat) - 2 else total - 1)))
      with (page_number b - 1 <=?
               (if (i + 1 <? length lb)%nat
                then page_number (lb !!! (i + 1)%nat) - 2 else total - 1)).
    set (e := if (i + 1 <? length lb)%nat
              then page_number (lb !!! (i + 1)%nat) - 2 else total - 1).
    rewrite Z.geb_leb.
    destruct (page_number b - 1 <=? e) eqn:Hok; simpl.
    + rewrite (IH (S i) _ Hrest'). simpl. by rewrite <- app_assoc.
    + rewrite (IH (S i) _ Hrest'). simpl. by rewrite <- app_assoc.
Qed.

(** The ranges and the warnings of the planner's loop over the sorted
    entries. *)
Lemma build_ranges_all lb total log :
  build_ranges lb total 0 lb ([], log)
  = (List.filter range_ok (map (candidate lb total) (seq 0 (length lb))),
     log ++ map range_warning
              (List.filter (fun r => negb (range_ok r))
                 (map (candidate lb total) (seq 0 (length lb))))).
Proof. by rewrite (build_ranges_spec lb total lb 0 ([], log)). Qed.

(** ** The loop that converts the pages *)

Lemma convert_idempotent rd p :
  convert_to_page_number (converted_page rd p) rd = convert_to_page_number p rd.
Proof.
  unfold converted_page.
  destruct (convert_to_page_number p rd) as [n |] eqn:H; simpl; [| done].
  by destruct rd.
Qed.

Lemma convert_step_store rd st log a :
  fst (convert_step rd (st, log) a)
  = <[a := set_page (converted_page rd (page (st !!! a))) (st !!! a)]> st.
Proof.
  unfold convert_step, converted_page.
  destruct (page (st !!! a)) eqn:Hp; simpl; try done.
Qed.

Lemma convert_pages_fold rd lb : forall st log,
  let st1 := fst (fold_left (convert_step rd) lb (st, log)) in
  length st1 = length st
  /\ forall a,
       st1 !!! a
       = if decide (a ∈ lb)
         then set_page (converted_page rd (page (st !!! a))) (st !!! a)
         else st !!! a.
Proof.
  induction lb as [| a0 lb IH]; intros st log; cbn [fold_left].
  - split; [done |]. intros a. case_decide as H; [by apply elem_of_nil in H | done].
  - destruct (convert_step rd (st, log) a0) as [st' log'] eqn:Hstep.
    assert (Hst' : st' = <[a0 := set_page (converted_page rd (page (st !!! a0))) (st !!! a0)]> st).
    { rewrite <- convert_step_store with (log := log). by rewrite Hstep. }
    destruct (IH st' log') as [Hlen Hall]. split.
    { rewrite Hlen, Hst'. apply length_insert. }
    intros a. rewrite Hall.
    assert (Hread : st' !!! a
                    = if decide (a = a0)
                      then set_page (converted_page rd (page (st !!! a))) (st !!! a)
                      else st !!! a).
    { rewrite Hst'. destruct (decide (a = a0)) as [-> | Hne].
      - destruct (decide (a0 < length st)%nat) as [Hin | Hout].
        + by rewrite list_lookup_total_insert_eq.
        + rewrite list_insert_ge by lia.
          rewrite list_lookup_total_alt, lookup_ge_None_2 by lia. simpl.
          unfold converted_page. by destruct rd.
      - by rewrite list_lookup_total_insert_ne. }
    destruct (decide (a ∈ lb)) as [Hin | Hnin].
    + rewrite decide_True by (by right). rewrite Hread.
      destruct (decide (a = a0)) as [-> | Hne]; [| done].
      simpl. unfold set_page at 1. simpl. unfold set_page. simpl.
      f_equal. unfold converted_page at 1. by rewrite convert_idempotent.
    + rewrite Hread. destruct (decide (a = a0)) as [-> | Hne].
      * rewrite decide_True by (by left). done.
      * rewrite decide_False; [done |]. by intros [? | ?]%elem_of_cons.
Qed.
(** ** Tilings *)

Lemma tiles_bounds rs : forall lo hi,
  tiles lo hi rs ->
  lo <= hi + 1
  /\ forall r, r ∈ rs ->
       lo <= range_start r /\ range_start r <= range_end r /\ range_end r <= hi.
Proof.
  induction rs as [| r0 rs IH]; intros lo hi H; simpl in H.
  - split; [lia |]. intros r Hr. by apply elem_of_nil in Hr.
  - destruct H as (Hs & Hle & Ht). destruct (IH _ _ Ht) as [Hb Hall].
    split; [lia |]. intros r [-> | Hr]%elem_of_cons; [lia |].
    specialize (Hall r Hr). lia.
Qed.

Lemma tiles_covers rs : forall lo hi,
  tiles lo hi rs ->
  forall p, lo <= p <= hi <-> exists r, r ∈ rs /\ covers r p.
Proof.
  induction rs as [| r0 rs IH]; intros lo hi H p; simpl in H.
  - split; [lia |]. intros (r & Hr & _). by apply elem_of_nil in Hr.
  - destruct H as (Hs & Hle & Ht).
    pose proof (tiles_bounds _ _ _ Ht) as [Hb _].
    specialize (IH _ _ Ht p). split.
    + intros Hp. destruct (decide (p <= range_end r0)) as [Hin | Hout].
      * exists r0. split; [by left |]. unfold covers. lia.
      * destruct (proj1 IH) as (r & Hr & Hc); [lia |].
        exists r. split; [by right | done].
    + intros (r & [-> | Hr]%elem_of_cons & Hc).
      * unfold covers in Hc. lia.
      * destruct (proj2 IH) as [? ?]; [by exists r |]. lia.
Qed.

Lemma tiles_ordered rs : forall lo hi,
  tiles lo hi rs ->
  forall i j r r', (i < j)%nat -> rs !! i = Some r -> rs !! j = Some r' ->
    range_end r < range_start r'.
Proof.
  induction rs as [| r0 rs IH]; intros lo hi H i j r r' Hij Hi Hj; simpl in H.
  - by rewrite lookup_nil in Hi.
  - destruct H as (Hs & Hle & Ht).
    destruct j as [| j]; [lia |]. simpl in Hj.
    destruct i as [| i]; simpl in Hi.
    + injection Hi as <-.
      destruct (tiles_bounds _ _ _ Ht) as [_ Hall].
      destruct (Hall r') as [? _]; [by eapply list_elem_of_lookup_2 | lia].
    + eapply IH; [done | | done | done]. lia.
Qed.

Lemma tiles_full_coverage rs total :
  tiles 0 (total - 1) rs -> full_coverage rs total.
Proof.
  intros H. pose proof (tiles_ordered _ _ _ H) as Hord.
  destruct (tiles_bounds _ _ _ H) as [_ Hb].
  assert (Hin : forall i r, rs !! i = Some r -> range_start r <= range_end r).
  { intros i r Hr. destruct (Hb r) as (_ & ? & _); [| done].
    by eapply list_elem_of_lookup_2. }
  split; [| split; [| split]].
  - intros i j r r' Hij Hi Hj.
    specialize (Hord i j r r' Hij Hi Hj). specialize (Hin i r Hi). lia.
  - intros i j r r' Hne Hi Hj p [Hc Hc']. unfold covers in *.
    destruct (Nat.lt_trichotomy i j) as [Hlt | [-> | Hgt]]; [| done |].
    + specialize (Hord i j r r' Hlt Hi Hj). lia.
    + specialize (Hord j i r' r Hgt Hj Hi). lia.
  - intros r Hr. destruct (Hb r Hr) as (? & _ & ?). lia.
  - intros p. by apply (tiles_covers _ _ _ H).
Qed.

Lemma tiles_last rs : forall lo hi d,
  tiles lo hi rs -> rs <> [] -> range_end (List.last rs d) = hi.
Proof.
  induction rs as [| r0 rs IH]; intros lo hi d H Hne; [done |].
  simpl in H. destruct H as (Hs & Hle & Ht).
  destruct rs as [| r1 rs]; [simpl in *; lia |].
  change (List.last (r0 :: r1 :: rs) d) with (List.last (r1 :: rs) d).
  eapply IH; [exact Ht | done].
Qed.

(** ** Ranges of sorted pages inside the document *)

Lemma candidate_last lb total i :
  (i + 1 = length lb)%nat ->
  candidate lb total i
  = mkRange (title (lb !!! i)) (page_number (lb !!! i) - 1) (total - 1).
Proof.
  intros H. unfold candidate.
  assert ((i + 1 <? length lb)%nat = false) as -> by (apply Nat.ltb_ge; lia).
  done.
Qed.

Lemma candidate_inner lb total i :
  (i + 1 < length lb)%nat ->
  candidate lb total i
  = mkRange (title (lb !!! i)) (page_number (lb !!! i) - 1)
            (page_number (lb !!! S i) - 2).
Proof.
  intros H. unfold candidate.
  assert ((i + 1 <? length lb)%nat = true) as -> by (apply Nat.ltb_lt; lia).
  by replace (i + 1)%nat with (S i) by lia.
Qed.

Lemma candidates_tile lb total :
  sorted_by_page lb ->
  (forall b, b ∈ lb -> page_number b <= total) ->
  forall m i, (i + m = length lb)%nat -> (0 < m)%nat ->
    tiles (page_number (lb !!! i) - 1) (total - 1)
          (List.filter range_ok (map (candidate lb total) (seq i m))).
Proof.
  intros Hsorted Hmax. induction m as [| m IH]; intros i Him Hm; [lia |].
  assert (Hi : lb !! i = Some (lb !!! i))
    by (apply list_lookup_lookup_total_lt; lia).
  cbn [seq map List.filter].
  destruct m as [| m].
  - rewrite candidate_last by lia. unfold range_ok.
    cbn [seq map List.filter range_start range_end].
    assert (page_number (lb !!! i) <= total).
    { apply Hmax. by eapply list_elem_of_lookup_2. }
    assert ((page_number (lb !!! i) - 1 <=? total - 1) = true) as ->
      by (apply Z.leb_le; lia).
    cbn [tiles range_start range_end]. repeat split; lia.
  - assert (Hi' : lb !! (S i) = Some (lb !!! (S i)))
      by (apply list_lookup_lookup_total_lt; lia).
    pose proof (Hsorted i (S i) _ _ ltac:(lia) Hi Hi') as Hle.
    specialize (IH (S i) ltac:(lia) ltac:(lia)).
    rewrite candidate_inner by lia. unfold range_ok at 1.
    cbn [range_start range_end].
    destruct (page_number (lb !!! i) - 1 <=? page_number (lb !!! S i) - 2) eqn:Hok.
    + apply Z.leb_le in Hok. cbn [tiles range_start range_end].
      split; [done |]. split; [lia |].
      replace (page_number (lb !!! S i) - 2 + 1)
        with (page_number (lb !!! S i) - 1) by lia.
      exact IH.
    + apply Z.leb_gt in Hok.
      replace (page_number (lb !!! i)) with (page_number (lb !!! S i)) by lia.
      exact IH.
Qed.

Lemma complete_ranges_tiles rs lo total :
  0 <= lo -> tiles lo (total - 1) rs -> rs <> [] ->
  tiles 0 (total - 1) (complete_ranges rs total).
Proof.
  intros Hlo Ht Hne. destruct rs as [| r0 rs]; [done |].
  unfold complete_ranges.
  rewrite (tiles_last _ _ _ r0 Ht Hne).
  assert ((total - 1 <? total - 1) = false) as -> by (apply Z.ltb_ge; lia).
  pose proof Ht as Ht'. simpl in Ht'. destruct Ht' as (Hs & Hle & _).
  destruct (range_start r0 >? 0) eqn:Hfront; [| ].
  - cbn [tiles range_start range_end]. split; [done |]. split; [lia |].
    replace (range_start r0 - 1 + 1) with lo by lia. exact Ht.
  - assert (lo = 0) as <- by lia. exact Ht.
Qed.

Lemma whole_document_tiles total :
  1 <= total -> tiles 0 (total - 1) (complete_ranges [] total).
Proof. intros H. simpl. repeat split; lia. Qed.
(** ** The planner as a whole *)

Lemma select_level_elem st bookmarks lvl a :
  a ∈ select_level st bookmarks lvl <-> a ∈ bookmarks /\ level (st !!! a) = lvl.
Proof.
  unfold select_level. rewrite !list_elem_of_In, filter_In, Z.eqb_eq. done.
Qed.

(** The store after the conversion loop. *)
Lemma convert_pages_store rd st bookmarks lvl :
  let st1 := fst (convert_pages rd (select_level st bookmarks lvl) st) in
  length st1 = length st
  /\ forall a,
       st1 !!! a
       = if decide (a ∈ bookmarks /\ level (st !!! a) = lvl)
         then set_page (converted_page rd (page (st !!! a))) (st !!! a)
         else st !!! a.
Proof.
  unfold convert_pages.
  destruct (convert_pages_fold rd (select_level st bookmarks lvl) st [])
    as [Hlen Hall].
  split; [done |]. intros a. rewrite Hall.
  destruct (decide (a ∈ select_level st bookmarks lvl)) as [Hin | Hnin].
  - rewrite decide_True; [done |]. by apply select_level_elem.
  - rewrite decide_False; [done |]. by rewrite <- select_level_elem.
Qed.

(** Where a surviving entry comes from. *)
Lemma surviving_origin st bookmarks lvl rd b :
  b ∈ surviving st bookmarks lvl rd ->
  exists a n,
    a ∈ bookmarks /\ level (st !!! a) = lvl
    /\ convert_to_page_number (page (st !!! a)) rd = Some n
    /\ 0 < n
    /\ b = mkBookmark (title (st !!! a)) (PyInt n) lvl.
Proof.
  unfold surviving, valid_bookmarks.
  rewrite list_elem_of_In, filter_In, in_map_iff.
  intros [(a & <- & Ha) Hvalid].
  apply list_elem_of_In, select_level_elem in Ha as Ha'.
  destruct Ha' as [Hin Hlvl].
  destruct (convert_pages_store rd st bookmarks lvl) as [_ Hread].
  rewrite Hread in Hvalid |- *. rewrite decide_True in Hvalid |- * by done.
  unfold has_valid_page, set_page, converted_page in Hvalid. simpl in Hvalid.
  destruct (convert_to_page_number (page (st !!! a)) rd) as [n |] eqn:Hc;
    simpl in Hvalid; [| done].
  exists a, n. apply Z.ltb_lt in Hvalid.
  repeat split; try done.
  unfold set_page, converted_page. rewrite Hc. simpl. by rewrite Hlvl.
Qed.

(** The planner, phase by phase. *)
Lemma get_page_ranges_phases st bookmarks total lvl rd :
  let level_bookmarks := select_level st bookmarks lvl in
  let converted := convert_pages rd level_bookmarks st in
  let sorted := sort_by_page (surviving st bookmarks lvl rd) in
  let candidates := map (candidate sorted total) (seq 0 (length sorted)) in
  get_page_ranges st bookmarks total lvl rd
  = match level_bookmarks, surviving st bookmarks lvl rd with
    | [], _ => mkPlanned st [NoBookmarkAtLevel lvl] []
    | _ :: _, [] => mkPlanned (fst converted) (snd converted ++ [NoValidPage]) []
    | _ :: _, _ :: _ =>
        mkPlanned (fst converted)
          (snd converted
           ++ map range_warning
                (List.filter (fun r => negb (range_ok r)) candidates))
          (complete_ranges (List.filter range_ok candidates) total)
    end.
Proof.
  intros level_bookmarks converted sorted candidates.
  unfold get_page_ranges.
  subst candidates sorted converted. unfold surviving.
  fold level_bookmarks.
  destruct level_bookmarks as [| a lb]; [done |].
  destruct (convert_pages rd (a :: lb) st) as [st1 log1]. simpl fst. simpl snd.
  destruct (valid_bookmarks st1 (a :: lb)) as [| b valid]; [done |].
  by rewrite build_ranges_all.
Qed.

Lemma surviving_select_nonempty st bookmarks lvl rd :
  surviving st bookmarks lvl rd <> [] -> select_level st bookmarks lvl <> [].
Proof.
  unfold surviving. intros H Hnil. rewrite Hnil in H. by apply H.
Qed.


(** C3 (as the code computes it).  For the bookmarks "A" on page 5 and "B"
    on page 12, both of level 0, in a document of 20 pages, the plan at
    level 0 is the front range 0..3, then "A" 4..10, then "B" 11..19. *)
Theorem plan_two_chapters :
  pl_ranges
    (get_page_ranges
       [mkBookmark "A" (PyInt 5) 0; mkBookmark "B" (PyInt 12) 0]
       [0; 1]%nat 20 0 None)
  = [mkRange "前言部分" 0 3; mkRange "A" 4 10; mkRange "B" 11 19].
Proof. reflexivity. Qed.

(** C3 as stated fails: the plan is not the three ranges 0..4, 4..11,
    11..19, whatever title the front range is given. *)
Lemma plan_two_chapters_not_as_stated :
  ~ exists front_title,
      pl_ranges
        (get_page_ranges
           [mkBookmark "A" (PyInt 5) 0; mkBookmark "B" (PyInt 12) 0]
           [0; 1]%nat 20 0 None)
      = [mkRange front_title 0 4; mkRange "A" 4 11; mkRange "B" 11 19].
Proof. intros [t H]. vm_compute in H. discriminate. Qed.
(** C1 (as the code ensures it).  For a document of at least one page, if
    every bookmark of the target level whose page converts to an integer
    has that integer at most [total_pages], then a non-empty plan is sorted
    by start, pairwise non-overlapping, inside [0 .. total_pages - 1], and
    its intervals cover exactly the pages [0 .. total_pages - 1]. *)
Theorem plan_covers_document :
  forall (st : store) (bookmarks : list nat) (total_pages split_level : Z)
         (pdf_reader : option PdfReader),
    1 <= total_pages ->
    (forall a n,
        a ∈ bookmarks -> level (st !!! a) = split_level ->
        convert_to_page_number (page (st !!! a)) pdf_reader = Some n ->
        n <= total_pages) ->
    pl_ranges (get_page_ranges st bookmarks total_pages split_level pdf_reader)
      <> [] ->
    full_coverage
      (pl_ranges (get_page_ranges st bookmarks total_pages split_level pdf_reader))
      total_pages.
Proof.
  intros st bookmarks total lvl rd Htotal Hmax Hne.
  apply tiles_full_coverage.
  rewrite get_page_ranges_phases in Hne |- *.
  destruct (select_level st bookmarks lvl) as [| a0 lb]; [done |].
  destruct (surviving st bookmarks lvl rd) as [| b0 v] eqn:Hv; [done |].
  cbn [pl_ranges] in *. clear Hne.
  set (sorted := sort_by_page (b0 :: v)).
  assert (Hperm : sorted ≡ₚ b0 :: v) by apply sort_by_page_perm.
  assert (Hpages : forall b, b ∈ sorted -> 1 <= page_number b <= total).
  { intros b Hb. rewrite Hperm, <- Hv in Hb.
    apply surviving_origin in Hb as (a & n & Ha & Hl & Hc & Hpos & ->).
    unfold page_number. simpl. specialize (Hmax a n Ha Hl Hc). lia. }
  assert (Hlen : (0 < length sorted)%nat).
  { rewrite Hperm. simpl. lia. }
  pose proof (candidates_tile sorted total (sort_by_page_sorted _)
                (fun b Hb => proj2 (Hpages b Hb))
                (length sorted) 0%nat eq_refl Hlen) as Htiles.
  assert (Hfirst : 1 <= page_number (sorted !!! 0%nat) <= total).
  { apply Hpages. eapply list_elem_of_lookup_2.
    by apply list_lookup_lookup_total_lt. }
  eapply complete_ranges_tiles; [| exact Htiles |]; [lia |].
  intros Hnil. rewrite Hnil in Htiles. simpl in Htiles. lia.
Qed.

Lemma plan_covers_document_witness :
  full_coverage
    (pl_ranges
       (get_page_ranges
          [mkBookmark "A" (PyInt 5) 0; mkBookmark "B" (PyInt 12) 0;
           mkBookmark "B.1" (PyStr "p. 14") 1]
          [0; 1; 2]%nat 20 0 None))
    20.
Proof.
  apply plan_covers_document.
  - lia.
  - intros a n Ha Hl Hc.
    repeat (apply elem_of_cons in Ha as [-> | Ha]);
      [| | | by apply elem_of_nil in Ha];
      vm_compute in Hl; vm_compute in Hc; try discriminate;
      injection Hc as <-; lia.
  - discriminate.
Defined.

(** C1 as stated fails: with a bookmark on page 5 and one on page 30 in a
    document of 20 pages, the plan is not empty and its second range ends
    on page 28, outside the document. *)
Lemma plan_overshoots_document :
  let ranges :=
    pl_ranges
      (get_page_ranges
         [mkBookmark "A" (PyInt 5) 0; mkBookmark "B" (PyInt 30) 0]
         [0; 1]%nat 20 0 None) in
  1 <= 20
  /\ ranges = [mkRange "前言部分" 0 3; mkRange "A" 4 28]
  /\ ranges <> []
  /\ ~ full_coverage ranges 20.
Proof.
  intros ranges. split; [lia |].
  assert (Hr : ranges = [mkRange "前言部分" 0 3; mkRange "A" 4 28]) by reflexivity.
  split; [done |]. split; [by rewrite Hr |].
  rewrite Hr. intros (_ & _ & Hwithin & _).
  destruct (Hwithin (mkRange "A" 4 28)) as [_ H].
  - right. left.
  - simpl in H. lia.
Qed.
(** ** What the planner and the inference do to the store *)

Lemma planner_store st bookmarks total lvl rd :
  pl_store (get_page_ranges st bookmarks total lvl rd)
  = match select_level st bookmarks lvl with
    | [] => st
    | _ :: _ => fst (convert_pages rd (select_level st bookmarks lvl) st)
    end.
Proof.
  rewrite get_page_ranges_phases.
  destruct (select_level st bookmarks lvl) as [| a lb]; [done |].
  destruct (surviving st bookmarks lvl rd); done.
Qed.

Lemma converted_page_fixed rd p :
  (p = PyNone \/ exists n, p = PyInt n) -> converted_page rd p = p.
Proof.
  intros [-> | [n ->]]; unfold converted_page; simpl; by destruct rd.
Qed.

Lemma store_eq_lookup_total (st st' : store) :
  length st' = length st -> (forall a, st' !!! a = st !!! a) -> st' = st.
Proof.
  intros Hlen H. apply list_eq. intros a.
  destruct (decide (a < length st)%nat) as [Hin | Hout].
  - rewrite (list_lookup_lookup_total_lt st a) by done.
    rewrite (list_lookup_lookup_total_lt st' a) by lia. by rewrite H.
  - rewrite !lookup_ge_None_2 by lia. done.
Qed.

(** C9 (as the code behaves).  The inference allocates the dicts of its
    result and writes to no dict that existed before.  The planner keeps
    the length of the store and, in every dict, the title and the level; it
    rewrites the page of the bookmarks of the target level, and of no other
    dict, to the converted page number ([None] when there is none).  When
    every bookmark of the target level already has an integer or [None] as
    its page, the store after planning is the store before. *)
Theorem planner_rewrites_only_pages :
  forall (st : store) (bookmarks : list nat) (total_pages split_level : Z)
         (pdf_reader : option PdfReader),
    let st' :=
      pl_store (get_page_ranges st bookmarks total_pages split_level pdf_reader) in
    length st' = length st
    /\ (forall a,
          title (st' !!! a) = title (st !!! a)
          /\ level (st' !!! a) = level (st !!! a)
          /\ page (st' !!! a)
             = if decide (a ∈ bookmarks /\ level (st !!! a) = split_level)
               then converted_page pdf_reader (page (st !!! a))
               else page (st !!! a))
    /\ ((forall a, a ∈ bookmarks -> level (st !!! a) = split_level ->
           page (st !!! a) = PyNone \/ exists n, page (st !!! a) = PyInt n) ->
        st' = st)
    /\ (forall a, (a < length st)%nat ->
          fst (infer_in_store st bookmarks) !! a = st !! a)
    /\ (forall a, a ∈ snd (infer_in_store st bookmarks) -> (length st <= a)%nat).
Proof.
  intros st bookmarks total lvl rd st'.
  assert (Hst' : length st' = length st
    /\ forall a,
         st' !!! a
         = if decide (a ∈ bookmarks /\ level (st !!! a) = lvl)
           then set_page (converted_page rd (page (st !!! a))) (st !!! a)
           else st !!! a).
  { subst st'. rewrite planner_store.
    destruct (select_level st bookmarks lvl) as [| a0 lb] eqn:Hsel.
    - split; [done |]. intros a. rewrite decide_False; [done |].
      rewrite <- select_level_elem, Hsel. apply not_elem_of_nil.
    - rewrite <- Hsel. apply convert_pages_store. }
  destruct Hst' as [Hlen Hread].
  split; [done |]. split.
  { intros a. rewrite Hread. case_decide; done. }
  split.
  { intros Hint. apply store_eq_lookup_total; [done |].
    intros a. rewrite Hread. case_decide as Hd; [| done].
    destruct Hd as [Hin Hl].
    rewrite converted_page_fixed by (by apply Hint).
    by destruct (st !!! a). }
  split.
  - intros a Ha. unfold infer_in_store. simpl. by rewrite lookup_app_l.
  - intros a Ha. unfold infer_in_store in Ha. simpl in Ha.
    apply elem_of_seq in Ha. lia.
Qed.

Lemma planner_rewrites_only_pages_witness :
  let st := [mkBookmark "A" (PyInt 5) 0; mkBookmark "B" PyNone 0;
             mkBookmark "A.1" (PyStr "7") 1] in
  pl_store (get_page_ranges st [0; 1; 2]%nat 20 0 None) = st.
Proof.
  intros st.
  apply (proj1 (proj2 (proj2 (planner_rewrites_only_pages st [0; 1; 2]%nat 20 0 None)))).
  intros a Ha Hl.
  repeat (apply elem_of_cons in Ha as [-> | Ha]);
    [| | | by apply elem_of_nil in Ha]; vm_compute in Hl; try discriminate.
  - right. by exists 5.
  - by left.
Defined.

(** C9 as stated fails: a bookmark whose page is the reference of the
    first page of the document has its page rewritten to 1 by the planner,
    in the dict that the caller holds. *)
Lemma planner_changes_bookmark :
  let ref := mkIndirect 7 0 0 in
  let reader := mkReader (Ok [Some ref]) (fun _ => Raise) in
  let st := [mkBookmark "A" (PyRef ref (Ok (PyDict SPAbsent "{'/Type': '/Page'}"))) 0] in
  pl_store (get_page_ranges st [0%nat] 1 0 (Some reader))
  = [mkBookmark "A" (PyInt 1) 0]
  /\ pl_store (get_page_ranges st [0%nat] 1 0 (Some reader)) <> st.
Proof. split; [reflexivity | discriminate]. Qed.

(** * Further properties of the code *)

(** ** The planner on any input *)

Lemma complete_ranges_nonempty rs total : complete_ranges rs total <> [].
Proof.
  unfold complete_ranges. destruct rs as [| r rs]; [done |].
  destruct (range_start r >? 0);
    destruct (range_end (List.last (r :: rs) r) <? total - 1); try done.
  all: by destruct rs.
Qed.

Lemma kept_ranges_plan st bookmarks total lvl rd :
  surviving st bookmarks lvl rd <> [] ->
  pl_ranges (get_page_ranges st bookmarks total lvl rd)
  = complete_ranges (kept_ranges st bookmarks total lvl rd) total.
Proof.
  intros Hne. pose proof (surviving_select_nonempty _ _ _ _ Hne) as Hsel.
  rewrite get_page_ranges_phases. unfold kept_ranges.
  destruct (select_level st bookmarks lvl); [done |].
  by destruct (surviving st bookmarks lvl rd).
Qed.

Lemma plan_empty st bookmarks total lvl rd :
  surviving st bookmarks lvl rd = [] ->
  pl_ranges (get_page_ranges st bookmarks total lvl rd) = [].
Proof.
  intros Hnil. rewrite get_page_ranges_phases.
  destruct (select_level st bookmarks lvl); [done |]. by rewrite Hnil.
Qed.

(** The ranges kept for sorted pages, whatever the size of the document:
    either none is kept, and then the page of the first entry lies beyond
    the document, or they tile an interval that starts at the first page
    and ends at or after the last page of the document. *)
Lemma candidates_tile_any lb total :
  sorted_by_page lb ->
  forall m i, (i + m = length lb)%nat -> (0 < m)%nat ->
    let kept := List.filter range_ok (map (candidate lb total) (seq i m)) in
    (kept = [] /\ total < page_number (lb !!! i))
    \/ (exists hi, total - 1 <= hi /\ tiles (page_number (lb !!! i) - 1) hi kept).
Proof.
  intros Hsorted. induction m as [| m IH]; intros i Him Hm; [lia |].
  assert (Hi : lb !! i = Some (lb !!! i))
    by (apply list_lookup_lookup_total_lt; lia).
  cbn [seq map List.filter]. cbv zeta.
  destruct m as [| m].
  - rewrite candidate_last by lia.
    cbn [seq map List.filter].
    destruct (range_ok _) eqn:Hok; unfold range_ok in Hok;
      cbn [range_start range_end] in Hok.
    + apply Z.leb_le in Hok. right. exists (total - 1). split; [lia |].
      cbn [tiles range_start range_end]. repeat split; lia.
    + apply Z.leb_gt in Hok. left. split; [done | lia].
  - assert (Hi' : lb !! (S i) = Some (lb !!! (S i)))
      by (apply list_lookup_lookup_total_lt; lia).
    pose proof (Hsorted i (S i) _ _ ltac:(lia) Hi Hi') as Hle.
    specialize (IH (S i) ltac:(lia) ltac:(lia)). cbv zeta in IH.
    rewrite candidate_inner by lia.
    destruct (range_ok _) eqn:Hok; unfold range_ok in Hok;
      cbn [range_start range_end] in Hok.
    + apply Z.leb_le in Hok. right.
      destruct IH as [[Hnil Hbeyond] | (hi & Hhi & Ht)].
      * rewrite Hnil. exists (page_number (lb !!! S i) - 2). split; [lia |].
        cbn [tiles range_start range_end]. repeat split; lia.
      * exists hi. split; [done |]. cbn [tiles range_start range_end].
        split; [done |]. split; [lia |].
        replace (page_number (lb !!! S i) - 2 + 1)
          with (page_number (lb !!! S i) - 1) by lia.
        exact Ht.
    + apply Z.leb_gt in Hok.
      replace (page_number (lb !!! i)) with (page_number (lb !!! S i)) by lia.
      exact IH.
Qed.

Lemma surviving_pages_positive st bookmarks lvl rd b :
  b ∈ sort_by_page (surviving st bookmarks lvl rd) -> 1 <= page_number b.
Proof.
  rewrite sort_by_page_perm. intros Hb.
  apply surviving_origin in Hb as (a & n & _ & _ & _ & Hpos & ->).
  unfold page_number. simpl. lia.
Qed.

(** The ranges kept by the planner: none, or a tiling that reaches the end
    of the document. *)
Lemma kept_ranges_tile st bookmarks total lvl rd :
  surviving st bookmarks lvl rd <> [] ->
  kept_ranges st bookmarks total lvl rd = []
  \/ exists lo hi,
       0 <= lo /\ total - 1 <= hi
       /\ tiles lo hi (kept_ranges st bookmarks total lvl rd).
Proof.
  intros Hne. unfold kept_ranges.
  set (sorted := sort_by_page (surviving st bookmarks lvl rd)).
  assert (Hlen : (0 < length sorted)%nat).
  { unfold sorted. rewrite sort_by_page_perm.
    destruct (surviving st bookmarks lvl rd); simpl; [done | lia]. }
  destruct (candidates_tile_any sorted total (sort_by_page_sorted _)
              (length sorted) 0%nat eq_refl Hlen)
    as [[Hnil _] | (hi & Hhi & Ht)]; [by left |].
  right. exists (page_number (sorted !!! 0%nat) - 1), hi.
  split; [| by split].
  assert (1 <= page_number (sorted !!! 0%nat)); [| lia].
  eapply surviving_pages_positive, list_elem_of_lookup_2.
  by apply list_lookup_lookup_total_lt.
Qed.

(** What completing a tiling that reaches the end of the document does:
    at most a front range is added. *)
Lemma complete_ranges_reaching rs lo hi total :
  0 <= lo -> total - 1 <= hi -> tiles lo hi rs -> rs <> [] ->
  complete_ranges rs total
  = (if 0 <? lo then [mkRange "前言部分" 0 (lo - 1)] else []) ++ rs
  /\ tiles 0 hi (complete_ranges rs total).
Proof.
  intros Hlo Hhi Ht Hne. destruct rs as [| r0 rs]; [done |].
  unfold complete_ranges.
  rewrite (tiles_last _ _ _ r0 Ht Hne).
  assert ((hi <? total - 1) = false) as -> by (apply Z.ltb_ge; lia).
  pose proof Ht as Ht'. simpl in Ht'. destruct Ht' as (Hs & Hle & _).
  rewrite Hs.
  destruct (0 <? lo) eqn:Hfront.
  - apply Z.ltb_lt in Hfront.
    assert ((lo >? 0) = true) as -> by (apply Z.gtb_lt; lia).
    split; [done |].
    cbn [tiles range_start range_end]. split; [done |]. split; [lia |].
    replace (lo - 1 + 1) with lo by lia. exact Ht.
  - apply Z.ltb_ge in Hfront. assert (lo = 0) as -> by lia.
    split; [done |]. exact Ht.
Qed.

Lemma tiles_contiguous rs : forall lo hi,
  tiles lo hi rs -> contiguous rs.
Proof.
  induction rs as [| r0 rs IH]; intros lo hi H i r r' Hi Hi'.
  - by rewrite lookup_nil in Hi.
  - simpl in H. destruct H as (Hs & Hle & Ht).
    destruct i as [| i]; simpl in Hi, Hi'.
    + injection Hi as <-. destruct rs as [| r1 rs]; [done |].
      simpl in Hi'. injection Hi' as <-. simpl in Ht. by destruct Ht.
    + by eapply (IH _ _ Ht i).
Qed.

Lemma surviving_intro st bookmarks lvl rd a n :
  a ∈ bookmarks -> level (st !!! a) = lvl ->
  convert_to_page_number (page (st !!! a)) rd = Some n -> 0 < n ->
  mkBookmark (title (st !!! a)) (PyInt n) lvl ∈ surviving st bookmarks lvl rd.
Proof.
  intros Ha Hl Hc Hpos. unfold surviving, valid_bookmarks.
  rewrite list_elem_of_In, filter_In, in_map_iff.
  destruct (convert_pages_store rd st bookmarks lvl) as [_ Hread].
  assert (Hval : fst (convert_pages rd (select_level st bookmarks lvl) st) !!! a
                 = mkBookmark (title (st !!! a)) (PyInt n) lvl).
  { rewrite Hread, decide_True by done.
    unfold set_page, converted_page. rewrite Hc. simpl. by rewrite Hl. }
  split.
  - exists a. split; [done |]. by apply list_elem_of_In, select_level_elem.
  - unfold has_valid_page. simpl. by apply Z.ltb_lt.
Qed.

(** X1.  The plan is empty exactly when no bookmark of the target level
    has a page that converts to a positive integer; in every other case
    some range is returned, if only the one for the whole document. *)
Theorem plan_empty_iff_no_valid_page :
  forall (st : store) (bookmarks : list nat) (total_pages split_level : Z)
         (pdf_reader : option PdfReader),
    pl_ranges (get_page_ranges st bookmarks total_pages split_level pdf_reader) = []
    <-> (forall a n,
           a ∈ bookmarks -> level (st !!! a) = split_level ->
           convert_to_page_number (page (st !!! a)) pdf_reader = Some n ->
           n <= 0).
Proof.
  intros st bookmarks total lvl rd. split.
  - intros Hnil a n Ha Hl Hc.
    destruct (decide (0 < n)) as [Hpos | ?]; [| lia].
    pose proof (surviving_intro _ _ _ _ _ _ Ha Hl Hc Hpos) as Hin.
    assert (Hne : surviving st bookmarks lvl rd <> []).
    { intros Hs. rewrite Hs in Hin. by apply elem_of_nil in Hin. }
    rewrite (kept_ranges_plan _ _ _ _ _ Hne) in Hnil.
    by apply complete_ranges_nonempty in Hnil.
  - intros Hall. apply plan_empty.
    destruct (surviving st bookmarks lvl rd) as [| b v] eqn:Hs; [done |].
    assert (Hb : b ∈ surviving st bookmarks lvl rd) by (rewrite Hs; left).
    apply surviving_origin in Hb as (a & n & Ha & Hl & Hc & Hpos & _).
    specialize (Hall a n Ha Hl Hc). lia.
Qed.

(** The plan as a tiling: from page 0 to the last page of the document or
    beyond. *)
Lemma plan_tiles st bookmarks total lvl rd :
  1 <= total ->
  pl_ranges (get_page_ranges st bookmarks total lvl rd) <> [] ->
  exists hi, total - 1 <= hi
             /\ tiles 0 hi (pl_ranges (get_page_ranges st bookmarks total lvl rd)).
Proof.
  intros Htotal Hne.
  assert (Hs : surviving st bookmarks lvl rd <> []).
  { intros Hs. by apply (plan_empty _ _ total) in Hs. }
  rewrite (kept_ranges_plan _ _ _ _ _ Hs).
  destruct (kept_ranges st bookmarks total lvl rd) as [| r rs] eqn:Hk.
  { exists (total - 1). split; [lia |]. by apply whole_document_tiles. }
  destruct (kept_ranges_tile st bookmarks total lvl rd Hs)
    as [Hnil | (lo & hi & Hlo & Hhi & Ht)]; [congruence |].
  rewrite Hk in Ht. exists hi. split; [done |].
  by apply (complete_ranges_reaching (r :: rs) lo hi total).
Qed.

(** X2.  In a document of at least one page, a non-empty plan starts at
    page 0, every range is non-empty, each range starts right after the one
    before it, and every page of the document lies in some range: the plan
    has no gap and no overlap, whatever the bookmarks are.  (It may run past
    the last page.) *)
Theorem plan_has_no_gap :
  forall (st : store) (bookmarks : list nat) (total_pages split_level : Z)
         (pdf_reader : option PdfReader),
    let plan :=
      pl_ranges (get_page_ranges st bookmarks total_pages split_level pdf_reader) in
    1 <= total_pages ->
    plan <> [] ->
    (exists r rest, plan = r :: rest /\ range_start r = 0)
    /\ (forall r, r ∈ plan -> range_start r <= range_end r)
    /\ contiguous plan
    /\ sorted_by_start plan
    /\ non_overlapping plan
    /\ (forall p, 0 <= p <= total_pages - 1 -> exists r, r ∈ plan /\ covers r p).
Proof.
  intros st bookmarks total lvl rd plan Htotal Hne.
  destruct (plan_tiles st bookmarks total lvl rd Htotal Hne) as (hi & Hhi & Ht).
  fold plan in Ht.
  destruct (tiles_bounds _ _ _ Ht) as [_ Hb].
  pose proof (tiles_ordered _ _ _ Ht) as Hord.
  split.
  { destruct plan as [| r rest]; [done |]. exists r, rest.
    split; [done |]. simpl in Ht. by destruct Ht. }
  split; [intros r Hr; by destruct (Hb r Hr) as (_ & ? & _) |].
  split; [by eapply tiles_contiguous |].
  split.
  { intros i j r r' Hij Hi Hj. specialize (Hord i j r r' Hij Hi Hj).
    destruct (Hb r) as (_ & ? & _); [by eapply list_elem_of_lookup_2 | lia]. }
  split.
  { intros i j r r' Hneq Hi Hj p [Hc Hc']. unfold covers in *.
    destruct (Nat.lt_trichotomy i j) as [Hlt | [-> | Hgt]]; [| done |].
    - specialize (Hord i j r r' Hlt Hi Hj). lia.
    - specialize (Hord j i r' r Hgt Hj Hi). lia. }
  intros p Hp. apply (tiles_covers _ _ _ Ht). lia.
Qed.

Lemma plan_has_no_gap_witness :
  let plan :=
    pl_ranges
      (get_page_ranges
         [mkBookmark "A" (PyInt 5) 0; mkBookmark "B" (PyInt 30) 0]
         [0; 1]%nat 20 0 None) in
  contiguous plan
  /\ (forall p, 0 <= p <= 19 -> exists r, r ∈ plan /\ covers r p).
Proof.
  intros plan.
  destruct (plan_has_no_gap
              [mkBookmark "A" (PyInt 5) 0; mkBookmark "B" (PyInt 30) 0]
              [0; 1]%nat 20 0 None ltac:(lia) ltac:(discriminate))
    as (_ & _ & Hc & _ & _ & Hall).
  split; [exact Hc | exact Hall].
Defined.

Lemma kept_ranges_surviving st bookmarks total lvl rd :
  kept_ranges st bookmarks total lvl rd <> [] ->
  surviving st bookmarks lvl rd <> [].
Proof.
  intros Hk Hs. apply Hk. unfold kept_ranges. by rewrite Hs.
Qed.

(** X3.  The back range is never added: when the loop over the sorted
    bookmarks keeps a range, the plan is made of the ranges kept, after a
    front range from page 0 when the first of them starts later, and
    nothing follows the last range kept. *)
Theorem plan_never_adds_back_range :
  forall (st : store) (bookmarks : list nat) (total_pages split_level : Z)
         (pdf_reader : option PdfReader) (first_kept : page_range)
         (others : list page_range),
    kept_ranges st bookmarks total_pages split_level pdf_reader
    = first_kept :: others ->
    pl_ranges (get_page_ranges st bookmarks total_pages split_level pdf_reader)
    = (if 0 <? range_start first_kept
       then [mkRange "前言部分" 0 (range_start first_kept - 1)]
       else [])
      ++ first_kept :: others.
Proof.
  intros st bookmarks total lvl rd r rs Hk.
  assert (Hs : surviving st bookmarks lvl rd <> []).
  { apply (kept_ranges_surviving _ _ total). by rewrite Hk. }
  rewrite (kept_ranges_plan _ _ _ _ _ Hs).
  destruct (kept_ranges_tile st bookmarks total lvl rd Hs)
    as [Hnil | (lo & hi & Hlo & Hhi & Ht)]; [congruence |].
  rewrite Hk in Ht |- *.
  destruct (complete_ranges_reaching (r :: rs) lo hi total Hlo Hhi Ht)
    as [Heq _]; [done |].
  simpl in Ht. destruct Ht as (Hstart & _). by rewrite Hstart.
Qed.

Lemma plan_never_adds_back_range_witness :
  pl_ranges
    (get_page_ranges
       [mkBookmark "A" (PyInt 5) 0; mkBookmark "B" (PyInt 12) 0]
       [0; 1]%nat 20 0 None)
  = [mkRange "前言部分" 0 3] ++ [mkRange "A" 4 10; mkRange "B" 11 19].
Proof.
  exact (plan_never_adds_back_range
           [mkBookmark "A" (PyInt 5) 0; mkBookmark "B" (PyInt 12) 0]
           [0; 1]%nat 20 0 None (mkRange "A" 4 10) [mkRange "B" 11 19] eq_refl).
Defined.

(** ** Planning again on the bookmarks that a plan has rewritten *)

(** What a call of the planner leaves in the dict at address [a]. *)
Lemma planner_store_read st bookmarks total lvl rd a :
  pl_store (get_page_ranges st bookmarks total lvl rd) !!! a
  = if decide (a ∈ bookmarks /\ level (st !!! a) = lvl)
    then set_page (converted_page rd (page (st !!! a))) (st !!! a)
    else st !!! a.
Proof.
  rewrite planner_store.
  destruct (select_level st bookmarks lvl) as [| a0 lb] eqn:Hsel.
  - rewrite decide_False; [done |].
    rewrite <- select_level_elem, Hsel. apply not_elem_of_nil.
  - rewrite <- Hsel. apply convert_pages_store.
Qed.

Lemma planner_store_length st bookmarks total lvl rd :
  length (pl_store (get_page_ranges st bookmarks total lvl rd)) = length st.
Proof.
  rewrite planner_store.
  destruct (select_level st bookmarks lvl) as [| a0 lb] eqn:Hsel; [done |].
  rewrite <- Hsel. apply convert_pages_store.
Qed.

Lemma planner_store_level st bookmarks total lvl rd a :
  level (pl_store (get_page_ranges st bookmarks total lvl rd) !!! a)
  = level (st !!! a).
Proof. rewrite planner_store_read. by case_decide. Qed.

Lemma filter_ext_elem {A} (f g : A -> bool) (l : list A) :
  (forall x, x ∈ l -> f x = g x) -> List.filter f l = List.filter g l.
Proof.
  induction l as [| x l IH]; intros H; simpl; [done |].
  rewrite (H x) by left. rewrite IH; [done |].
  intros y Hy. apply H. by right.
Qed.

Lemma map_ext_elem {A B} (f g : A -> B) (l : list A) :
  (forall x, x ∈ l -> f x = g x) -> map f l = map g l.
Proof.
  induction l as [| x l IH]; intros H; simpl; [done |].
  rewrite (H x) by left. rewrite IH; [done |].
  intros y Hy. apply H. by right.
Qed.

Lemma replan_select_level st bookmarks total0 lvl0 rd lvl :
  select_level (pl_store (get_page_ranges st bookmarks total0 lvl0 rd))
               bookmarks lvl
  = select_level st bookmarks lvl.
Proof.
  unfold select_level. apply filter_ext_elem. intros a _.
  by rewrite planner_store_level.
Qed.

(** The converted store is the same from the rewritten bookmarks as from
    the original ones, at every address of the target level. *)
Lemma replan_converted st bookmarks total0 lvl0 rd lvl a :
  a ∈ select_level st bookmarks lvl ->
  fst (convert_pages rd (select_level st bookmarks lvl)
         (pl_store (get_page_ranges st bookmarks total0 lvl0 rd))) !!! a
  = fst (convert_pages rd (select_level st bookmarks lvl) st) !!! a.
Proof.
  intros Ha. apply select_level_elem in Ha as Ha'. destruct Ha' as [Hin Hl].
  set (st' := pl_store (get_page_ranges st bookmarks total0 lvl0 rd)).
  pose proof (replan_select_level st bookmarks total0 lvl0 rd lvl) as Hsel.
  fold st' in Hsel.
  destruct (convert_pages_store rd st bookmarks lvl) as [_ Hread].
  destruct (convert_pages_store rd st' bookmarks lvl) as [_ Hread'].
  rewrite Hsel in Hread'. rewrite Hread, Hread'.
  assert (Hl' : level (st' !!! a) = lvl).
  { unfold st'. by rewrite planner_store_level. }
  rewrite !decide_True by done.
  unfold st'. rewrite planner_store_read.
  case_decide as Hd; [| done].
  unfold set_page. simpl. f_equal.
  unfold converted_page at 1. by rewrite convert_idempotent.
Qed.

Lemma replan_surviving st bookmarks total0 lvl0 rd lvl :
  surviving (pl_store (get_page_ranges st bookmarks total0 lvl0 rd))
            bookmarks lvl rd
  = surviving st bookmarks lvl rd.
Proof.
  unfold surviving, valid_bookmarks. rewrite replan_select_level.
  f_equal. apply map_ext_elem. intros a Ha. by apply replan_converted.
Qed.

(** X4.  The rewriting of the pages does not disturb later plans: after a
    call of the planner, for any level and page count, a call on the same
    bookmarks gives the ranges that it gives on the untouched bookmarks;
    and a second call for the same level leaves the store as the first
    call left it. *)
Theorem planning_again_gives_same_plan :
  forall (st : store) (bookmarks : list nat) (pdf_reader : option PdfReader)
         (total_before level_before total_pages split_level : Z),
    let st' :=
      pl_store (get_page_ranges st bookmarks total_before level_before pdf_reader) in
    pl_ranges (get_page_ranges st' bookmarks total_pages split_level pdf_reader)
    = pl_ranges (get_page_ranges st bookmarks total_pages split_level pdf_reader)
    /\ pl_store (get_page_ranges st' bookmarks total_pages level_before pdf_reader)
       = st'.
Proof.
  intros st bookmarks rd total0 lvl0 total lvl st'. split.
  - rewrite !get_page_ranges_phases. unfold st'.
    rewrite replan_select_level, replan_surviving.
    destruct (select_level st bookmarks lvl); [done |].
    by destruct (surviving st bookmarks lvl rd).
  - apply store_eq_lookup_total; [apply planner_store_length |].
    intros a. rewrite planner_store_read.
    case_decide as Hd; [| done]. destruct Hd as [Hin Hl].
    unfold st' in *. rewrite planner_store_level in Hl.
    rewrite planner_store_read, decide_True by done.
    unfold set_page. simpl. f_equal.
    unfold converted_page at 1. by rewrite convert_idempotent.
Qed.

(** ** Resolving a reference against the page table *)

Lemma indirect_eqb_eq a b : indirect_eqb a b = true <-> a = b.
Proof.
  unfold indirect_eqb. destruct a as [i g p], b as [i' g' p']. simpl.
  rewrite !andb_true_iff, !Z.eqb_eq, Nat.eqb_eq. split.
  - intros [[-> ->] ->]. done.
  - intros [= -> -> ->]. done.
Qed.

Lemma ref_is_true q x : ref_is q x = true <-> x = Some q.
Proof.
  unfold ref_is. destruct x as [r |]; [| done].
  rewrite indirect_eqb_eq. split; [by intros -> | by intros [= ->]].
Qed.

Lemma first_page_found test pages i x :
  pages !! i = Some x -> test x = true ->
  (forall j y, (j < i)%nat -> pages !! j = Some y -> test y = false) ->
  first_page test pages = Some (Z.of_nat i + 1).
Proof.
  intros Hi Ht Hbefore. unfold first_page.
  assert (Hfind : list_find (fun pr => test pr = true) pages = Some (i, x)).
  { apply list_find_Some. split; [done |]. split; [done |].
    intros j y Hj Hlt. rewrite (Hbefore j y Hlt Hj). done. }
  by rewrite Hfind.
Qed.

Lemma first_page_none test pages :
  (forall x, x ∈ pages -> test x = false) -> first_page test pages = None.
Proof.
  intros H. unfold first_page.
  assert (Hfind : list_find (fun pr => test pr = true) pages = None).
  { apply list_find_None, Forall_forall. intros x Hx. by rewrite (H x Hx). }
  by rewrite Hfind.
Qed.

(** X5.  A reference to a page of the document resolves to that page: when
    [q] is the reference of the page at index [i] of the reader's page
    table and of no earlier page, the conversion of [q] gives [i + 1], and
    so does the resolution of an outline entry whose [/D] list starts with
    [q] -- whatever [q.get_object()] would give. *)
Theorem page_reference_resolves :
  forall (r : PdfReader) (pages : list (option IndirectObject))
         (q : IndirectObject) (target : result pyobj) (i : nat)
         (b : outline_item) (rest : list pyobj),
    reader_pages r = Ok pages ->
    pages !! i = Some (Some q) ->
    (forall j, (j < i)%nat -> pages !! j <> Some (Some q)) ->
    oi_page b = NoAttr ->
    oi_mapping b = Some (false, Some (DList (PyRef q target :: rest))) ->
    convert_to_page_number (PyRef q target) (Some r) = Some (Z.of_nat i + 1)
    /\ get_bookmark_page b r = Ok (PyInt (Z.of_nat i + 1)).
Proof.
  intros r pages q target i b rest Hpages Hi Hfirst Hattr Hmap.
  assert (Hfound : first_page (ref_is q) pages = Some (Z.of_nat i + 1)).
  { apply (first_page_found _ _ _ (Some q)); [done | by apply ref_is_true |].
    intros j y Hlt Hj. destruct (ref_is q y) eqn:Hy; [| done].
    apply ref_is_true in Hy as ->. by destruct (Hfirst j Hlt). }
  split.
  - destruct target; simpl; rewrite Hpages; simpl; by rewrite Hfound.
  - unfold get_bookmark_page, get_bookmark_page_body, resolve_by_keys.
    rewrite Hattr, Hmap, Hpages. simpl.
    change (first_page (ref_equals (PyRef q target)) pages)
      with (first_page (ref_is q) pages).
    by rewrite Hfound.
Qed.

Lemma page_reference_resolves_witness :
  let q := mkIndirect 7 0 0 in
  let r := mkReader (Ok [Some (mkIndirect 5 0 0); Some q]) (fun _ => Raise) in
  convert_to_page_number (PyRef q Raise) (Some r) = Some 2
  /\ get_bookmark_page
       (mkOutlineItem (Some "A") NoAttr
          (Some (false, Some (DList [PyRef q Raise]))) None) r
     = Ok (PyInt 2).
Proof.
  intros q r.
  apply (page_reference_resolves r [Some (mkIndirect 5 0 0); Some q] q Raise 1
           (mkOutlineItem (Some "A") NoAttr
              (Some (false, Some (DList [PyRef q Raise]))) None) []);
    try reflexivity.
  intros j Hj. assert (j = 0%nat) as -> by lia. discriminate.
Defined.

(** X6.  A copy of a page reference is found by its object number: when no
    page of the table has the reference [q] itself, and the page at index
    [j] is the first whose reference has the object number of [q], the
    conversion of [q] gives [j + 1], and so does the resolution of an
    outline entry whose [/D] list starts with [q]. *)
Theorem page_reference_copy_resolves :
  forall (r : PdfReader) (pages : list (option IndirectObject))
         (q q' : IndirectObject) (target : result pyobj) (j : nat)
         (b : outline_item) (rest : list pyobj),
    reader_pages r = Ok pages ->
    (forall x, x ∈ pages -> x <> Some q) ->
    pages !! j = Some (Some q') ->
    idnum q' = idnum q ->
    (forall k p, (k < j)%nat -> pages !! k = Some (Some p) -> idnum p <> idnum q) ->
    oi_page b = NoAttr ->
    oi_mapping b = Some (false, Some (DList (PyRef q target :: rest))) ->
    convert_to_page_number (PyRef q target) (Some r) = Some (Z.of_nat j + 1)
    /\ get_bookmark_page b r = Ok (PyInt (Z.of_nat j + 1)).
Proof.
  intros r pages q q' target j b rest Hpages Hnone Hj Hid Hfirst Hattr Hmap.
  assert (Hmiss : first_page (ref_is q) pages = None).
  { apply first_page_none. intros x Hx.
    destruct (ref_is q x) eqn:Hr; [| done].
    apply ref_is_true in Hr. by destruct (Hnone x Hx). }
  assert (Hfound : first_page (ref_has_idnum (idnum q)) pages
                   = Some (Z.of_nat j + 1)).
  { apply (first_page_found _ _ _ (Some q')); [done | by apply Z.eqb_eq |].
    intros k y Hlt Hk. destruct y as [p |]; [| done]. simpl.
    apply Z.eqb_neq. by apply (Hfirst k p). }
  split.
  - destruct target; simpl; rewrite Hpages; simpl;
      by rewrite Hmiss, Hfound.
  - unfold get_bookmark_page, get_bookmark_page_body, resolve_by_keys.
    rewrite Hattr, Hmap, Hpages. simpl.
    change (first_page (ref_equals (PyRef q target)) pages)
      with (first_page (ref_is q) pages).
    by rewrite Hmiss, Hfound.
Qed.

Lemma page_reference_copy_resolves_witness :
  let q := mkIndirect 7 1 0 in
  let r := mkReader (Ok [Some (mkIndirect 5 0 0); Some (mkIndirect 7 0 0)])
                    (fun _ => Raise) in
  convert_to_page_number (PyRef q Raise) (Some r) = Some 2
  /\ get_bookmark_page
       (mkOutlineItem (Some "A") NoAttr
          (Some (false, Some (DList [PyRef q Raise]))) None) r
     = Ok (PyInt 2).
Proof.
  intros q r.
  apply (page_reference_copy_resolves r
           [Some (mkIndirect 5 0 0); Some (mkIndirect 7 0 0)] q
           (mkIndirect 7 0 0) Raise 1
           (mkOutlineItem (Some "A") NoAttr
              (Some (false, Some (DList [PyRef q Raise]))) None) []);
    try reflexivity.
  - intros x Hx.
    repeat (apply elem_of_cons in Hx as [-> | Hx]); try discriminate.
    by apply elem_of_nil in Hx.
  - intros k p Hk Hp. assert (k = 0%nat) as -> by lia.
    injection Hp as <-. simpl. lia.
Defined.

(** X7.  When the pages of the reader cannot be walked, an entry that has
    no [page] attribute and no [/Page] key is left without a page: the
    resolution gives [None], whatever its destination is. *)
Theorem unreadable_pages_give_no_page :
  forall (b : outline_item) (r : PdfReader),
    reader_pages r = Raise ->
    oi_page b = NoAttr ->
    (forall d, oi_mapping b <> Some (true, d)) ->
    get_bookmark_page b r = Ok PyNone.
Proof.
  intros b r Hpages Hattr Hkey.
  unfold get_bookmark_page, get_bookmark_page_body, resolve_by_keys,
    resolve_indirect.
  rewrite Hattr, Hpages.
  destruct (oi_mapping b) as [[[|] d] |]; [by destruct (Hkey d) | | done].
  destruct d as [[[| page_ref items] |] |]; simpl;
    destruct (oi_indirect b); done.
Qed.

Lemma unreadable_pages_give_no_page_witness :
  get_bookmark_page
    (mkOutlineItem (Some "A") NoAttr
       (Some (false, Some (DList [PyRef (mkIndirect 7 0 0) Raise])))
       (Some (mkIndirect 9 0 0)))
    (mkReader Raise (fun _ => Ok 3))
  = Ok PyNone.
Proof.
  apply unreadable_pages_give_no_page; [reflexivity | reflexivity |].
  intros d. discriminate.
Defined.

(** ** Pages given as text *)

Lemma first_number_none s :
  PyNum.first_number s = Ok None
  <-> Forall (fun c => PyStr.is_digit c = false) (list_ascii_of_string s).
Proof.
  induction s as [| c s IH]; cbn [PyNum.first_number list_ascii_of_string].
  - split; [constructor | done].
  - destruct (PyStr.is_digit c) eqn:Hc.
    + split.
      * by destruct (PyNum.max_str_digits <? _).
      * intros H. apply Forall_cons in H as [H _]. congruence.
    + rewrite IH. split; [by constructor | by intros [_ ?]%Forall_cons].
Qed.

Lemma count_digits_nonneg s : 0 <= PyNum.count_digits s.
Proof.
  induction s as [| c s IH]; simpl; [lia |].
  destruct (PyStr.is_digit c); lia.
Qed.

Lemma count_digits_run s :
  PyNum.count_digits (PyNum.take_digits s)
  = Z.of_nat (String.length (PyNum.take_digits s)).
Proof.
  induction s as [| c s IH]; simpl; [done |].
  destruct (PyStr.is_digit c) eqn:Hc; simpl; [| done].
  rewrite Hc, IH. lia.
Qed.

Lemma count_digits_take s :
  PyNum.count_digits (PyNum.take_digits s) <= PyNum.count_digits s.
Proof.
  induction s as [| c s IH]; simpl; [lia |].
  destruct (PyStr.is_digit c) eqn:Hc; simpl.
  - rewrite Hc. lia.
  - pose proof (count_digits_nonneg s). lia.
Qed.

Lemma first_digit_run_count s :
  Z.of_nat (String.length (first_digit_run s)) <= PyNum.count_digits s.
Proof.
  induction s as [| c s IH]; cbn [first_digit_run]; [simpl; lia |].
  destruct (PyStr.is_digit c) eqn:Hc.
  - rewrite <- count_digits_run. apply count_digits_take.
  - cbn [PyNum.count_digits]. rewrite Hc. lia.
Qed.

Lemma first_number_raises s :
  PyNum.first_number s = Raise
  <-> PyNum.max_str_digits < Z.of_nat (String.length (first_digit_run s)).
Proof.
  induction s as [| c s IH]; cbn [PyNum.first_number first_digit_run].
  - split; [done |]. unfold PyNum.max_str_digits. simpl. lia.
  - destruct (PyStr.is_digit c) eqn:Hc; [| exact IH].
    rewrite <- count_digits_run.
    destruct (Z.ltb_spec PyNum.max_str_digits
                (PyNum.count_digits (PyNum.take_digits (String c s))));
      split; (done || lia).
Qed.

Lemma numeral_needs_digit acc s :
  match s with
  | String c _ => PyStr.is_digit c = false
  | EmptyString => True
  end ->
  PyNum.numeral acc false s = None.
Proof.
  destruct s as [| c s]; [done |]. intros Hc. simpl. rewrite Hc.
  destruct (nat_of_ascii c =? 95)%nat; [by destruct s |].
  by destruct (PyNum.is_c_space c).
Qed.

Lemma lstrip_no_digit s :
  Forall (fun c => PyStr.is_digit c = false) (list_ascii_of_string s) ->
  Forall (fun c => PyStr.is_digit c = false)
         (list_ascii_of_string (PyNum.lstrip s)).
Proof.
  induction s as [| c s IH]; simpl; [done |].
  intros H. destruct (PyNum.is_c_space c); [| done].
  apply IH. by apply Forall_cons in H as [_ ?].
Qed.

Lemma int_of_str_needs_digit s :
  Forall (fun c => PyStr.is_digit c = false) (list_ascii_of_string s) ->
  PyNum.int_of_str s = None.
Proof.
  intros H. apply lstrip_no_digit in H. unfold PyNum.int_of_str.
  destruct (PyNum.max_str_digits <? PyNum.count_digits s); [done |].
  destruct (PyNum.lstrip s) as [| c s']; [done |].
  simpl in H. apply Forall_cons in H as [Hc Hs'].
  assert (Hhead : match s' with
                  | String d _ => PyStr.is_digit d = false
                  | EmptyString => True
                  end).
  { destruct s' as [| d s'']; [done |]. simpl in Hs'.
    by apply Forall_cons in Hs' as [? _]. }
  destruct (nat_of_ascii c =? 43)%nat; [by apply numeral_needs_digit |].
  destruct (nat_of_ascii c =? 45)%nat.
  - by rewrite numeral_needs_digit.
  - by apply numeral_needs_digit.
Qed.

Lemma int_of_str_within_limit s n :
  PyNum.int_of_str s = Some n -> PyNum.count_digits s <= PyNum.max_str_digits.
Proof.
  unfold PyNum.int_of_str.
  destruct (Z.ltb_spec PyNum.max_str_digits (PyNum.count_digits s)); [done | lia].
Qed.

(** X8.  A page given as text converts to a number unless the text has no
    decimal digit or its first run of digits is longer than the 4300
    digits that [int()] accepts: in these two cases, and in no other, the
    conversion gives [None], with or without a reader. *)
Theorem text_page_gives_none_iff :
  forall (s : string) (pdf_reader : option PdfReader),
    convert_to_page_number (PyStr s) pdf_reader = None
    <-> Forall (fun c => PyStr.is_digit c = false) (list_ascii_of_string s)
        \/ PyNum.max_str_digits < Z.of_nat (String.length (first_digit_run s)).
Proof.
  intros s rd. rewrite <- first_number_none, <- first_number_raises.
  assert (Hconv : convert_to_page_number (PyStr s) rd
            = match PyNum.int_of_str s with
              | Some n => Some n
              | None =>
                  match PyNum.first_number s with
                  | Ok (Some n) => Some n
                  | _ => None
                  end
              end).
  { destruct rd; simpl; destruct (PyNum.int_of_str s); try done;
      by destruct (PyNum.first_number s) as [[n |] |]. }
  rewrite Hconv. split.
  - destruct (PyNum.int_of_str s); [done |].
    destruct (PyNum.first_number s) as [[n |] |]; [done | by left | by right].
  - intros Hnone.
    assert (Hint : PyNum.int_of_str s = None).
    { destruct Hnone as [Hnone | Hlong].
      - by apply int_of_str_needs_digit, first_number_none.
      - apply first_number_raises in Hlong.
        pose proof (first_digit_run_count s).
        destruct (PyNum.int_of_str s) as [n |] eqn:Hi; [| done].
        apply int_of_str_within_limit in Hi. lia. }
    rewrite Hint. by destruct Hnone as [-> | ->].
Qed.

(** A text of 4301 nines is not a page number, and neither is a text whose
    first number has 4301 digits; a long number further on does no harm. *)
Example long_digit_run_ex :
  let nines n := string_of_list_ascii (List.repeat "9"%char n) in
  convert_to_page_number (PyStr (nines 4301%nat)) None = None
  /\ convert_to_page_number (PyStr ("p. " ++ nines 4301%nat ++ "-12")%string) None
     = None
  /\ convert_to_page_number (PyStr ("p. 12-" ++ nines 4301%nat)%string) None
     = Some 12.
Proof. intros nines. repeat split; vm_compute; reflexivity. Qed.

(** ** The shape of an inferred hierarchy *)

Lemma first_true_below (f : nat -> bool) (i : nat) :
  (exists j, (j < i)%nat /\ f j = true /\ forall k, (k < j)%nat -> f k = false)
  \/ (forall j, (j < i)%nat -> f j = false).
Proof.
  induction i as [| i IH]; [right; intros j Hj; lia |].
  destruct IH as [(j & Hj & Hf & Hfirst) | Hnone].
  - left. exists j. split; [lia | done].
  - destruct (f i) eqn:Hi.
    + left. exists i. split; [lia |]. split; [done | exact Hnone].
    + right. intros j Hj. destruct (decide (j = i)) as [-> | ?]; [done |].
      apply Hnone. lia.
Qed.

(** The levels of the working list once the outer loop has ended. *)
Lemma infer_levels_shape bs i :
  (i < length bs)%nat ->
  let res := infer_levels (copy_bookmarks [] bs) in
  it_level (res !!! i) = 0
  \/ exists j, (j < i)%nat
       /\ is_child_bookmark (title (bs !!! i)) (title (bs !!! j)) = true
       /\ it_level (res !!! i) = it_level (res !!! j) + 1.
Proof.
  intros Hi res.
  assert (Hne : bs <> []) by (destruct bs; simpl in *; [lia | done]).
  destruct (infer_levels_invariant bs Hne) as (_ & _ & Hdone & _).
  fold res in Hdone.
  destruct (Hdone i Hi) as [H1 H2]; [by rewrite length_map |].
  assert (Hts : forall n, (n < length bs)%nat ->
                          map title bs !!! n = title (bs !!! n)).
  { intros n Hn. change (map title bs) with (title <$> bs).
    by rewrite (list_lookup_total_fmap title). }
  destruct (first_true_below
              (fun j => is_child_bookmark (title (bs !!! i)) (title (bs !!! j))) i)
    as [(j & Hj & Hc & Hfirst) | Hnone].
  - right. exists j. split; [done |]. split; [done |].
    apply H1; [done | |].
    + rewrite !Hts by lia. done.
    + intros k Hk. rewrite !Hts by lia. by apply Hfirst.
  - left. apply H2. intros j Hj. rewrite !Hts by lia. by apply Hnone.
Qed.

Lemma infer_level_lookup bs i :
  (i < length bs)%nat ->
  level (infer_bookmark_level bs !!! i)
  = it_level (infer_levels (copy_bookmarks [] bs) !!! i).
Proof.
  intros Hi.
  assert (Hne : bs <> []) by (destruct bs; simpl in *; [lia | done]).
  pose proof (infer_levels_invariant bs Hne) as Hinv.
  pose proof (infer_invariant_length _ _ _ _ Hinv) as Hlen.
  rewrite length_map in Hlen.
  unfold infer_bookmark_level. destruct bs as [| b bs]; [done |].
  change (map strip_item ?l) with (strip_item <$> l).
  rewrite (list_lookup_total_fmap strip_item) by lia. done.
Qed.

(** X9.  The inferred levels form a hierarchy without holes: the first
    bookmark has level 0; the level of the bookmark at index [i] lies
    between 0 and [i]; and a bookmark of a level above 0 comes after a
    bookmark that is exactly one level higher up and whose title is a
    parent of its title. *)
Theorem inferred_levels_form_hierarchy :
  forall (bs : list bookmark) (i : nat),
    (i < length bs)%nat ->
    let out := infer_bookmark_level bs in
    level (out !!! 0%nat) = 0
    /\ 0 <= level (out !!! i) <= Z.of_nat i
    /\ (0 < level (out !!! i) ->
        exists j, (j < i)%nat
          /\ level (out !!! j) = level (out !!! i) - 1
          /\ is_child_bookmark (title (bs !!! i)) (title (bs !!! j)) = true).
Proof.
  intros bs i Hi out.
  assert (Hbound : forall n, (n < length bs)%nat ->
                             0 <= level (out !!! n) <= Z.of_nat n).
  { intros n. induction n as [n IHn] using lt_wf_ind. intros Hn.
    unfold out. rewrite infer_level_lookup by done.
    destruct (infer_levels_shape bs n Hn) as [-> | (j & Hj & _ & ->)]; [lia |].
    specialize (IHn j Hj ltac:(lia)).
    unfold out in IHn. rewrite infer_level_lookup in IHn by lia. lia. }
  split; [| split].
  - specialize (Hbound 0%nat ltac:(lia)). lia.
  - by apply Hbound.
  - intros Hpos. unfold out in *. rewrite infer_level_lookup in Hpos |- * by done.
    destruct (infer_levels_shape bs i Hi) as [Hz | (j & Hj & Hc & Hl)]; [lia |].
    exists j. split; [done |]. rewrite infer_level_lookup by lia.
    split; [lia | done].
Qed.

Lemma inferred_levels_form_hierarchy_witness :
  let bs := [mkBookmark "1 Intro" (PyInt 1) 0; mkBookmark "1.1 Scope" (PyInt 2) 0;
             mkBookmark "2 Body" (PyInt 3) 0] in
  0 <= level (infer_bookmark_level bs !!! 1%nat) <= 1.
Proof.
  intros bs.
  exact (proj1 (proj2 (inferred_levels_form_hierarchy bs 1 ltac:(simpl; lia)))).
Defined.

(** ** The inference reads titles and pages only *)

Lemma copy_bookmarks_ext bs : forall bs' acc,
  map title bs = map title bs' -> map page bs = map page bs' ->
  copy_bookmarks acc bs = copy_bookmarks acc bs'.
Proof.
  induction bs as [| b bs IH]; intros [| b' bs'] acc Ht Hp; try done.
  simpl in *. injection Ht as Ht1 Ht. injection Hp as Hp1 Hp.
  rewrite Ht1, Hp1. by apply IH.
Qed.

(** X10.  The inference looks at titles and pages only: two sequences with
    the same titles and pages get the same result, whatever levels they
    carry.  So running the inference on its own result changes nothing. *)
Theorem inference_ignores_levels :
  forall bs bs' : list bookmark,
    map title bs = map title bs' ->
    map page bs = map page bs' ->
    infer_bookmark_level bs = infer_bookmark_level bs'
    /\ infer_bookmark_level (infer_bookmark_level bs) = infer_bookmark_level bs.
Proof.
  assert (Hext : forall bs bs' : list bookmark,
             map title bs = map title bs' -> map page bs = map page bs' ->
             infer_bookmark_level bs = infer_bookmark_level bs').
  { intros bs bs' Ht Hp. unfold infer_bookmark_level.
    destruct bs as [| b bs], bs' as [| b' bs']; try done.
    by rewrite (copy_bookmarks_ext (b :: bs) (b' :: bs') [] Ht Hp). }
  intros bs bs' Ht Hp. split; [by apply Hext |].
  apply Hext; [apply infer_bookmark_level_titles | apply infer_bookmark_level_pages].
Qed.

Lemma inference_ignores_levels_witness :
  infer_bookmark_level
    [mkBookmark "1 Intro" (PyInt 1) 3; mkBookmark "1.1 Scope" (PyInt 2) 7]
  = infer_bookmark_level
      [mkBookmark "1 Intro" (PyInt 1) 0; mkBookmark "1.1 Scope" (PyInt 2) 0].
Proof.
  exact (proj1 (inference_ignores_levels _ _ eq_refl eq_refl)).
Defined.

(** ** No title is its own child *)

Lemma prefix_length (a b : string) :
  String.prefix a b = true -> (String.length a <= String.length b)%nat.
Proof.
  revert b. induction a as [| x a IH]; intros b H; simpl; [lia |].
  destruct b as [| y b]; simpl in H; [done |].
  destruct (ascii_dec x y); [| done]. specialize (IH b H). simpl. lia.
Qed.

Lemma str_length_app (a b : string) :
  String.length (a ++ b) = (String.length a + String.length b)%nat.
Proof. induction a as [| x a IH]; simpl; [done | by rewrite IH]. Qed.

(** X11.  No title is its own child: [is_child_bookmark t t] is false for
    every title, so a bookmark that repeats an earlier title is never put
    below it. *)
Theorem is_child_irreflexive :
  forall t : string, is_child_bookmark t t = false.
Proof.
  intros t. unfold is_child_bookmark.
  assert (Hself : (PyStr.count_dots t + 1 + 1 =? PyStr.count_dots t + 1)%nat = false)
    by (apply Nat.eqb_neq; lia).
  rewrite Hself. simpl.
  assert (Hrule : (if PyStr.match_numbering_ws t && PyStr.match_subnumbering_ws t
                   then match PyStr.match_numbering t, PyStr.match_subnumbering t with
                        | Some (parent_prefix, _), Some (child_prefix, _) =>
                            PyStr.startswith child_prefix (parent_prefix ++ ".")%string
                        | _, _ => false
                        end
                   else false) = false).
  { destruct (PyStr.match_numbering_ws t && PyStr.match_subnumbering_ws t); [| done].
    unfold PyStr.match_subnumbering.
    destruct (PyStr.match_numbering t) as [[m r] |]; [| done].
    destruct (0 <? PyStr.count_dots m)%nat; [| done].
    unfold PyStr.startswith.
    destruct (String.prefix (m ++ ".") m) eqn:Hp; [| done].
    apply prefix_length in Hp. rewrite str_length_app in Hp. simpl in Hp. lia. }
  by rewrite Hrule.
Qed.

(** ** Levels along a flattened outline *)

Lemma steps_app (l1 l2 : list bookmark) d :
  steps_by_one d l1 -> steps_by_one d l2 -> steps_by_one d (l1 ++ l2).
Proof.
  intros (H1a & H1h & H1s) (H2a & H2h & H2s).
  split; [by apply Forall_app |]. split.
  - intros b Hb. destruct l1 as [| x l1]; [by apply H2h |].
    apply H1h. simpl in Hb |- *. exact Hb.
  - intros i b b' Hi Hi'.
    destruct (decide (S i < length l1)%nat) as [Hin | Hout].
    + rewrite lookup_app_l in Hi by lia. rewrite lookup_app_l in Hi' by lia.
      by eapply H1s.
    + destruct (decide (i < length l1)%nat) as [Hlast | Hright].
      * rewrite lookup_app_l in Hi by lia.
        rewrite lookup_app_r in Hi' by lia.
        replace (S i - length l1)%nat with 0%nat in Hi' by lia.
        rewrite Forall_forall in H1a.
        pose proof (H1a b (list_elem_of_lookup_2 _ _ _ Hi)) as Hb.
        rewrite (H2h b') by (by destruct l2; [| simpl in Hi' |- *]).
        lia.
      * rewrite lookup_app_r in Hi by lia. rewrite lookup_app_r in Hi' by lia.
        replace (S i - length l1)%nat with (S (i - length l1)) in Hi' by lia.
        by eapply H2s.
Qed.

Lemma steps_concat (ls : list (list bookmark)) d :
  Forall (steps_by_one d) ls -> steps_by_one d (concat ls).
Proof.
  induction 1 as [| l ls Hl _ IH]; simpl.
  - split; [constructor |]. split; [done |]. intros i b b' Hi. by rewrite lookup_nil in Hi.
  - by apply steps_app.
Qed.

Lemma flatten_steps o r : forall lvl,
  steps_by_one lvl (flatten_bookmarks o r lvl).
Proof.
  induction o as [items IH | b c IH] using outline_nested_ind; intros lvl.
  - simpl. apply steps_concat.
    induction IH as [| x l Hx _ IHl]; simpl; constructor; auto.
  - simpl.
    assert (Hch : steps_by_one (lvl + 1)
              match c with
              | ChildrenList l =>
                  concat (map (fun ch => flatten_bookmarks ch r (lvl + 1)) l)
              | _ => []
              end).
    { assert (Hnil : steps_by_one (lvl + 1) []).
      { split; [constructor |]. split; [done |].
        intros i x x' Hi. by rewrite lookup_nil in Hi. }
      destruct c as [| | | l]; try exact Hnil.
      apply steps_concat. simpl in IH.
      induction IH as [| x l Hx _ IHl]; simpl; constructor; auto. }
    set (rest := match c with
                 | ChildrenList l =>
                     concat (map (fun ch => flatten_bookmarks ch r (lvl + 1)) l)
                 | _ => []
                 end) in *.
    destruct Hch as (Ha & Hh & Hs).
    split; [| split].
    + constructor; [simpl; lia |].
      eapply Forall_impl; [exact Ha |]. simpl. intros; lia.
    + intros x [= <-]. done.
    + intros i x x' Hi Hi'. destruct i as [| i]; simpl in Hi, Hi'.
      * injection Hi as <-. simpl.
        rewrite (Hh x') by (by destruct rest; [| simpl in Hi' |- *]). lia.
      * by eapply Hs.
Qed.

(** X12.  The flattened outline is a pre-order listing: no bookmark has a
    level under the level the flattening started from, the first bookmark
    has exactly that level, and from one bookmark to the next the level
    rises by one at most (it may fall by any amount). *)
Theorem flattened_levels_rise_by_one :
  forall (o : outline) (r : PdfReader) (lvl : Z),
    let flat := flatten_bookmarks o r lvl in
    Forall (fun b => lvl <= level b) flat
    /\ (forall b, head flat = Some b -> level b = lvl)
    /\ (forall i b b', flat !! i = Some b -> flat !! S i = Some b' ->
          level b' <= level b + 1).
Proof. intros o r lvl. apply flatten_steps. Qed.

(** * More properties: output files *)

(** ** File names *)

Lemma legal_app (a b : string) :
  legal_name a -> legal_name b -> legal_name (a ++ b).
Proof.
  unfold legal_name. induction a as [| c a IH]; simpl; [done |].
  intros Ha Hb. apply Forall_cons in Ha as [Hc Ha].
  apply Forall_cons. split; [done | by apply IH].
Qed.

Lemma replace_illegal_legal s : legal_name (PyFile.replace_illegal s).
Proof.
  unfold legal_name. induction s as [| c s IH]; simpl.
  - by apply List.Forall_nil.
  - apply Forall_cons. split; [| done].
    by destruct (PyFile.is_illegal c) eqn:Hc.
Qed.

Lemma replace_illegal_length s :
  String.length (PyFile.replace_illegal s) = String.length s.
Proof. induction s as [| c s IH]; simpl; [done | by rewrite IH]. Qed.

Lemma replace_illegal_id s : legal_name s -> PyFile.replace_illegal s = s.
Proof.
  unfold legal_name. induction s as [| c s IH]; simpl; [done |].
  intros H. apply Forall_cons in H as [Hc H]. by rewrite Hc, (IH H).
Qed.

Lemma substring_length n s :
  String.length (substring 0 n s) = Nat.min n (String.length s).
Proof.
  revert s. induction n as [| n IH]; intros [| c s]; simpl; try done.
  by rewrite IH.
Qed.

Lemma substring_legal n s : legal_name s -> legal_name (substring 0 n s).
Proof.
  unfold legal_name. revert s.
  induction n as [| n IH]; intros [| c s]; simpl;
    try (intros _; by apply List.Forall_nil).
  intros H. apply Forall_cons in H as [Hc H].
  apply Forall_cons. split; [done | by apply IH].
Qed.

Lemma sanitize_legal_length name :
  legal_name (sanitize_filename name)
  /\ String.length (sanitize_filename name)
     = Nat.min (String.length name) 150.
Proof.
  unfold sanitize_filename.
  pose proof (replace_illegal_legal name) as Hl.
  pose proof (replace_illegal_length name) as Hn.
  destruct (150 <? String.length (PyFile.replace_illegal name))%nat eqn:Hlong.
  - apply Nat.ltb_lt in Hlong. split.
    + apply legal_app; [by apply substring_legal |].
      unfold legal_name. simpl. repeat constructor.
    + rewrite str_length_app, substring_length.
      change (String.length "...") with 3%nat. lia.
  - apply Nat.ltb_ge in Hlong. split; [done | lia].
Qed.

(** X13.  Whatever the title, the sanitised name holds none of the nine
    characters that are replaced, and it has the length of the title
    capped at 150 characters. *)
Theorem sanitized_name_is_legal :
  forall name : string,
    legal_name (sanitize_filename name)
    /\ String.length (sanitize_filename name)
       = Nat.min (String.length name) 150.
Proof. intros name. apply sanitize_legal_length. Qed.

(** X14.  The names that [sanitize_filename] returns unchanged are exactly
    the names of at most 150 characters without a replaced character; so
    sanitising a second time changes nothing. *)
Theorem sanitize_fixes_legal_names :
  forall name : string,
    (sanitize_filename name = name
     <-> legal_name name /\ (String.length name <= 150)%nat)
    /\ sanitize_filename (sanitize_filename name) = sanitize_filename name.
Proof.
  assert (Hfix : forall s, legal_name s -> (String.length s <= 150)%nat ->
                           sanitize_filename s = s).
  { intros s Hl Hn. unfold sanitize_filename.
    rewrite (replace_illegal_id s Hl).
    by destruct (Nat.ltb_spec 150 (String.length s)); [lia |]. }
  intros name.
  destruct (sanitize_legal_length name) as [Hl Hn]. split.
  - split.
    + intros Heq. rewrite Heq in Hl, Hn. split; [done | lia].
    + intros [Hl' Hn']. by apply Hfix.
  - apply Hfix; [done | lia].
Qed.

(** ** The number in front of a file name *)

Lemma digit_legal c : PyStr.is_digit c = true -> PyFile.is_illegal c = false.
Proof.
  unfold PyStr.is_digit, PyFile.is_illegal. intros H.
  apply andb_true_iff in H as [H1 H2].
  apply Nat.leb_le in H1. apply Nat.leb_le in H2.
  repeat (apply orb_false_iff; split); apply Nat.eqb_neq; lia.
Qed.

Lemma string_of_uint_digits d :
  PyNum.take_digits (NilEmpty.string_of_uint d) = NilEmpty.string_of_uint d.
Proof. induction d; simpl; [done | by rewrite IHd ..]. Qed.

Lemma format_02d_digits n :
  PyNum.take_digits (PyFile.format_02d n) = PyFile.format_02d n.
Proof.
  unfold PyFile.format_02d. destruct (n <? 10)%nat.
  - simpl. by rewrite string_of_uint_digits.
  - apply string_of_uint_digits.
Qed.

Lemma format_02d_value n :
  option_map Nat.of_uint (NilEmpty.uint_of_string (PyFile.format_02d n)) = Some n.
Proof.
  unfold PyFile.format_02d. destruct (n <? 10)%nat.
  - simpl. rewrite NilEmpty.usu. simpl.
    f_equal. apply DecimalNat.Unsigned.of_to.
  - rewrite NilEmpty.usu. simpl. f_equal. apply DecimalNat.Unsigned.of_to.
Qed.

Lemma format_02d_inj n m : PyFile.format_02d n = PyFile.format_02d m -> n = m.
Proof.
  intros H. pose proof (format_02d_value n) as Hn.
  rewrite H, format_02d_value in Hn. by injection Hn.
Qed.

Lemma take_digits_app d c rest :
  PyNum.take_digits d = d -> PyStr.is_digit c = false ->
  PyNum.take_digits (d ++ String c rest) = d.
Proof.
  induction d as [| x d IH]; simpl; intros Hd Hc.
  - by rewrite Hc.
  - destruct (PyStr.is_digit x); [| done].
    injection Hd as Hd. by rewrite IH.
Qed.

Lemma digits_legal d : PyNum.take_digits d = d -> legal_name d.
Proof.
  unfold legal_name. induction d as [| x d IH]; simpl; intros Hd.
  - by apply List.Forall_nil.
  - destruct (PyStr.is_digit x) eqn:Hx; [| done]. injection Hd as Hd.
    apply Forall_cons. split; [by apply digit_legal | by apply IH].
Qed.

Lemma output_name_inj i j r r' : output_name i r = output_name j r' -> i = j.
Proof.
  unfold output_name. intros H.
  apply (f_equal PyNum.take_digits) in H.
  change ("_" ++ ?x)%string with (String "_" x) in H.
  rewrite !take_digits_app in H by (apply format_02d_digits || done).
  apply format_02d_inj in H. lia.
Qed.

Lemma output_name_legal i r : legal_name (output_name i r).
Proof.
  unfold output_name.
  apply legal_app; [apply digits_legal, format_02d_digits |].
  apply (legal_app "_"); [unfold legal_name; simpl; repeat constructor |].
  apply legal_app; [apply sanitize_legal_length |].
  unfold legal_name; simpl; repeat constructor.
Qed.

(** ** The loops of [split_pdf] *)

Lemma add_pages_fold env i total ps : forall writer log,
  exists extra,
    fold_left (add_page_step env i total) ps (writer, log)
    = (writer
       ++ List.filter
            (fun p => in_document total p && negb (add_page_raises env i p)) ps,
       log ++ extra)
    /\ Forall (fun m => is_not_covered m = false) extra.
Proof.
  induction ps as [| p ps IH]; intros writer log.
  - exists []. simpl. by rewrite !app_nil_r.
  - cbn [fold_left List.filter]. unfold add_page_step at 2.
    fold (in_document total p).
    destruct (in_document total p); cbn [andb].
    + destruct (add_page_raises env i p); cbn [negb].
      * destruct (IH writer (log ++ [CannotAddPage (p + 1)]))
          as (extra & -> & Hex).
        exists (CannotAddPage (p + 1) :: extra).
        rewrite <- app_assoc. split; [done |]. by apply Forall_cons.
      * destruct (IH (writer ++ [p]) log) as (extra & -> & Hex).
        exists extra. by rewrite <- app_assoc.
    + destruct (IH writer (log ++ [PageOutOfRange (p + 1) total]))
        as (extra & -> & Hex).
      exists (PageOutOfRange (p + 1) total :: extra).
      rewrite <- app_assoc. split; [done |]. by apply Forall_cons.
Qed.

Lemma split_step_spec env total files log ir :
  exists extra,
    split_step env total (files, log) ir
    = (files ++ range_output env total ir, log ++ extra)
    /\ Forall (fun m => is_not_covered m = false) extra.
Proof.
  destruct ir as [i r]. unfold split_step, range_output, added_pages.
  cbn [fst snd].
  destruct (add_pages_fold env i total (range_pages r) [] log)
    as (extra & -> & Hex).
  cbn [app]. fold (output_name i r).
  set (added := List.filter _ _).
  destruct (length added =? 0)%nat; cbn [orb].
  - exists (extra ++ [NoValidPages (output_name i r)]).
    rewrite app_nil_r, <- app_assoc. split; [done |].
    apply Forall_app. split; [done |]. by apply Forall_singleton.
  - destruct (write_raises env i).
    + exists (extra ++ [SaveFailed (output_name i r)]).
      rewrite app_nil_r, <- app_assoc. split; [done |].
      apply Forall_app. split; [done |]. by apply Forall_singleton.
    + eexists (extra ++ [Created (output_name i r) _ _ _]).
      rewrite <- app_assoc. split; [done |].
      apply Forall_app. split; [done |]. by apply Forall_singleton.
Qed.

Lemma split_loop_spec env total irs : forall files log,
  exists extra,
    fold_left (split_step env total) irs (files, log)
    = (files ++ flat_map (range_output env total) irs, log ++ extra)
    /\ Forall (fun m => is_not_covered m = false) extra.
Proof.
  induction irs as [| ir irs IH]; intros files log.
  - exists []. simpl. by rewrite !app_nil_r.
  - cbn [fold_left flat_map].
    destruct (split_step_spec env total files log ir) as (e1 & -> & H1).
    destruct (IH (files ++ range_output env total ir) (log ++ e1))
      as (e2 & -> & H2).
    exists (e1 ++ e2). rewrite <- !app_assoc. split; [done |].
    apply Forall_app. by split.
Qed.

(** [split_pdf] in one piece: the files are those of the ranges of the
    plan, the log is the planner's log, the coverage check, and lines that
    are not coverage warnings. *)
Lemma split_pdf_spec pdf source lvl env pages :
  reader_pages pdf = Ok pages ->
  let total := Z.of_nat (length pages) in
  let plan := split_plan pdf source lvl total in
  exists out,
    split_pdf pdf source lvl env = Ok out
    /\ so_files out
       = flat_map (range_output env total) (zip (seq 0 (length plan)) plan)
    /\ exists head tail,
         so_log out
         = head ++ (if decide (plan = []) then []
                    else check_coverage plan total) ++ tail
         /\ Forall (fun m => is_not_covered m = false) head
         /\ Forall (fun m => is_not_covered m = false) tail.
Proof.
  intros Hpages total plan. unfold split_pdf. rewrite Hpages. cbn [mbind result_bind].
  fold (split_bookmarks source). fold total.
  set (planned := get_page_ranges _ _ _ _ _).
  assert (Hplan : pl_ranges planned = plan) by done.
  assert (Hhead : Forall (fun m => is_not_covered m = false)
                    ([TotalPages total; Extracting lvl]
                     ++ map Planner (pl_log planned))).
  { apply Forall_app. split; [by repeat constructor |].
    apply Forall_forall. intros m Hm.
    apply list_elem_of_fmap in Hm as (? & -> & _). done. }
  rewrite Hplan. destruct plan as [| r0 plan'] eqn:Hp.
  - eexists. split; [done |]. split; [done |].
    exists ([TotalPages total; Extracting lvl] ++ map Planner (pl_log planned)),
           [NoRanges].
    rewrite decide_True by done. split; [done |]. split; [done |].
    by apply Forall_singleton.
  - rewrite <- Hp.
    destruct (split_loop_spec env total (zip (seq 0 (length plan)) plan) []
                (([TotalPages total; Extracting lvl]
                  ++ map Planner (pl_log planned))
                 ++ check_coverage plan total ++ [Splitting (length plan)]))
      as (extra & Hloop & Hex).
    rewrite Hloop. eexists. split; [done |]. split; [done |].
    exists ([TotalPages total; Extracting lvl] ++ map Planner (pl_log planned)),
           ([Splitting (length plan)] ++ extra ++ [Finished]).
    rewrite decide_False by (rewrite Hp; done).
    cbn [so_log]. split; [by rewrite <- !app_assoc |]. split; [done |].
    apply Forall_app. split; [by apply Forall_singleton |].
    apply Forall_app. split; [done |]. by apply Forall_singleton.
Qed.

(** ** The pages that reach the output files *)

Lemma plan_shape st bookmarks total lvl rd :
  pl_ranges (get_page_ranges st bookmarks total lvl rd) <> [] ->
  pl_ranges (get_page_ranges st bookmarks total lvl rd)
  = [mkRange "完整文档" 0 (total - 1)]
  \/ exists hi, total - 1 <= hi
       /\ tiles 0 hi (pl_ranges (get_page_ranges st bookmarks total lvl rd)).
Proof.
  intros Hne.
  assert (Hs : surviving st bookmarks lvl rd <> []).
  { intros Hs. by apply (plan_empty _ _ total) in Hs. }
  rewrite (kept_ranges_plan _ _ _ _ _ Hs).
  destruct (kept_ranges st bookmarks total lvl rd) as [| r rs] eqn:Hk.
  { by left. }
  destruct (kept_ranges_tile st bookmarks total lvl rd Hs)
    as [Hnil | (lo & hi & Hlo & Hhi & Ht)]; [congruence |].
  rewrite Hk in Ht. right. exists hi. split; [done |].
  by apply (complete_ranges_reaching (r :: rs) lo hi total).
Qed.

Lemma tiles_pages rs : forall lo hi,
  tiles lo hi rs -> concat (map range_pages rs) = seqZ lo (hi + 1 - lo).
Proof.
  induction rs as [| r rs IH]; intros lo hi H; simpl in H.
  - subst lo. simpl. by replace (hi + 1 - (hi + 1)) with 0 by lia.
  - destruct H as (Hs & Hle & Ht).
    pose proof (tiles_bounds _ _ _ Ht) as [Hb _].
    cbn [map concat]. rewrite (IH _ _ Ht). unfold range_pages. rewrite Hs.
    replace (hi + 1 - lo)
      with ((range_end r + 1 - lo) + (hi + 1 - (range_end r + 1))) by lia.
    rewrite seqZ_app by lia. do 2 f_equal; lia.
Qed.

Lemma last_elem {A} (l : list A) d : l <> [] -> List.last l d ∈ l.
Proof.
  induction l as [| x l IH]; [done |]. intros _.
  destruct l as [| y l]; [by left |].
  right. by apply IH.
Qed.

(** The pages of a plan that is not empty, in the order of the plan: 0, 1,
    ... up to the last page of the document or beyond it; beyond it
    exactly when some range ends there. *)
Lemma plan_pages st bookmarks total lvl rd :
  0 <= total ->
  let plan := pl_ranges (get_page_ranges st bookmarks total lvl rd) in
  plan <> [] ->
  exists hi, total - 1 <= hi
    /\ concat (map range_pages plan) = seqZ 0 (hi + 1)
    /\ (total <= hi <-> exists r, r ∈ plan /\ total <= range_end r).
Proof.
  intros Htotal plan Hne.
  destruct (plan_shape st bookmarks total lvl rd Hne)
    as [Hwhole | (hi & Hhi & Ht)]; fold plan in Hwhole || fold plan in Ht.
  - exists (total - 1). rewrite Hwhole. split; [lia |]. split.
    + simpl. rewrite app_nil_r. unfold range_pages. simpl. f_equal. lia.
    + split; [lia |]. intros (r & Hr & Hend).
      apply list_elem_of_singleton in Hr as ->. simpl in Hend. lia.
  - exists hi. split; [done |]. split.
    + rewrite (tiles_pages _ _ _ Ht). f_equal. lia.
    + destruct (tiles_bounds _ _ _ Ht) as [_ Hb]. split.
      * intros Hover. exists (List.last plan (mkRange "" 0 0)). split.
        -- by apply last_elem.
        -- by rewrite (tiles_last _ _ _ _ Ht Hne).
      * intros (r & Hr & Hend). destruct (Hb r Hr) as (_ & _ & ?). lia.
Qed.

Lemma filter_in_document total hi :
  0 <= total -> total - 1 <= hi ->
  List.filter (in_document total) (seqZ 0 (hi + 1)) = seqZ 0 total.
Proof.
  intros Htotal Hhi.
  replace (hi + 1) with (total + (hi + 1 - total)) by lia.
  rewrite seqZ_app, List.filter_app by lia.
  assert (Hin : forall l, Forall (fun p => 0 <= p < total) l ->
                          List.filter (in_document total) l = l).
  { induction l as [| p l IH]; intros H; [done |].
    apply Forall_cons in H as [Hp H]. simpl. unfold in_document at 1.
    destruct (Z.leb_spec 0 p); [| lia]. destruct (Z.ltb_spec p total); [| lia].
    simpl. by rewrite IH. }
  assert (Hout : forall l, Forall (fun p => total <= p) l ->
                           List.filter (in_document total) l = []).
  { induction l as [| p l IH]; intros H; [done |].
    apply Forall_cons in H as [Hp H]. simpl. unfold in_document at 1.
    destruct (Z.ltb_spec p total); [lia |]. rewrite andb_false_r. by apply IH. }
  rewrite Hin, Hout, app_nil_r; [done | |].
  - apply Forall_forall. intros p Hp. apply elem_of_seqZ in Hp. lia.
  - apply Forall_forall. intros p Hp. apply elem_of_seqZ in Hp. lia.
Qed.

Lemma filter_sublist {A} (f g : A -> bool) (l : list A) :
  (forall x, f x = true -> g x = true) ->
  List.filter f l `sublist_of` List.filter g l.
Proof.
  intros Hfg. induction l as [| x l IH]; simpl; [done |].
  destruct (f x) eqn:Hf.
  - rewrite (Hfg x Hf). by apply sublist_skip.
  - destruct (g x); [by apply sublist_cons | done].
Qed.

Lemma filter_concat {A} (f : A -> bool) (ls : list (list A)) :
  concat (map (List.filter f) ls) = List.filter f (concat ls).
Proof.
  induction ls as [| l ls IH]; simpl; [done |].
  by rewrite List.filter_app, IH.
Qed.

(** The pages of the files written, file after file, are part of the
    pages of the plan that lie inside the document; they are all of them
    when nothing raises. *)
Lemma written_pages_sublist env total irs :
  concat (map out_pages (flat_map (range_output env total) irs))
  `sublist_of`
  List.filter (in_document total) (concat (map range_pages (map snd irs))).
Proof.
  rewrite <- filter_concat.
  induction irs as [| [i r] irs IH]; [done |].
  cbn [flat_map map concat]. rewrite map_app, concat_app.
  apply sublist_app; [| exact IH].
  unfold range_output. cbn [fst snd].
  destruct (_ || _).
  - apply sublist_nil_l.
  - cbn [map concat out_pages]. rewrite app_nil_r.
    unfold added_pages. apply filter_sublist.
    intros p Hp. by apply andb_true_iff in Hp as [Hp _].
Qed.

Lemma written_pages_all env total irs :
  no_failure env ->
  concat (map out_pages (flat_map (range_output env total) irs))
  = List.filter (in_document total) (concat (map range_pages (map snd irs))).
Proof.
  intros [Hadd Hwrite]. rewrite <- filter_concat.
  induction irs as [| [i r] irs IH]; [done |].
  cbn [flat_map map concat]. rewrite map_app, concat_app, IH. f_equal.
  unfold range_output. cbn [fst snd]. rewrite Hwrite, orb_false_r.
  assert (Hadded : added_pages env total i r
                   = List.filter (in_document total) (range_pages r)).
  { unfold added_pages. apply List.filter_ext. intros p.
    by rewrite Hadd, andb_true_r. }
  rewrite Hadded.
  destruct (List.filter (in_document total) (range_pages r)); [done |].
  cbn [length Nat.eqb map concat out_pages]. by rewrite app_nil_r.
Qed.

Lemma written_files_not_empty env total irs :
  Forall (fun f => out_pages f <> []) (flat_map (range_output env total) irs).
Proof.
  induction irs as [| ir irs IH]; [by apply List.Forall_nil |].
  cbn [flat_map]. apply Forall_app. split; [| done].
  unfold range_output.
  destruct (added_pages env total ir.1 ir.2) eqn:Hadded; [by apply List.Forall_nil |].
  cbn [length Nat.eqb orb].
  destruct (write_raises env ir.1); [by apply List.Forall_nil |].
  by apply Forall_singleton.
Qed.

Lemma snd_enumerate {A} (l : list A) : map snd (zip (seq 0 (length l)) l) = l.
Proof. apply snd_zip. by rewrite length_seq. Qed.

Lemma fst_enumerate {A} (l : list A) :
  map fst (zip (seq 0 (length l)) l) = seq 0 (length l).
Proof. apply fst_zip. by rewrite length_seq. Qed.

(** X15.  When no page and no file fails, a run of [split_pdf] that finds
    a plan writes every page of the document exactly once: the pages of the
    output files, file after file, are 0, 1, ..., [total_pages - 1], even
    when bookmarks point beyond the document.  Without a plan nothing is
    written. *)
Theorem split_writes_every_page_once :
  forall (pdf : PdfReader) (source : result (outline * PdfReader))
         (split_level : Z) (env : split_env)
         (pages : list (option IndirectObject)),
    reader_pages pdf = Ok pages ->
    no_failure env ->
    exists out,
      split_pdf pdf source split_level env = Ok out
      /\ concat (map out_pages (so_files out))
         = match split_plan pdf source split_level (Z.of_nat (length pages)) with
           | [] => []
           | _ => seqZ 0 (Z.of_nat (length pages))
           end.
Proof.
  intros pdf source lvl env pages Hpages Henv.
  destruct (split_pdf_spec pdf source lvl env pages Hpages)
    as (out & Hout & Hfiles & _).
  exists out. split; [done |]. rewrite Hfiles.
  rewrite (written_pages_all _ _ _ Henv), snd_enumerate.
  destruct (split_plan pdf source lvl (Z.of_nat (length pages))) eqn:Hp; [done |].
  rewrite <- Hp.
  destruct (plan_pages (split_bookmarks source)
              (seq 0 (length (split_bookmarks source)))
              (Z.of_nat (length pages)) lvl (Some pdf))
    as (hi & Hhi & Hcat & _); [lia | |].
  { fold (split_plan pdf source lvl (Z.of_nat (length pages))). by rewrite Hp. }
  fold (split_plan pdf source lvl (Z.of_nat (length pages))) in Hcat.
  rewrite Hcat. apply filter_in_document; lia.
Qed.

Lemma split_writes_every_page_once_witness :
  exists out,
    split_pdf twenty_pages (Ok (two_chapters, twenty_pages)) 0 nothing_raises
    = Ok out
    /\ concat (map out_pages (so_files out)) = seqZ 0 20.
Proof.
  destruct (split_writes_every_page_once
              twenty_pages (Ok (two_chapters, twenty_pages)) 0 nothing_raises
              (replicate 20 None) eq_refl (conj (fun _ _ => eq_refl) (fun _ => eq_refl)))
    as (out & Hout & Hcat).
  exists out. split; [exact Hout | exact Hcat].
Defined.

(** X16.  Whatever fails while pages are added and files are written, no
    page is written twice and no page from outside the document is
    written: the pages of the output files, file after file, are taken in
    order from 0, 1, ..., [total_pages - 1]; and no file without a page is
    written. *)
Theorem split_never_repeats_a_page :
  forall (pdf : PdfReader) (source : result (outline * PdfReader))
         (split_level : Z) (env : split_env)
         (pages : list (option IndirectObject)),
    reader_pages pdf = Ok pages ->
    exists out,
      split_pdf pdf source split_level env = Ok out
      /\ concat (map out_pages (so_files out))
         `sublist_of` seqZ 0 (Z.of_nat (length pages))
      /\ Forall (fun f => out_pages f <> []) (so_files out).
Proof.
  intros pdf source lvl env pages Hpages.
  destruct (split_pdf_spec pdf source lvl env pages Hpages)
    as (out & Hout & Hfiles & _).
  exists out. split; [done |]. rewrite Hfiles.
  split; [| apply written_files_not_empty].
  etrans; [apply written_pages_sublist |]. rewrite snd_enumerate.
  destruct (split_plan pdf source lvl (Z.of_nat (length pages))) eqn:Hp.
  { apply sublist_nil_l. }
  rewrite <- Hp.
  destruct (plan_pages (split_bookmarks source)
              (seq 0 (length (split_bookmarks source)))
              (Z.of_nat (length pages)) lvl (Some pdf))
    as (hi & Hhi & Hcat & _); [lia | |].
  { fold (split_plan pdf source lvl (Z.of_nat (length pages))). by rewrite Hp. }
  fold (split_plan pdf source lvl (Z.of_nat (length pages))) in Hcat.
  rewrite Hcat, filter_in_document by lia. done.
Qed.

Lemma split_never_repeats_a_page_witness :
  exists out,
    split_pdf twenty_pages (Ok (two_chapters, twenty_pages)) 0
      (mkEnv (fun _ p => p =? 7) (fun i => (i =? 0)%nat))
    = Ok out
    /\ concat (map out_pages (so_files out)) `sublist_of` seqZ 0 20.
Proof.
  destruct (split_never_repeats_a_page
              twenty_pages (Ok (two_chapters, twenty_pages)) 0
              (mkEnv (fun _ p => p =? 7) (fun i => (i =? 0)%nat))
              (replicate 20 None) eq_refl)
    as (out & Hout & Hsub & _).
  exists out. split; [exact Hout | exact Hsub].
Defined.

(** ** The names of the output files *)

Lemma range_output_name env total irs f :
  f ∈ flat_map (range_output env total) irs ->
  exists i r, (i, r) ∈ irs /\ out_name f = output_name i r.
Proof.
  induction irs as [| [i r] irs IH]; cbn [flat_map].
  - intros H. by apply elem_of_nil in H.
  - intros [H | H]%elem_of_app.
    + unfold range_output in H. cbn [fst snd] in H.
      destruct (_ || _); [by apply elem_of_nil in H |].
      apply list_elem_of_singleton in H as ->.
      exists i, r. split; [by left | done].
    + destruct (IH H) as (j & r' & Hin & Hname).
      exists j, r'. split; [by right | done].
Qed.

Lemma range_output_names_distinct env total irs :
  NoDup (map fst irs) ->
  NoDup (map out_name (flat_map (range_output env total) irs)).
Proof.
  induction irs as [| [i r] irs IH]; cbn [flat_map map]; [constructor |].
  intros [Hi Hnd]%NoDup_cons. rewrite map_app.
  apply NoDup_app. split; [| split; [| by apply IH]].
  - unfold range_output. cbn [fst snd].
    destruct (_ || _); [constructor | apply NoDup_singleton].
  - intros name Hname Hname'.
    apply list_elem_of_fmap in Hname as (f & -> & Hf).
    apply list_elem_of_fmap in Hname' as (f' & Heq & Hf').
    unfold range_output in Hf. cbn [fst snd] in Hf.
    destruct (_ || _); [by apply elem_of_nil in Hf |].
    apply list_elem_of_singleton in Hf as ->. cbn [out_name] in Heq.
    apply range_output_name in Hf' as (j & r' & Hin & Hname).
    rewrite Hname in Heq. apply output_name_inj in Heq as ->.
    apply Hi. apply list_elem_of_fmap. by exists (j, r').
Qed.

(** X17.  The output files of one run never overwrite each other and
    always land in the output directory: their names are pairwise
    different, also for ranges whose titles are the same after sanitising,
    and no name holds a path separator or another replaced character. *)
Theorem split_file_names_distinct :
  forall (pdf : PdfReader) (source : result (outline * PdfReader))
         (split_level : Z) (env : split_env)
         (pages : list (option IndirectObject)),
    reader_pages pdf = Ok pages ->
    exists out,
      split_pdf pdf source split_level env = Ok out
      /\ NoDup (map out_name (so_files out))
      /\ Forall (fun f => legal_name (out_name f)) (so_files out).
Proof.
  intros pdf source lvl env pages Hpages.
  destruct (split_pdf_spec pdf source lvl env pages Hpages)
    as (out & Hout & Hfiles & _).
  exists out. split; [done |]. rewrite Hfiles. split.
  - apply range_output_names_distinct. rewrite fst_enumerate. apply NoDup_seq.
  - apply Forall_forall. intros f Hf.
    apply range_output_name in Hf as (i & r & _ & ->).
    apply output_name_legal.
Qed.

Lemma split_file_names_distinct_witness :
  exists out,
    split_pdf twenty_pages (Ok (two_chapters, twenty_pages)) 0 nothing_raises
    = Ok out
    /\ NoDup (map out_name (so_files out)).
Proof.
  destruct (split_file_names_distinct
              twenty_pages (Ok (two_chapters, twenty_pages)) 0 nothing_raises
              (replicate 20 None) eq_refl)
    as (out & Hout & Hnd & _).
  exists out. split; [exact Hout | exact Hnd].
Defined.

(** ** The coverage check *)

Lemma covered_pages_inner ps : forall acc : Zset,
  fold_left (fun covered page => covered ∪ {[page]}) ps acc
  = acc ∪ list_to_set ps.
Proof.
  induction ps as [| p ps IH]; intros acc; simpl.
  - by rewrite union_empty_r_L.
  - by rewrite IH, (assoc_L (∪)).
Qed.

Lemma covered_pages_fold rs : forall acc : Zset,
  fold_left
    (fun covered range_info =>
       fold_left (fun covered page => covered ∪ {[page]})
                 (range_pages range_info) covered) rs acc
  = acc ∪ list_to_set (concat (map range_pages rs)).
Proof.
  induction rs as [| r rs IH]; intros acc; simpl.
  - by rewrite union_empty_r_L.
  - by rewrite IH, covered_pages_inner, list_to_set_app_L, (assoc_L (∪)).
Qed.

Lemma covered_pages_spec rs :
  covered_pages rs = list_to_set (concat (map range_pages rs)).
Proof.
  unfold covered_pages. by rewrite covered_pages_fold, union_empty_l_L.
Qed.

(** The check on pages 0, 1, ..., [hi] that reach the end of the
    document: it warns when they go beyond it, and the warning shows no
    page. *)
Lemma check_coverage_spec rs total hi :
  0 <= total -> total - 1 <= hi ->
  concat (map range_pages rs) = seqZ 0 (hi + 1) ->
  check_coverage rs total
  = if bool_decide (total <= hi) then [NotCovered 0 (Some [])] else [].
Proof.
  intros Htotal Hhi Hcat. unfold check_coverage.
  rewrite covered_pages_spec, Hcat.
  rewrite size_list_to_set by apply NoDup_seqZ. rewrite length_seqZ.
  assert (Hmiss : missing_pages total (list_to_set (seqZ 0 (hi + 1))) = ∅).
  { apply leibniz_equiv. unfold missing_pages.
    apply elem_of_equiv_empty. intros p Hp.
    apply elem_of_difference in Hp as [Hin Hout].
    apply elem_of_list_to_set, elem_of_seqZ in Hin.
    apply Hout, elem_of_list_to_set, elem_of_seqZ. lia. }
  rewrite Hmiss, size_empty.
  assert (Hsorted : sorted_missing total ∅ = []).
  { unfold sorted_missing. induction (seqZ 0 total) as [| p l IH]; [done |].
    simpl. rewrite bool_decide_false by apply not_elem_of_empty. exact IH. }
  rewrite Hsorted. cbn [Nat.ltb Nat.leb].
  destruct (decide (total <= hi)) as [Hover | Hfit].
  - rewrite bool_decide_true by lia. by rewrite bool_decide_true.
  - rewrite bool_decide_false by lia. by rewrite bool_decide_false.
Qed.

(** X18.  The coverage check of [split_pdf] never finds a missing page.
    The warning is printed exactly when some range of the plan ends beyond
    the last page of the document, and it then reports 0 pages and shows
    an empty list. *)
Theorem coverage_warning_shows_no_page :
  forall (pdf : PdfReader) (source : result (outline * PdfReader))
         (split_level : Z) (env : split_env)
         (pages : list (option IndirectObject)),
    reader_pages pdf = Ok pages ->
    exists out,
      split_pdf pdf source split_level env = Ok out
      /\ (forall n shown, NotCovered n shown ∈ so_log out ->
            n = 0%nat /\ shown = Some [])
      /\ ((exists n shown, NotCovered n shown ∈ so_log out)
          <-> exists r,
                r ∈ split_plan pdf source split_level (Z.of_nat (length pages))
                /\ Z.of_nat (length pages) <= range_end r).
Proof.
  intros pdf source lvl env pages Hpages.
  destruct (split_pdf_spec pdf source lvl env pages Hpages)
    as (out & Hout & _ & head & tail & Hlog & Hhead & Htail).
  exists out. split; [done |].
  set (total := Z.of_nat (length pages)) in *.
  set (plan := split_plan pdf source lvl total) in *.
  assert (Hin : forall n shown, NotCovered n shown ∈ so_log out
            <-> NotCovered n shown
                ∈ (if decide (plan = []) then [] else check_coverage plan total)).
  { intros n shown. rewrite Hlog. split.
    - intros [H | [H | H]%elem_of_app]%elem_of_app; [| done |].
      + by apply (proj1 (Forall_forall _ _) Hhead) in H.
      + by apply (proj1 (Forall_forall _ _) Htail) in H.
    - intros H. apply elem_of_app. right. apply elem_of_app. by left. }
  destruct (decide (plan = [])) as [Hnil | Hne].
  - split.
    + intros n shown H%Hin. by apply elem_of_nil in H.
    + split.
      * intros (n & shown & H%Hin). by apply elem_of_nil in H.
      * intros (r & Hr & _). rewrite Hnil in Hr. by apply elem_of_nil in Hr.
  - destruct (plan_pages (split_bookmarks source)
                (seq 0 (length (split_bookmarks source))) total lvl (Some pdf))
      as (hi & Hhi & Hcat & Hover); [lia | exact Hne |].
    fold (split_plan pdf source lvl total) in Hcat, Hover. fold plan in Hcat, Hover.
    rewrite (check_coverage_spec plan total hi ltac:(lia) Hhi Hcat) in Hin.
    split.
    + intros n shown H%Hin.
      destruct (bool_decide (total <= hi)); [| by apply elem_of_nil in H].
      apply list_elem_of_singleton in H. by injection H as -> ->.
    + rewrite <- Hover. split.
      * intros (n & shown & H%Hin).
        destruct (decide (total <= hi)) as [Hle | Hgt]; [done |].
        rewrite bool_decide_false in H by done. by apply elem_of_nil in H.
      * intros Hle. exists 0%nat, (Some []). apply Hin.
        rewrite bool_decide_true by done. by left.
Qed.

Lemma coverage_warning_shows_no_page_witness :
  exists out,
    split_pdf twenty_pages (Ok (two_chapters, twenty_pages)) 0 nothing_raises
    = Ok out
    /\ exists n shown, NotCovered n shown ∈ so_log out.
Proof.
  destruct (coverage_warning_shows_no_page
              twenty_pages (Ok (two_chapters, twenty_pages)) 0 nothing_raises
              (replicate 20 None) eq_refl)
    as (out & Hout & _ & Hiff).
  exists out. split; [exact Hout |].
  apply Hiff. exists (mkRange "A/b" 4 28). split; [| simpl; lia].
  vm_compute. right. left.
Defined.

(** ** The levels that reach the planner *)

Lemma inferred_levels_nonneg bs :
  forall i, (i < length bs)%nat -> 0 <= level (infer_bookmark_level bs !!! i).
Proof.
  intros i. induction (lt_wf i) as [i _ IH]. intros Hi.
  rewrite infer_level_lookup by done.
  destruct (infer_levels_shape bs i Hi) as [-> | (j & Hj & _ & ->)]; [lia |].
  specialize (IH j Hj ltac:(lia)).
  rewrite infer_level_lookup in IH by lia. lia.
Qed.

Lemma extracted_levels o r :
  Forall (fun b => 0 <= level b) (extract_bookmarks o r)
  /\ forall b, head (extract_bookmarks o r) = Some b -> level b = 0.
Proof.
  unfold extract_bookmarks, infer_if_flat.
  destruct (flatten_steps o r 0) as (Hall & Hhead & _).
  destruct (_ && _); [| done].
  set (bs := flatten_bookmarks o r 0) in *.
  split.
  - rewrite Forall_lookup_total. intros i Hi.
    rewrite infer_bookmark_level_length in Hi.
    by apply inferred_levels_nonneg.
  - intros b Hb. destruct bs as [| b0 bs'] eqn:Hbs; [done |].
    assert (Hlen : (0 < length (infer_bookmark_level (b0 :: bs')))%nat).
    { rewrite infer_bookmark_level_length. simpl. lia. }
    rewrite head_lookup in Hb.
    apply list_lookup_total_correct in Hb. subst b.
    rewrite infer_level_lookup by (simpl; lia).
    destruct (infer_levels_shape (b0 :: bs') 0%nat ltac:(simpl; lia))
      as [-> | (j & Hj & _)]; [done | lia].
Qed.

(** X19.  The bookmarks that [extract_bookmarks] returns never have a
    negative level, and the first of them is at level 0, whether the
    levels come from the outline or from the titles.  So the planner finds
    a bookmark at level 0 whenever the document has any bookmark. *)
Theorem extracted_levels_start_at_zero :
  forall (o : outline) (r : PdfReader),
    let bookmarks := extract_bookmarks o r in
    Forall (fun b => 0 <= level b) bookmarks
    /\ (forall b, head bookmarks = Some b -> level b = 0)
    /\ (select_level bookmarks (seq 0 (length bookmarks)) 0 = []
        <-> bookmarks = []).
Proof.
  intros o r bookmarks.
  destruct (extracted_levels o r) as [Hall Hhead]. fold bookmarks in Hall, Hhead.
  assert (Hsel : forall lvl,
            select_level bookmarks (seq 0 (length bookmarks)) lvl = []
            <-> Forall (fun b => level b <> lvl) bookmarks).
  { intros lvl. unfold select_level. split.
    - intros Hnil. rewrite Forall_lookup_total. intros i Hi Hlvl.
      assert (Hin : i ∈ List.filter
                (fun a => level (bookmarks !!! a) =? lvl)
                (seq 0 (length bookmarks))).
      { apply list_elem_of_In, List.filter_In. split.
        - apply List.in_seq. lia.
        - by apply Z.eqb_eq. }
      rewrite Hnil in Hin. by apply elem_of_nil in Hin.
    - intros Hnone.
      destruct (List.filter _ _) as [| a l] eqn:Hf; [done |].
      assert (Hin : List.In a (List.filter
                (fun a => level (bookmarks !!! a) =? lvl)
                (seq 0 (length bookmarks)))) by (rewrite Hf; by left).
      apply List.filter_In in Hin as [Hseq Hlvl].
      apply List.in_seq in Hseq. apply Z.eqb_eq in Hlvl.
      rewrite Forall_lookup_total in Hnone.
      by destruct (Hnone a ltac:(lia)). }
  split; [done |]. split; [done |].
  rewrite Hsel. split.
  - intros Hnone. destruct bookmarks as [| b bs]; [done |].
    apply Forall_cons in Hnone as [Hb _].
    by destruct Hb, (Hhead b).
  - intros ->. by apply List.Forall_nil.
Qed.

(** X20.  Splitting at a negative level never writes a file: no bookmark
    is at that level, the planner says so, and [split_pdf] stops before
    the coverage check. *)
Theorem split_at_negative_level_writes_nothing :
  forall (pdf : PdfReader) (source : result (outline * PdfReader))
         (split_level : Z) (env : split_env)
         (pages : list (option IndirectObject)),
    reader_pages pdf = Ok pages ->
    split_level < 0 ->
    split_pdf pdf source split_level env
    = Ok (mkOutcome []
            [TotalPages (Z.of_nat (length pages)); Extracting split_level;
             Planner (NoBookmarkAtLevel split_level); NoRanges]).
Proof.
  intros pdf source lvl env pages Hpages Hneg.
  unfold split_pdf. rewrite Hpages. cbn [mbind result_bind].
  fold (split_bookmarks source).
  assert (Hsel : select_level (split_bookmarks source)
                   (seq 0 (length (split_bookmarks source))) lvl = []).
  { unfold select_level.
    assert (Hall : Forall (fun b => 0 <= level b) (split_bookmarks source)).
    { unfold split_bookmarks. destruct source as [[o r] |].
      - apply extracted_levels.
      - by apply List.Forall_nil. }
    destruct (List.filter _ _) as [| a l] eqn:Hf; [done |].
    assert (Hin : List.In a (List.filter
              (fun a => level (split_bookmarks source !!! a) =? lvl)
              (seq 0 (length (split_bookmarks source)))))
      by (rewrite Hf; by left).
    apply List.filter_In in Hin as [Hseq Hlvl].
    apply List.in_seq in Hseq. apply Z.eqb_eq in Hlvl.
    pose proof (proj1 (Forall_lookup_total _ _) Hall a ltac:(lia)) as Ha.
    cbv beta in Ha. exfalso. lia. }
  unfold get_page_ranges. rewrite Hsel. done.
Qed.

Lemma split_at_negative_level_writes_nothing_witness :
  split_pdf twenty_pages (Ok (two_chapters, twenty_pages)) (-1) nothing_raises
  = Ok (mkOutcome []
          [TotalPages 20; Extracting (-1);
           Planner (NoBookmarkAtLevel (-1)); NoRanges]).
Proof.
  apply (split_at_negative_level_writes_nothing
           twenty_pages (Ok (two_chapters, twenty_pages)) (-1) nothing_raises
           (replicate 20 None) eq_refl).
  lia.
Defined.
